(** * omega-topology-fullstack: homology support sets and the MI Tab store

    A shallow embedding of [src/ts/src/HoParameter.ts] and
    [src/ts/src/PSICQuic.ts], and the properties of their data layer:
    the three parallel sequences of a [HoParameterSet], the [trim] filtering
    pass, and the deduplicating [PSICQuic] store.

    JavaScript numbers are IEEE 754 binary64 values, so they are embedded as
    Rocq's primitive floats: a comparison with a NaN operand is [false].

    [PSICQuic] is embedded from [PSICQuic.ts], where [plus] asks
    [checkPsqData] before it calls [update]. *)

From Stdlib Require Import ZArith Floats SpecFloat Ascii.
From stdpp Require Import base option list strings pretty gmap.

Set Warnings "-register-all,-clear-no-such-hyp".

(** ** The JavaScript built-ins the code calls

    [parseInt], [Number] and the number-to-string conversion of template
    literals are functions of the language runtime; [toLowerCase] is the
    method of [String.prototype]. [JSON_stringify] is [JSON.stringify] on the
    values of type [json] below. They are parameters of the development. *)

Inductive json : Type :=
  | JNull
  | JBool (b : bool)
  | JString (s : string)
  | JArray (items : list json)
  | JObject (members : list (string * json)).

Class JsBuiltins := {
  parseInt : string -> float;
  Number : string -> float;
  numToString : float -> string;
  toLowerCase : string -> string;
  JSON_stringify : json -> string;
  (** the properties every plain object inherits from [Object.prototype], by
      key, each as the string its value converts to under [==] *)
  Object_prototype : string -> option string
}.

(** [a[i]] on a [string[]]: [undefined] when [i] is out of range, and both
    [parseInt(undefined)] and [Number(undefined)] are NaN. *)
Definition parseInt_at `{JsBuiltins} (a : list string) (i : nat) : float :=
  match a !! i with
  | Some s => parseInt s
  | None => nan
  end.

Definition Number_at `{JsBuiltins} (a : list string) (i : nat) : float :=
  match a !! i with
  | Some s => Number s
  | None => nan
  end.

(** [a < b], [a > b], [a >= b], [a <= b] on numbers. *)
Definition js_lt (a b : float) : bool := (a <? b)%float.
Definition js_gt (a b : float) : bool := (b <? a)%float.
Definition js_ge (a b : float) : bool := (b <=? a)%float.
Definition js_le (a b : float) : bool := (a <=? b)%float.

(** [Set.prototype.has] on a [Set<string>], the set given by its elements. *)
Definition Set_has (s : list string) (x : string) : bool :=
  existsb (String.eqb x) s.

(** [Array.prototype.join('')] on a [string[]]. *)
Definition join_empty (a : list string) : string := String.concat "" a.

(** [arr.filter((_, index) => p(index))]. *)
Fixpoint filter_index {A : Type} (p : nat -> bool) (index : nat) (l : list A) : list A :=
  match l with
  | [] => []
  | x :: t =>
      if p index then x :: filter_index p (S index) t
      else filter_index p (S index) t
  end.

(** [arr.includes(index)] on a [number[]] of indices. *)
Definition includes (l : list nat) (index : nat) : bool :=
  existsb (Nat.eqb index) l.

(** A call either returns or throws. The only exception the modelled code
    raises itself is the [TypeError] of a property read on [undefined]. *)
Inductive js_error : Type := TypeError.

Inductive completion (A : Type) : Type :=
  | Normal (a : A)
  | Throw (e : js_error).
Arguments Normal {A} a.
Arguments Throw {A} e.

(** A call into code that is not part of these sources either returns or
    throws a value of a type [E] of its own. *)
Inductive outcome (E A : Type) : Type :=
  | Returned (a : A)
  | Thrown (e : E).
Arguments Returned {E A} a.
Arguments Thrown {E A} e.

(** ** PSQData

    The parsed MI Tab line of [PSICQuicData.ts], by the accessors this code
    reads. Its equality method [equal] and its JSON form are taken as
    parameters where they are used. [checkPsqData] reads [pmid] and [source]
    under a non-null assertion, so both are present here. *)
Record PSQData : Type := mkPSQData {
  ids : string * string;
  pmid : string;
  source : string;
  interactionDetectionMethod : string;
  taxid : list string
}.

(** ** HoParameter *)

Definition HVector : Type := list string.

Module HoParameter.

Record t : Type := mk {
  data : HVector;
  valid : bool
}.

(** [new HoParameter(hVector)]: [valid] defaults to [true]. *)
Definition new (hVector : HVector) : t := mk hVector true.

Definition set_valid (b : bool) (h : t) : t := mk (data h) b.

Section Getters.
Context `{JsBuiltins}.

(** [parseInt(this.data[3]) - parseInt(this.data[2]) + 1] *)
Definition length (h : t) : float :=
  (parseInt_at (data h) 3 - parseInt_at (data h) 2 + 1)%float.

Definition template (h : t) : option string := data h !! 0.

(** [100 * Number(this.data[7]) / this.length] *)
Definition simPct (h : t) : float :=
  (100 * Number_at (data h) 7 / length h)%float.

(** [100 * Number(this.data[8]) / this.length] *)
Definition idPct (h : t) : float :=
  (100 * Number_at (data h) 8 / length h)%float.

(** [100 * this.length / parseInt(this.data[1])] *)
Definition cvPct (h : t) : float :=
  (100 * length h / parseInt_at (data h) 1)%float.

Definition eValue (h : t) : float := Number_at (data h) 9.
End Getters.

End HoParameter.

(** ** MitabParameter *)

Module MitabParameter.

Record t : Type := mk {
  data : PSQData;
  valid : bool
}.

Definition new (d : PSQData) : t := mk d true.

Definition set_valid (b : bool) (m : t) : t := mk (data m) b.

End MitabParameter.

(** ** HoParameterSet *)

Definition TAXON_EVERY : nat := 0.
Definition TAXON_SOME : nat := 1.

(** The reason record of [trim]: a field is [false] (here [None]) or the
    text describing the failed threshold. *)
Record TrimFailReason : Type := mkReason {
  identity : option string;
  similarity : option string;
  e_value : option string;
  coverage : option string
}.

(** The options object of [trim]; [exp_methods] and [taxons] are [undefined]
    or a [Set<string>]. *)
Record TrimOptions : Type := mkOptions {
  opt_simPct : float;
  opt_idPct : float;
  opt_cvPct : float;
  opt_eValue : float;
  exp_methods : option (list string);
  taxons : option (list string);
  definitive : bool;
  logged : bool;
  destroy_identical : bool
}.

(** The default values of the destructured parameter. *)
Definition default_options : TrimOptions :=
  mkOptions 0%float 0%float 0%float 1%float None None false false false.

Definition with_definitive (b : bool) (o : TrimOptions) : TrimOptions :=
  mkOptions (opt_simPct o) (opt_idPct o) (opt_cvPct o) (opt_eValue o)
            (exp_methods o) (taxons o) b (logged o) (destroy_identical o).

Definition with_logged (b : bool) (o : TrimOptions) : TrimOptions :=
  mkOptions (opt_simPct o) (opt_idPct o) (opt_cvPct o) (opt_eValue o)
            (exp_methods o) (taxons o) (definitive o) b (destroy_identical o).

(** The locals of [trim] that live across the iterations of its loop. *)
Record TrimLocals : Type := mkLocals {
  reasons : list (TrimFailReason * TrimFailReason);
  to_remove : list nat;
  hashes : list string
}.

Module HoParameterSet.

(** [add] and [from] build a new [HoParameter] for every position, and an
    evidence line belongs to one group, so no object is reached from two
    positions: the three arrays are lists of values, and a write to the
    record of a position is a new value at that position. *)
Record t : Type := mk {
  lowQueryParam : list HoParameter.t;
  highQueryParam : list HoParameter.t;
  mitabCouples : list (list MitabParameter.t);
  visible : bool
}.

(** [new HoParameterSet]: the field initialisers. *)
Definition new : t := mk [] [] [] true.

(** [remove()] *)
Definition remove (s : t) : t := mk [] [] (mitabCouples s) false.

(** The [length] getter: the number of valid homologies. *)
Definition length (s : t) : nat :=
  List.length (List.filter HoParameter.valid (lowQueryParam s)).

Definition depth (s : t) : nat := length s.

Definition isEmpty (s : t) : bool := Nat.eqb (length s) 0.

(** [add(x, y)] *)
Definition add (x y : HVector) (s : t) : t :=
  mk (lowQueryParam s ++ [HoParameter.new x])
     (highQueryParam s ++ [HoParameter.new y])
     (mitabCouples s ++ [[]])
     (visible s).

(** The argument of the static [from]. *)
Record row : Type := mkRow {
  row_data : HVector;
  row_valid : bool
}.

Record serialized : Type := mkSerialized {
  ser_lowQueryParam : list row;
  ser_highQueryParam : list row;
  ser_visible : bool
}.

Definition of_row (l : row) : HoParameter.t :=
  HoParameter.set_valid (row_valid l) (HoParameter.new (row_data l)).

(** [static from(obj)] *)
Definition from (obj : serialized) : t :=
  mk (map of_row (ser_lowQueryParam obj))
     (map of_row (ser_highQueryParam obj))
     (mitabCouples new)
     (ser_visible obj).

(** The [templates] getter: the templates of the valid records of each
    side; a template is [this.data[0]], [undefined] on an empty vector. *)
Definition templates (s : t) : list (option string) * list (option string) :=
  (map HoParameter.template (List.filter HoParameter.valid (lowQueryParam s)),
   map HoParameter.template (List.filter HoParameter.valid (highQueryParam s))).

(** The [full_templates] getter. *)
Definition full_templates (s : t) : list (option string) * list (option string) :=
  (map HoParameter.template (lowQueryParam s),
   map HoParameter.template (highQueryParam s)).

(** [*[Symbol.iterator]()]: what the generator yields when run to its end,
    [zip] stopping at the shorter array. *)
Definition iterator (s : t) : list (HoParameter.t * HoParameter.t) :=
  zip (lowQueryParam s) (highQueryParam s).

(** [zip] of three arrays, stopping at the shortest. *)
Fixpoint zip3 {A B C : Type} (l1 : list A) (l2 : list B) (l3 : list C)
  : list (A * B * C) :=
  match l1, l2, l3 with
  | a :: l1, b :: l2, c :: l3 => (a, b, c) :: zip3 l1 l2 l3
  | _, _, _ => []
  end.

(** The body of the loop of [full_iterator]: what it yields for one triple
    of the zip, if anything. *)
Definition yield_row (visible_only : bool)
    (values : HoParameter.t * HoParameter.t * list MitabParameter.t)
  : option (HoParameter.t * HoParameter.t * list PSQData) :=
  let '(lo, hi, lines) := values in
  if visible_only then
    if HoParameter.valid lo && HoParameter.valid hi then
      Some (lo, hi, map MitabParameter.data (List.filter MitabParameter.valid lines))
    else None
  else Some (lo, hi, map MitabParameter.data lines).

(** [*full_iterator(visible_only)]: what the generator yields when run to
    its end. *)
Definition full_iterator (visible_only : bool) (s : t)
  : list (HoParameter.t * HoParameter.t * list PSQData) :=
  omap (yield_row visible_only)
       (zip3 (lowQueryParam s) (highQueryParam s) (mitabCouples s)).

Section Trim.
Context `{JsBuiltins}.

(** [`${value}, expected higher than ${threshold}`] *)
Definition expected_higher (value threshold : float) : string :=
  numToString value +:+ ", expected higher than " +:+ numToString threshold.

Definition expected_lower (value threshold : float) : string :=
  numToString value +:+ ", expected lower than " +:+ numToString threshold.

(** The [logged] branch for one side: [valid] is set to [true], then each
    failed threshold writes its reason and sets [valid] to [false]. *)
Definition check_logged (o : TrimOptions) (h : HoParameter.t)
  : HoParameter.t * TrimFailReason :=
  let reason := mkReason None None None None in
  let h := HoParameter.set_valid true h in
  let '(h, reason) :=
    if js_lt (HoParameter.simPct h) (opt_simPct o) then
      (HoParameter.set_valid false h,
       mkReason (identity reason)
                (Some (expected_higher (HoParameter.simPct h) (opt_simPct o)))
                (e_value reason) (coverage reason))
    else (h, reason) in
  let '(h, reason) :=
    if js_lt (HoParameter.idPct h) (opt_idPct o) then
      (HoParameter.set_valid false h,
       mkReason (Some (expected_higher (HoParameter.idPct h) (opt_idPct o)))
                (similarity reason) (e_value reason) (coverage reason))
    else (h, reason) in
  let '(h, reason) :=
    if js_lt (HoParameter.cvPct h) (opt_cvPct o) then
      (HoParameter.set_valid false h,
       mkReason (identity reason) (similarity reason) (e_value reason)
                (Some (expected_higher (HoParameter.cvPct h) (opt_cvPct o))))
    else (h, reason) in
  if js_gt (HoParameter.eValue h) (opt_eValue o) then
    (HoParameter.set_valid false h,
     mkReason (identity reason) (similarity reason)
              (Some (expected_lower (HoParameter.eValue h) (opt_eValue o)))
              (coverage reason))
  else (h, reason).

(** The other branch for one side: one conjunction of four comparisons. *)
Definition check_silent (o : TrimOptions) (h : HoParameter.t) : HoParameter.t :=
  HoParameter.set_valid
    (js_ge (HoParameter.simPct h) (opt_simPct o)
     && js_ge (HoParameter.idPct h) (opt_idPct o)
     && js_ge (HoParameter.cvPct h) (opt_cvPct o)
     && js_le (HoParameter.eValue h) (opt_eValue o))
    h.

(** The taxon test of one MI Tab line, by [DEFAULT_TAXON_SEARCH_MODE]. *)
Definition taxon_match (mode : nat) (taxons : list string) (d : PSQData) : bool :=
  if Nat.eqb mode TAXON_EVERY then forallb (Set_has taxons) (taxid d)
  else existsb (Set_has taxons) (taxid d).

(** The blocks of the body of the [for] loop of [trim], in source order.
    [mc] is [this.mitabCouples[index]], [None] when it is [undefined]. *)

(** The threshold block: both sides, and [reasons.push] when [logged]. *)
Definition row_thresholds (o : TrimOptions) (loHparam hiHparam : HoParameter.t)
    (reasons : list (TrimFailReason * TrimFailReason))
  : HoParameter.t * HoParameter.t * list (TrimFailReason * TrimFailReason) :=
  if logged o then
    let '(lo, reason) := check_logged o loHparam in
    let '(hi, highReason) := check_logged o hiHparam in
    (lo, hi, reasons ++ [(reason, highReason)])
  else (check_silent o loHparam, check_silent o hiHparam, reasons).

(** [if (!exp_methods && this.mitabCouples[index])]: every line of the
    group is valid again. *)
Definition row_reset (o : TrimOptions) (mc : option (list MitabParameter.t))
  : option (list MitabParameter.t) :=
  if negb (bool_decide (is_Some (exp_methods o))) then
    option_map (map (MitabParameter.set_valid true)) mc
  else mc.

(** The two [forEach] passes over [mitab_lines_of]. *)
Definition filter_lines (mode : nat) (o : TrimOptions)
    (mitab_lines_of : list MitabParameter.t) : list MitabParameter.t :=
  let mitab_lines_of :=
    match exp_methods o with
    | Some methods =>
        map (fun l => MitabParameter.set_valid
                        (Set_has methods
                           (interactionDetectionMethod (MitabParameter.data l))) l)
            mitab_lines_of
    | None => mitab_lines_of
    end in
  match taxons o with
  | Some tx =>
      map (fun l => MitabParameter.set_valid
                      (if negb (MitabParameter.valid l) then false
                       else taxon_match mode tx (MitabParameter.data l)) l)
          mitab_lines_of
  | None => mitab_lines_of
  end.

(** [if ((exp_methods || taxons) && loHparam.valid && hiHparam.valid)]:
    the filters on the lines of the group, then
    [mitab_lines_of.filter(e => e.valid).length > 0], which reads
    [filter] of [undefined] when the position has no group. *)
Definition row_filters (mode : nat) (o : TrimOptions)
    (loHparam hiHparam : HoParameter.t) (mc : option (list MitabParameter.t))
  : completion (HoParameter.t * HoParameter.t * option (list MitabParameter.t)) :=
  if (bool_decide (is_Some (exp_methods o)) || bool_decide (is_Some (taxons o)))
     && HoParameter.valid loHparam && HoParameter.valid hiHparam then
    match mc with
    | Some mitab_lines_of =>
        let mitab_lines_of := filter_lines mode o mitab_lines_of in
        let v := Nat.ltb 0 (List.length (List.filter MitabParameter.valid mitab_lines_of)) in
        Normal (HoParameter.set_valid v loHparam,
                HoParameter.set_valid v hiHparam,
                Some mitab_lines_of)
    | None => Throw TypeError
    end
  else Normal (loHparam, hiHparam, mc).

(** [if (!loHparam.valid || !hiHparam.valid)]: the whole position is
    invalid and its index is pushed to [to_remove]. *)
Definition row_invalidate (index : nat) (loHparam hiHparam : HoParameter.t)
    (mc : option (list MitabParameter.t)) (to_remove : list nat)
  : HoParameter.t * HoParameter.t * option (list MitabParameter.t) * list nat :=
  if negb (HoParameter.valid loHparam) || negb (HoParameter.valid hiHparam) then
    (HoParameter.set_valid false loHparam,
     HoParameter.set_valid false hiHparam,
     option_map (map (MitabParameter.set_valid false)) mc,
     to_remove ++ [index])
  else (loHparam, hiHparam, mc, to_remove).

(** [if (destroy_identical)]: the mini-hash of the position. No key of
    [Object.prototype] contains [~], so [hash in hashes] holds exactly
    for the hashes stored before. *)
Definition row_identical (o : TrimOptions) (index : nat)
    (loHparam hiHparam : HoParameter.t) (to_remove : list nat) (hashes : list string)
  : list nat * list string :=
  if destroy_identical o then
    let hash := join_empty (HoParameter.data loHparam) +:+ "~"
                +:+ join_empty (HoParameter.data hiHparam) in
    if Set_has hashes hash then (to_remove ++ [index], hashes)
    else (to_remove, hashes ++ [hash])
  else (to_remove, hashes).

(** The body of the loop at position [index]. *)
Definition trim_row (mode : nat) (o : TrimOptions) (index : nat)
    (loHparam hiHparam : HoParameter.t) (mc : option (list MitabParameter.t))
    (st : TrimLocals)
  : completion (HoParameter.t * HoParameter.t
                * option (list MitabParameter.t) * TrimLocals) :=
  let '(loHparam, hiHparam, reasons) := row_thresholds o loHparam hiHparam (reasons st) in
  let mc := row_reset o mc in
  match row_filters mode o loHparam hiHparam mc with
  | Throw e => Throw e
  | Normal (loHparam, hiHparam, mc) =>
      let '(loHparam, hiHparam, mc, to_remove) :=
        row_invalidate index loHparam hiHparam mc (to_remove st) in
      let '(to_remove, hashes) :=
        row_identical o index loHparam hiHparam to_remove (hashes st) in
      Normal (loHparam, hiHparam, mc, mkLocals reasons to_remove hashes)
  end.

(** [for (const [index, parameters] of enumerate(this))]: the iterator of
    the set zips [lowQueryParam] with [highQueryParam] and stops at the
    shorter one; [mcs] is what is left of [mitabCouples] from [index] on. *)
Fixpoint trim_loop (mode : nat) (o : TrimOptions) (index : nat)
    (lows highs : list HoParameter.t) (mcs : list (list MitabParameter.t))
    (st : TrimLocals)
  : completion (list HoParameter.t * list HoParameter.t
                * list (list MitabParameter.t) * TrimLocals) :=
  match lows, highs with
  | lo :: lows', hi :: highs' =>
      match trim_row mode o index lo hi (head mcs) st with
      | Throw e => Throw e
      | Normal (lo, hi, mc, st) =>
          match trim_loop mode o (S index) lows' highs' (tail mcs) st with
          | Throw e => Throw e
          | Normal (lows', highs', mcs', st) =>
              Normal (lo :: lows', hi :: highs',
                      match mc with
                      | Some m => m :: mcs'
                      | None => mcs'
                      end,
                      st)
          end
      end
  | _, _ => Normal (lows, highs, mcs, st)
  end.

(** [trim(options)], with the static [DEFAULT_TAXON_SEARCH_MODE] as
    [mode]. The result is the set after the call and the returned
    [reasons]. *)
Definition trim (mode : nat) (o : TrimOptions) (s : t)
  : completion (t * list (TrimFailReason * TrimFailReason)) :=
  match trim_loop mode o 0 (lowQueryParam s) (highQueryParam s) (mitabCouples s)
                  (mkLocals [] [] []) with
  | Throw e => Throw e
  | Normal (lows, highs, mcs, st) =>
      let keep := fun index => negb (includes (to_remove st) index) in
      if definitive o then
        Normal (mk (filter_index keep 0 lows) (filter_index keep 0 highs)
                   (filter_index keep 0 mcs) true,
                reasons st)
      else Normal (mk lows highs mcs true, reasons st)
  end.
End Trim.

Section Serialize.
Context `{JsBuiltins}.
(** What [JSON.stringify] reads of a [PSQData] object. *)
Variable PSQData_json : PSQData -> json.

(** The callback of [this.lowQueryParam.filter((e, index) => ...)] run from
    position [index] on: the rows it keeps, and the local [mitabCouples]
    after its pushes. [String(index) in this.mitabCouples] holds exactly
    when the array has an element at [index]. *)
Fixpoint toString_low (this_mitabCouples : list (list MitabParameter.t))
    (index : nat) (lows : list HoParameter.t) (mitabCouples : list (list PSQData))
  : list HoParameter.t * list (list PSQData) :=
  match lows with
  | [] => ([], mitabCouples)
  | e :: rest =>
      let mitabCouples :=
        match this_mitabCouples !! index with
        | Some group =>
            if HoParameter.valid e then
              mitabCouples
              ++ [map MitabParameter.data (List.filter MitabParameter.valid group)]
            else mitabCouples
        | None => mitabCouples
        end in
      let '(kept, mitabCouples) :=
        toString_low this_mitabCouples (S index) rest mitabCouples in
      (if HoParameter.valid e then e :: kept else kept, mitabCouples)
  end.

(** What [JSON.stringify] reads of a [HoParameter]: its two fields. *)
Definition HoParameter_json (h : HoParameter.t) : json :=
  JObject [("data", JArray (map JString (HoParameter.data h)));
           ("valid", JBool (HoParameter.valid h))].

(** The object literal handed to [JSON.stringify] in [toString]. The
    properties are evaluated in order, so the pushes of the first
    callback are done when [mitabCouples] is read. *)
Definition toString_object (s : t) : json :=
  let '(low, mitabCouples) := toString_low (HoParameterSet.mitabCouples s) 0 (lowQueryParam s) [] in
  JObject [("lowQueryParam", JArray (map HoParameter_json low));
           ("highQueryParam",
            JArray (map HoParameter_json (List.filter HoParameter.valid (highQueryParam s))));
           ("mitabCouples",
            JArray (map (fun group => JArray (map PSQData_json group)) mitabCouples))].

(** [toString()] *)
Definition toString (s : t) : string := JSON_stringify (toString_object s).
End Serialize.

End HoParameterSet.

(** [obj[key]] on a [json] object. *)
Definition json_member (key : string) (j : json) : option json :=
  match j with
  | JObject members => snd <$> List.find (fun m => String.eqb (fst m) key) members
  | _ => None
  end.

(** [str.split('\n')]: the pieces between the line feeds, one piece for a
    string without any. *)
Fixpoint split_newline (str : string) : list string :=
  match str with
  | EmptyString => [EmptyString]
  | String c rest =>
      if Ascii.eqb c (ascii_of_nat 10) then EmptyString :: split_newline rest
      else match split_newline rest with
           | piece :: pieces => String c piece :: pieces
           | [] => [String c EmptyString]
           end
  end.

(** [line.startsWith('#')] *)
Definition startsWith_hash (line : string) : bool :=
  match line with
  | String c _ => Ascii.eqb c (ascii_of_nat 35)
  | EmptyString => false
  end.

(** [Set.prototype.add] on a [Set<string>], the set given by its elements in
    insertion order. *)
Definition Set_add (s : list string) (x : string) : list string :=
  if Set_has s x then s else s ++ [x].

(** ** ReversibleKeyMap *)

Module ReversibleKeyMap.

(** Modelled from the spec: [ReversibleKeyMap], the container of the npm
    package [reversible-key-map], is not part of the sources. It is a
    mapping from an unordered pair of identifiers to a value, whose lookup
    is symmetric: what is stored under (A, B) is read by either ordering.
    The entries are kept in the order their pairs were first set, which is
    the order the iterator yields them in; the properties proved below do
    not depend on that order. *)
Definition t (V : Type) : Type := list ((string * string) * V).

(** Modelled from the spec: the stored pair [k] is the unordered pair of
    [id1] and [id2]. *)
Definition key_match (k : string * string) (id1 id2 : string) : bool :=
  bool_decide ((k.1 = id1 /\ k.2 = id2) \/ (k.1 = id2 /\ k.2 = id1)).

Section Ops.
Context {V : Type}.

(** Modelled from the spec: the container without any pair. *)
Definition empty : t V := [].

(** Modelled from the spec: [get(id1, id2)], the value stored for the
    pair, by either ordering. *)
Fixpoint get (m : t V) (id1 id2 : string) : option V :=
  match m with
  | [] => None
  | (k, v) :: rest => if key_match k id1 id2 then Some v else get rest id1 id2
  end.

(** Modelled from the spec: [hasCouple(id1, id2)]. *)
Definition hasCouple (m : t V) (id1 id2 : string) : bool :=
  bool_decide (is_Some (get m id1 id2)).

(** Modelled from the spec: [has(id)], some stored pair includes [id]. *)
Definition has (m : t V) (id : string) : bool :=
  existsb (fun e => bool_decide (e.1.1 = id \/ e.1.2 = id)) m.

(** Modelled from the spec: [set(id1, id2, value)]; the value of a stored
    pair is replaced where it is, a new pair is added last. *)
Fixpoint set (m : t V) (id1 id2 : string) (value : V) : t V :=
  match m with
  | [] => [((id1, id2), value)]
  | (k, v) :: rest =>
      if key_match k id1 id2 then (k, value) :: rest
      else (k, v) :: set rest id1 id2 value
  end.

(** Modelled from the spec: [getAllFrom(id).values()], the values of the
    stored pairs that include [id]. *)
Definition getAllFrom (m : t V) (id : string) : list V :=
  map snd (List.filter (fun e => bool_decide (e.1.1 = id \/ e.1.2 = id)) m).

(** Modelled from the spec: [values()], the stored values, one per pair. *)
Definition values (m : t V) : list V := map snd m.
End Ops.

End ReversibleKeyMap.

(** ** PSICQuic *)

Module PSICQuic.

(** The two fields the modelled methods read and write; [mode], [keep_raw]
    and [init_promise] play no part in them. [update] pushes to the array
    [getLines] returned, which is the array stored for the pair or a new
    one, so two stores never hold the same array; the methods do not write
    to a [PSQData]. *)
Record t : Type := mk {
  records : ReversibleKeyMap.t (list PSQData);
  registredPublications : gmap string string
}.

(** [new PSICQuic] *)
Definition new : t := mk ReversibleKeyMap.empty ∅.

(** [clear()] *)
Definition clear (s : t) : t := mk ReversibleKeyMap.empty ∅.

Definition has (s : t) (id : string) : bool := ReversibleKeyMap.has (records s) id.

Definition hasCouple (s : t) (id1 id2 : string) : bool :=
  ReversibleKeyMap.hasCouple (records s) id1 id2.

(** [getLines(id1, id2)] *)
Definition getLines (s : t) (id1 id2 : string) : list PSQData :=
  if hasCouple s id1 id2 then default [] (ReversibleKeyMap.get (records s) id1 id2)
  else [].

(** The records the iterator of the store yields. *)
Definition lines (s : t) : list PSQData := concat (ReversibleKeyMap.values (records s)).

Section Methods.
Context `{JsBuiltins}.
(** [line.equal(psq)], the equality method of [PSQData]. *)
Variable equal : PSQData -> PSQData -> bool.

(** [update(psq)] *)
Definition update (s : t) (psq : PSQData) : t :=
  let '(id1, id2) := ids psq in
  let actual_array := getLines s id1 id2 in
  if forallb (fun line => negb (equal line psq)) actual_array then
    mk (ReversibleKeyMap.set (records s) id1 id2 (actual_array ++ [psq]))
       (registredPublications s)
  else s.

(** [pmid in this.registredPublications] and
    [this.registredPublications[pmid]]: own properties first, then the
    inherited ones. *)
Definition js_in (key : string) (o : gmap string string) : bool :=
  bool_decide (is_Some (o !! key)) || bool_decide (is_Some (Object_prototype key)).

Definition js_read (o : gmap string string) (key : string) : option string :=
  match o !! key with
  | Some v => Some v
  | None => Object_prototype key
  end.

(** [checkPsqData(psqDataObj)]: the store after the call and the returned
    boolean. The [console.log] calls are left out. *)
Definition checkPsqData (s : t) (psqDataObj : PSQData) : t * bool :=
  let pmid := pmid psqDataObj in
  let source := toLowerCase (source psqDataObj) in
  if negb (js_in pmid (registredPublications s)) then
    (mk (records s) (<[pmid := source]> (registredPublications s)), true)
  else if bool_decide (js_read (registredPublications s) pmid = Some source) then
    (s, true)
  else (s, false).

(** The body of the inner loop of [plus]. *)
Definition plus_line (s : t) (line : PSQData) : t :=
  let '(s, accepted) := checkPsqData s line in
  if accepted then update s line else s.

(** [this.plus(other)] for another store: [other] is only read, and no
    array of [other] is an array of [this], so the loops run over the
    entries and the lines [other] had at the call. *)
Definition plus (self other : t) : t :=
  fold_left (fun s entry => fold_left plus_line entry.2 s) (records other) self.

(** [add(...psqs)] of the copy of the class that [HoParameter.ts] carries
    after [HoParameterSet]: the body of [update] for each record in turn. *)
Definition add (s : t) (psqs : list PSQData) : t := fold_left update psqs s.

(** [plus(other)] of that copy, for another store: [this.add(...value)]
    for the sequence of every pair, with no call of [checkPsqData]. *)
Definition plus_by_add (self other : t) : t :=
  fold_left (fun s entry => add s entry.2) (records other) self.

(** [this.plus(this)]: the two [for...of] loops read the live map and the
    live arrays that [update] writes, so the iteration is by position:
    [i] in the entries of [records], [j] in the array of entry [i], both
    looked up again at every step. [None]: the loops are still running
    when the fuel is spent. *)
Fixpoint plus_self (fuel i j : nat) (s : t) : option t :=
  match fuel with
  | 0 => None
  | S fuel =>
      match records s !! i with
      | None => Some s
      | Some (_, value) =>
          match value !! j with
          | None => plus_self fuel (S i) 0 s
          | Some line => plus_self fuel i (S j) (plus_line s line)
          end
      end
  end.
End Methods.

(** [get(id)]: the lines of every pair that includes [id]. *)
Definition get (s : t) (id : string) : list PSQData :=
  if has s id then concat (ReversibleKeyMap.getAllFrom (records s) id) else [].

(** [getByIndex(i)], [undefined] out of range. *)
Definition getByIndex (s : t) (i : nat) : option PSQData := lines s !! i.

(** [*couples()]: what the generator yields when run to its end. *)
Definition couples (s : t) : list (string * string * list PSQData) :=
  map (fun e => (e.1.1, e.1.2, e.2)) (records s).

Section Views.
Context `{JsBuiltins}.
Variable equal : PSQData -> PSQData -> bool.
(** The [uniprotPair] getter of [PSQData], [undefined] when the line has no
    such pair. *)
Variable uniprotPair : PSQData -> option (string * string).
(** [new PSQData(line, keep_raw)]: the constructor of [PSICQuicData.ts],
    which returns the record of the line or throws. *)
Context {E : Type}.
Variable PSQData_new : string -> bool -> outcome E PSQData.

(** The two branches on one identifier in the loop of
    [getAllPartnersPairs]. When [id1 in couples] holds by inheritance alone,
    [couples[id1]] is a member of [Object.prototype], none of which has an
    [add] method: the call throws. *)
Definition add_partner (couples : gmap string (list string)) (id1 id2 : string)
  : completion (gmap string (list string)) :=
  match couples !! id1 with
  | Some partners => Normal (<[id1 := Set_add partners id2]> couples)
  | None =>
      if bool_decide (is_Some (Object_prototype id1)) then Throw TypeError
      else Normal (<[id1 := [id2]]> couples)
  end.

(** [getAllPartnersPairs()]: the object it returns, each set turned into
    the array of its elements. *)
Fixpoint partners_loop (entries : ReversibleKeyMap.t (list PSQData))
    (couples : gmap string (list string)) : completion (gmap string (list string)) :=
  match entries with
  | [] => Normal couples
  | (keys, _) :: rest =>
      match add_partner couples keys.1 keys.2 with
      | Throw e => Throw e
      | Normal couples =>
          match add_partner couples keys.2 keys.1 with
          | Throw e => Throw e
          | Normal couples => partners_loop rest couples
          end
      end
  end.

Definition getAllPartnersPairs (s : t) : completion (gmap string (list string)) :=
  partners_loop (records s) ∅.

(** [parseLine(line, added)]: what the call returns to its caller (the
    array [added] as it then is, when one is given) or what it throws, and
    the store after the call. The constructor is called before [added] and
    the store are written, so a throw leaves both as they were. [keep_raw]
    is the field of the instance. *)
Definition parseLine (keep_raw : bool) (line : string) (added : option (list PSQData))
    (s : t) : outcome E (option (list PSQData)) * t :=
  if Nat.eqb (String.length line) 0 || startsWith_hash line then (Returned added, s)
  else
    match PSQData_new line keep_raw with
    | Thrown e => (Thrown e, s)
    | Returned d => (Returned ((fun a => a ++ [d]) <$> added), update equal s d)
    end.

(** [for (const line of str) this.parseLine(line, added_psq)]: a throw ends
    the loop, and the store keeps what the lines before it wrote. *)
Fixpoint readLines_loop (keep_raw : bool) (str : list string) (added_psq : list PSQData)
    (s : t) : outcome E (list PSQData) * t :=
  match str with
  | [] => (Returned added_psq, s)
  | line :: str =>
      match parseLine keep_raw line (Some added_psq) s with
      | (Thrown e, s) => (Thrown e, s)
      | (Returned added, s) => readLines_loop keep_raw str (default added_psq added) s
      end
  end.

(** [readLines(str)]: the returned [added_psq], or what the call throws,
    and the store after the call. *)
Definition readLines (keep_raw : bool) (str : string + list string) (s : t)
  : outcome E (list PSQData) * t :=
  let str := match str with inl text => split_newline text | inr lines => lines end in
  readLines_loop keep_raw str [] s.

(** Modelled from the spec: [setIntersection] of [helpers.ts] is not part
    of the sources; [setIntersection(up, buffer).size] is not zero when one
    of the two identifiers of the pair is in [buffer]. *)
Definition intersects (up : string * string) (buffer : list string) : bool :=
  Set_has buffer up.1 || Set_has buffer up.2.

(** [filter(uniprot, predicate)] *)
Definition filter (uniprot : list string) (predicate : option (PSQData -> bool)) (s : t) : t :=
  let target := new in
  let target :=
    if Nat.eqb (List.length uniprot) 0 then target
    else
      fold_left (fun target data =>
                   match uniprotPair data with
                   | None => target
                   | Some up =>
                       if intersects up uniprot then update equal target data else target
                   end)
                (lines s) target in
  match predicate with
  | Some predicate =>
      fold_left (fun target data =>
                   if predicate data then update equal target data else target)
                (lines s) target
  | None => target
  end.
End Views.

End PSICQuic.

(** ** A runtime for the closed examples

    [parseInt] and [Number] agree on a string of decimal digits (an integer
    below 2^53), which both read as that integer, and on text with no leading
    digit such as [abc], which both read as NaN; on the empty string
    [parseInt] gives NaN and [Number] gives 0. The examples below use no
    other input. *)

Definition digit_of (c : ascii) : option Z :=
  let n := Z.of_nat (nat_of_ascii c) in
  if ((48 <=? n) && (n <=? 57))%Z then Some (n - 48)%Z else None.

Fixpoint digits_value (acc : Z) (s : string) : option Z :=
  match s with
  | EmptyString => Some acc
  | String c rest =>
      match digit_of c with
      | Some d => digits_value (10 * acc + d)%Z rest
      | None => None
      end
  end.

Definition float_of_Z (z : Z) : float := PrimFloat.of_uint63 (Uint63.of_Z z).

Definition example_parseInt (s : string) : float :=
  match s with
  | EmptyString => nan
  | _ => from_option float_of_Z nan (digits_value 0 s)
  end.

Definition example_Number (s : string) : float :=
  match s with
  | EmptyString => 0%float
  | _ => from_option float_of_Z nan (digits_value 0 s)
  end.

Definition lower_ascii (c : ascii) : ascii :=
  let n := nat_of_ascii c in
  if (65 <=? n)%nat && (n <=? 90)%nat then ascii_of_nat (n + 32) else c.

Fixpoint example_toLowerCase (s : string) : string :=
  match s with
  | EmptyString => EmptyString
  | String c rest => String (lower_ascii c) (example_toLowerCase rest)
  end.

Definition double_quote : string := String (ascii_of_nat 34) EmptyString.

Fixpoint example_stringify (j : json) : string :=
  match j with
  | JNull => "null"
  | JBool b => if b then "true" else "false"
  | JString s => double_quote +:+ s +:+ double_quote
  | JArray items =>
      "[" +:+ String.concat "," (map example_stringify items) +:+ "]"
  | JObject members =>
      "{" +:+ String.concat ","
                (map (fun m => double_quote +:+ m.1 +:+ double_quote +:+ ":"
                               +:+ example_stringify m.2) members)
      +:+ "}"
  end.

Definition example_prototype (key : string) : option string :=
  if String.eqb key "constructor" then Some "function Object() { [native code] }"
  else if String.eqb key "toString" then Some "function toString() { [native code] }"
  else if String.eqb key "valueOf" then Some "function valueOf() { [native code] }"
  else if String.eqb key "hasOwnProperty" then Some "function hasOwnProperty() { [native code] }"
  else if String.eqb key "__proto__" then Some "[object Object]"
  else None.

(** The text of a number, for the integers; the examples print no other
    finite value. *)
Definition example_numToString (x : float) : string :=
  match Prim2SF x with
  | S754_zero _ => "0"
  | S754_infinity s => if s then "-Infinity" else "Infinity"
  | S754_nan => "NaN"
  | S754_finite s m e =>
      (if s then "-" else "")
      +:+ (if (0 <=? e)%Z then pretty (Z.pos m * 2 ^ e)%Z
           else pretty (Z.pos m / 2 ^ (- e))%Z)
  end.

Definition example_runtime : JsBuiltins :=
  Build_JsBuiltins example_parseInt example_Number example_numToString
                   example_toLowerCase example_stringify example_prototype.

(** Content equality of two parsed lines, for the examples. *)
Definition example_equal (a b : PSQData) : bool :=
  bool_decide (ids a = ids b) && String.eqb (pmid a) (pmid b)
  && String.eqb (source a) (source b)
  && String.eqb (interactionDetectionMethod a) (interactionDetectionMethod b)
  && bool_decide (taxid a = taxid b).

(** The JSON form of a parsed line, for the examples. *)
Definition example_PSQData_json (d : PSQData) : json :=
  JObject [("ids", JArray [JString (ids d).1; JString (ids d).2]);
           ("pmid", JString (pmid d));
           ("source", JString (source d))].

(** Three MI Tab lines: A-B from IntAct, and A-C and A-B from MINT, all
    reporting the publication [pubmed:1]. *)
(** A stand-in for the parser of a line, for the examples: a line of one
    character is the name of a protein that interacts with [A], and the
    constructor throws on a longer line. *)
Definition example_PSQData_new (line : string) (keep_raw : bool)
  : outcome js_error PSQData :=
  if Nat.ltb (String.length line) 2 then
    Returned (mkPSQData ("A", line) "pubmed:1" "IntAct" "MI:0018" ["9606"])
  else Thrown TypeError.

Definition line_ab : PSQData :=
  mkPSQData ("A", "B") "pubmed:1" "IntAct" "MI:0018" ["9606"].
Definition line_ac : PSQData :=
  mkPSQData ("A", "C") "pubmed:1" "MINT" "MI:0018" ["9606"].
Definition line_ab_mint : PSQData :=
  mkPSQData ("A", "B") "pubmed:1" "MINT" "MI:0096" ["9606"].

(** A homology row of length 50 on a query of length 100, with 40 similar
    and 45 identical residues and an e-value of 0: similarity 80, identity
    90, coverage 50. *)
Definition good_row : HVector :=
  ["P12345"; "100"; "1"; "50"; "0"; "0"; "0"; "40"; "45"; "0"].

(** The same row with a similarity count that is not a number. *)
Definition nan_row : HVector :=
  ["P12345"; "100"; "1"; "50"; "0"; "0"; "0"; "abc"; "45"; "0"].

(** The same row with an e-value that is not a number. *)
Definition nan_evalue_row : HVector :=
  ["P12345"; "100"; "1"; "50"; "0"; "0"; "0"; "40"; "45"; "n/a"].

(** ** Notions used in the statements *)

(** The validity flags, low and high, a call of [trim] leaves; [None] when
    the call throws. *)
Definition flags_after
    (r : completion (HoParameterSet.t * list (TrimFailReason * TrimFailReason)))
  : option (list bool * list bool) :=
  match r with
  | Normal (s, _) =>
      Some (map HoParameter.valid (HoParameterSet.lowQueryParam s),
            map HoParameter.valid (HoParameterSet.highQueryParam s))
  | Throw _ => None
  end.

(** One of the four derived values of a record is NaN. *)
Definition derives_nan `{JsBuiltins} (h : HoParameter.t) : bool :=
  is_nan (HoParameter.simPct h) || is_nan (HoParameter.idPct h)
  || is_nan (HoParameter.cvPct h) || is_nan (HoParameter.eValue h).

(** The three sequences of a set have one length. *)
Definition parallel (s : HoParameterSet.t) : Prop :=
  length (HoParameterSet.lowQueryParam s) = length (HoParameterSet.highQueryParam s)
  /\ length (HoParameterSet.highQueryParam s) = length (HoParameterSet.mitabCouples s).

(** Every position the loop of [trim] visits has an evidence group. *)
Definition covered (s : HoParameterSet.t) : Prop :=
  length (HoParameterSet.lowQueryParam s) `min` length (HoParameterSet.highQueryParam s)
  <= length (HoParameterSet.mitabCouples s).

(** The number of positions the loop of [trim] visits. *)
Definition positions (s : HoParameterSet.t) : nat :=
  length (HoParameterSet.lowQueryParam s) `min` length (HoParameterSet.highQueryParam s).

(** The content key of a position. *)
Definition row_hash (lo hi : HoParameter.t) : string :=
  join_empty (HoParameter.data lo) +:+ "~" +:+ join_empty (HoParameter.data hi).

(** The content key of position [i] of two zipped sequences, when both have
    an element there. *)
Definition hash_of (lows highs : list HoParameter.t) (i : nat) : option string :=
  match lows !! i, highs !! i with
  | Some lo, Some hi => Some (row_hash lo hi)
  | _, _ => None
  end.

(** The content key of position [i] of a set. *)
Definition hash_at (s : HoParameterSet.t) (i : nat) : option string :=
  hash_of (HoParameterSet.lowQueryParam s) (HoParameterSet.highQueryParam s) i.

(** The elements of [l] whose index is not in [marked], in their order. *)
Definition rows_kept {A : Type} (marked : list nat) (l : list A) : list A :=
  map snd (List.filter (fun p => negb (includes marked (fst p)))
                       (zip (seq 0 (length l)) l)).

Definition no_reason : TrimFailReason := mkReason None None None None.

(** The reason of a similarity of 80 under a threshold of 85. *)
Definition similarity_80_85 : TrimFailReason :=
  mkReason None (Some "80, expected higher than 85") None None.

(** A record passes the four thresholds. *)
Definition passes `{JsBuiltins} (o : TrimOptions) (h : HoParameter.t) : bool :=
  js_ge (HoParameter.simPct h) (opt_simPct o)
  && js_ge (HoParameter.idPct h) (opt_idPct o)
  && js_ge (HoParameter.cvPct h) (opt_cvPct o)
  && js_le (HoParameter.eValue h) (opt_eValue o).

(** No threshold comparison of the record has a NaN operand. *)
Definition comparable `{JsBuiltins} (o : TrimOptions) (h : HoParameter.t) : bool :=
  negb (is_nan (HoParameter.simPct h) || is_nan (opt_simPct o)
        || is_nan (HoParameter.idPct h) || is_nan (opt_idPct o)
        || is_nan (HoParameter.cvPct h) || is_nan (opt_cvPct o)
        || is_nan (HoParameter.eValue h) || is_nan (opt_eValue o)).

(** The locals of [trim] after one iteration that did not throw, from what
    the iteration found: whether the position ended invalid, its content
    key, and its pair of reasons. *)
Definition locals_after (o : TrimOptions) (index : nat) (invalid : bool)
    (hash : string) (pair : TrimFailReason * TrimFailReason) (st : TrimLocals)
  : TrimLocals :=
  mkLocals
    (if logged o then reasons st ++ [pair] else reasons st)
    (to_remove st ++ (if invalid then [index] else [])
       ++ (if destroy_identical o && Set_has (hashes st) hash then [index] else []))
    (if destroy_identical o && negb (Set_has (hashes st) hash)
     then hashes st ++ [hash] else hashes st).

(** The validity flags of a sequence of records. *)
Definition flags (l : list HoParameter.t) : list bool := map HoParameter.valid l.

(** The serialized evidence the specification asks of a snapshot: for each
    valid low row, in order, that has an evidence group at its index, the
    data of the valid lines of that group. *)
Definition retained_evidence (s : HoParameterSet.t) : list (list PSQData) :=
  omap (fun p : nat * HoParameter.t =>
          if HoParameter.valid p.2 then
            (fun group => map MitabParameter.data (List.filter MitabParameter.valid group))
              <$> HoParameterSet.mitabCouples s !! p.1
          else None)
       (zip (seq 0 (length (HoParameterSet.lowQueryParam s)))
            (HoParameterSet.lowQueryParam s)).

(** Two recorded keys are the same unordered pair. *)
Definition same_pair (k k' : string * string) : bool :=
  ReversibleKeyMap.key_match k k'.1 k'.2.

(** A map of records is well keyed: no two entries have the same unordered
    pair, and every line is filed under the pair of its own identifiers.
    The empty map is, and [update] keeps a map so. *)
Fixpoint well_keyed (r : ReversibleKeyMap.t (list PSQData)) : Prop :=
  match r with
  | [] => True
  | (k, v) :: rest =>
      Forall (fun line => same_pair k (ids line) = true) v
      /\ Forall (fun e => same_pair k e.1 = false) rest
      /\ well_keyed rest
  end.

(** [checkPsqData] would reject the line: its publication id is known to
    the store under another source. *)
Definition conflict `{JsBuiltins} (s : PSICQuic.t) (line : PSQData) : bool :=
  PSICQuic.js_in (pmid line) (PSICQuic.registredPublications s)
  && negb (bool_decide (PSICQuic.js_read (PSICQuic.registredPublications s) (pmid line)
                        = Some (toLowerCase (source line)))).

(** The sequence of the pair of [line] holds an entry equal to it. *)
Definition has_equal (equal : PSQData -> PSQData -> bool) (s : PSICQuic.t)
    (line : PSQData) : bool :=
  existsb (fun l => equal l line) (PSICQuic.getLines s (ids line).1 (ids line).2).

(** Merging [line] again changes nothing: its publication id is known, and
    either under another source or with an equal entry already stored. *)
Definition settled `{JsBuiltins} (equal : PSQData -> PSQData -> bool) (s : PSICQuic.t)
    (line : PSQData) : Prop :=
  PSICQuic.js_in (pmid line) (PSICQuic.registredPublications s) = true
  /\ (conflict s line = true \/ has_equal equal s line = true).

(** The iterations the loops of [plus_self] still run from entry [i] (the
    first of [r]) and line [j], when the records do not change. *)
Fixpoint steps_left (r : ReversibleKeyMap.t (list PSQData)) (j : nat) : nat :=
  match r with
  | [] => 1
  | (_, v) :: rest => S (length v - j + steps_left rest 0)
  end.

(** One of the four tests of the [logged] branch holds of the record: a
    percentage is [<] its minimum or the e-value is [>] its maximum. *)
Definition refused `{JsBuiltins} (o : TrimOptions) (h : HoParameter.t) : bool :=
  js_lt (HoParameter.simPct h) (opt_simPct o)
  || js_lt (HoParameter.idPct h) (opt_idPct o)
  || js_lt (HoParameter.cvPct h) (opt_cvPct o)
  || js_gt (HoParameter.eValue h) (opt_eValue o).

(** The flag the threshold block of [trim] leaves on a record. *)
Definition threshold_ok `{JsBuiltins} (o : TrimOptions) (h : HoParameter.t) : bool :=
  if logged o then HoParameter.valid (HoParameterSet.check_logged o h).1
  else passes o h.

(** A method or a taxon filter is given. *)
Definition has_filters (o : TrimOptions) : bool :=
  bool_decide (is_Some (exp_methods o)) || bool_decide (is_Some (taxons o)).

(** An evidence line satisfies the filters that are given: its detection
    method is in [exp_methods], and its taxon ids match [taxons]. *)
Definition line_ok (mode : nat) (o : TrimOptions) (d : PSQData) : bool :=
  match exp_methods o with
  | Some methods => Set_has methods (interactionDetectionMethod d)
  | None => true
  end
  && match taxons o with
     | Some tx => HoParameterSet.taxon_match mode tx d
     | None => true
     end.

(** A position is kept valid: both records pass the thresholds and, under
    a filter, one line of its evidence group satisfies the filters. *)
Definition position_ok `{JsBuiltins} (mode : nat) (o : TrimOptions)
    (lo hi : HoParameter.t) (group : list MitabParameter.t) : bool :=
  threshold_ok o lo && threshold_ok o hi
  && (negb (has_filters o)
      || existsb (fun l => line_ok mode o (MitabParameter.data l)) group).

(** No entry of a sequence is equal to a later one. *)
Definition distinct_entries (equal : PSQData -> PSQData -> bool) (v : list PSQData) : Prop :=
  forall i j a b, i < j -> v !! i = Some a -> v !! j = Some b -> equal a b = false.

(** Every sequence of the map is free of equal entries. *)
Definition deduplicated (equal : PSQData -> PSQData -> bool)
    (r : ReversibleKeyMap.t (list PSQData)) : Prop :=
  Forall (fun e => distinct_entries equal e.2) r.

(** The stores the methods build: a new store, and what [update],
    [checkPsqData], [plus] (of any other store) and [clear] make of a store
    built so. *)
Inductive built `{JsBuiltins} (equal : PSQData -> PSQData -> bool) : PSICQuic.t -> Prop :=
  | built_new : built equal PSICQuic.new
  | built_update s psq : built equal s -> built equal (PSICQuic.update equal s psq)
  | built_check s line : built equal s -> built equal (PSICQuic.checkPsqData s line).1
  | built_plus s other : built equal s -> built equal (PSICQuic.plus equal s other)
  | built_clear s : built equal s -> built equal (PSICQuic.clear s).

(** [filter] selects the record: a subset of identifiers is given and meets
    the pair of the record, or a predicate is given and holds of it. *)
Definition selected (uniprotPair : PSQData -> option (string * string))
    (uniprot : list string) (predicate : option (PSQData -> bool)) (l : PSQData) : bool :=
  (negb (Nat.eqb (length uniprot) 0)
   && match uniprotPair l with
      | Some up => PSICQuic.intersects up uniprot
      | None => false
      end)
  || match predicate with
     | Some predicate => predicate l
     | None => false
     end.

(** An identifier names no member of [Object.prototype]. *)
Definition plain_key `{JsBuiltins} (id : string) : Prop := Object_prototype id = None.

(** The object of partners is sound: its own keys are plain, and no set
    lists a partner twice. *)
Definition partners_sound `{JsBuiltins} (m : gmap string (list string)) : Prop :=
  forall a l, m !! a = Some l -> plain_key a /\ NoDup l.

(** A line of text is read as a record: it is not empty and is no comment. *)
Definition data_line (line : string) : bool :=
  negb (Nat.eqb (String.length line) 0 || startsWith_hash line).

(** ** Sets and options of the closed examples *)

(** One position, built by [add], both sides passing the default thresholds. *)
Definition one_good_row : HoParameterSet.t :=
  HoParameterSet.add good_row good_row HoParameterSet.new.

(** One position whose low side has a similarity that is NaN. *)
Definition one_nan_row : HoParameterSet.t :=
  HoParameterSet.add nan_row good_row HoParameterSet.new.

(** Three positions: two identical ones, then one with a NaN similarity. *)
Definition three_rows : HoParameterSet.t :=
  HoParameterSet.add nan_row good_row
    (HoParameterSet.add good_row good_row
       (HoParameterSet.add good_row good_row HoParameterSet.new)).

(** One position whose high side has an e-value that is NaN. *)
Definition one_nan_evalue_row : HoParameterSet.t :=
  HoParameterSet.add good_row nan_evalue_row HoParameterSet.new.

(** What [JSON.parse] gives [from] for a set with one valid position. *)
Definition one_good_row_serialized : HoParameterSet.serialized :=
  HoParameterSet.mkSerialized [HoParameterSet.mkRow good_row true]
                              [HoParameterSet.mkRow good_row true] true.

(** What [JSON.parse] gives [from] for a set with two positions, the first
    one with a NaN similarity on its low side. *)
Definition nan_then_good_serialized : HoParameterSet.serialized :=
  HoParameterSet.mkSerialized
    [HoParameterSet.mkRow nan_row true; HoParameterSet.mkRow good_row true]
    [HoParameterSet.mkRow good_row true; HoParameterSet.mkRow good_row true] true.

(** [{ exp_methods: new Set(["MI:0018"]) }] *)
Definition method_filter : TrimOptions :=
  mkOptions 0%float 0%float 0%float 1%float (Some ["MI:0018"]) None false false false.

(** [{ simPct: 85, logged: true }] *)
Definition logged_similarity_85 : TrimOptions :=
  mkOptions 85%float 0%float 0%float 1%float None None false true false.

(** One valid position with two evidence lines, the second one invalid. *)
Definition one_row_with_evidence (visible : bool) : HoParameterSet.t :=
  HoParameterSet.mk [HoParameter.mk good_row true] [HoParameter.mk good_row true]
                    [[MitabParameter.mk line_ab true; MitabParameter.mk line_ac false]]
                    visible.

(** A store that merged one store holding [line_ab], and a store holding
    [line_ac]. *)
Definition store_ab : PSICQuic.t :=
  @PSICQuic.plus example_runtime example_equal PSICQuic.new
    (@PSICQuic.update example_equal PSICQuic.new line_ab).

Definition store_ac : PSICQuic.t :=
  @PSICQuic.update example_equal PSICQuic.new line_ac.

(** A store holding [line_ac] and [line_ab_mint], under two pairs. *)
Definition store_mint : PSICQuic.t :=
  PSICQuic.update example_equal store_ac line_ab_mint.

(** [{ destroy_identical: true }] *)
Definition identical_filter : TrimOptions :=
  mkOptions 0%float 0%float 0%float 1%float None None false false true.

(** * Proofs *)

(** ** Comparisons of binary64 numbers *)


Lemma SFcompare_antisym (a b : spec_float) :
  SFcompare a b = match SFcompare b a with Some c => Some (CompOpp c) | None => None end.
Proof.
  destruct a as [sa|sa| |sa ma ea], b as [sb|sb| |sb mb eb]; simpl; try reflexivity;
    try (destruct sa; reflexivity); try (destruct sb; reflexivity);
    try (destruct sa, sb; reflexivity).
  destruct sa, sb; simpl; try reflexivity;
    rewrite (Z.compare_antisym ea eb); destruct (ea ?= eb)%Z; simpl; try reflexivity;
    repeat f_equal; symmetry; exact (Pos.compare_cont_antisym mb ma Eq).
Qed.

Lemma SFcompare_refl_nan (a : spec_float) :
  SFcompare a a = None -> a = S754_nan.
Proof.
  destruct a as [s|s| |s m e]; simpl; try discriminate; try reflexivity;
    destruct s; try discriminate; rewrite Z.compare_refl; discriminate.
Qed.

Lemma SFcompare_refl (a : spec_float) : SFcompare a a = None \/ SFcompare a a = Some Eq.
Proof.
  destruct a as [s|s| |s m e]; simpl; auto.
  - destruct s; auto.
  - destruct s; rewrite Z.compare_refl; rewrite Pos.compare_cont_refl; auto.
Qed.

Lemma is_nan_Prim2SF (x : float) : is_nan x = true -> Prim2SF x = S754_nan.
Proof.
  unfold is_nan. rewrite FloatAxioms.eqb_spec. unfold SFeqb. intros H.
  apply SFcompare_refl_nan. destruct (SFcompare_refl (Prim2SF x)) as [E|E]; rewrite E in *; [reflexivity|discriminate].
Qed.

Lemma SFcompare_None (a b : spec_float) : SFcompare a b = None -> a = S754_nan \/ b = S754_nan.
Proof.
  destruct a as [sa|sa| |sa ma ea], b as [sb|sb| |sb mb eb]; simpl; auto;
    try discriminate;
    try (destruct sa, sb; try discriminate; destruct (ea ?= eb)%Z; discriminate).
Qed.

Lemma not_nan_Prim2SF (x : float) : is_nan x = false -> Prim2SF x <> S754_nan.
Proof.
  unfold is_nan. rewrite FloatAxioms.eqb_spec. unfold SFeqb. intros H E. rewrite E in H. discriminate.
Qed.

Lemma ltb_nan_l (x y : float) : is_nan x = true -> (x <? y)%float = false.
Proof. intros Hx. rewrite FloatAxioms.ltb_spec, (is_nan_Prim2SF x Hx). reflexivity. Qed.

Lemma ltb_nan_r (x y : float) : is_nan y = true -> (x <? y)%float = false.
Proof. intros Hx. rewrite FloatAxioms.ltb_spec, (is_nan_Prim2SF y Hx). unfold SFltb. destruct (Prim2SF x); reflexivity. Qed.

Lemma leb_nan_l (x y : float) : is_nan x = true -> (x <=? y)%float = false.
Proof. intros Hx. rewrite FloatAxioms.leb_spec, (is_nan_Prim2SF x Hx). reflexivity. Qed.

Lemma leb_nan_r (x y : float) : is_nan y = true -> (x <=? y)%float = false.
Proof. intros Hx. rewrite FloatAxioms.leb_spec, (is_nan_Prim2SF y Hx). unfold SFleb. destruct (Prim2SF x); reflexivity. Qed.

Lemma leb_true_ltb_false (a b : float) : (b <=? a)%float = true -> (a <? b)%float = false.
Proof.
  rewrite FloatAxioms.leb_spec, FloatAxioms.ltb_spec. unfold SFleb, SFltb.
  rewrite (SFcompare_antisym (Prim2SF a) (Prim2SF b)).
  destruct (SFcompare (Prim2SF b) (Prim2SF a)) as [[]|]; simpl; congruence.
Qed.

Lemma negb_ltb_leb (a b : float) :
  is_nan a = false -> is_nan b = false -> negb (a <? b)%float = (b <=? a)%float.
Proof.
  intros Ha Hb. rewrite FloatAxioms.leb_spec, FloatAxioms.ltb_spec. unfold SFleb, SFltb.
  rewrite (SFcompare_antisym (Prim2SF a) (Prim2SF b)).
  destruct (SFcompare (Prim2SF b) (Prim2SF a)) as [[]|] eqn:E; simpl; try reflexivity.
  apply SFcompare_None in E. destruct E as [E|E]; [apply not_nan_Prim2SF in Hb | apply not_nan_Prim2SF in Ha]; contradiction.
Qed.

(** ** One iteration of the loop of [trim] *)

Section TrimRow.
Context `{JsBuiltins}.

Lemma check_logged_data o h : HoParameter.data (HoParameterSet.check_logged o h).1 = HoParameter.data h.
Proof.
  unfold HoParameterSet.check_logged.
  repeat (destruct (js_lt _ _) || destruct (js_gt _ _)); reflexivity.
Qed.

Lemma check_silent_data o h : HoParameter.data (HoParameterSet.check_silent o h) = HoParameter.data h.
Proof. reflexivity. Qed.

Lemma check_silent_valid o h : HoParameter.valid (HoParameterSet.check_silent o h) = passes o h.
Proof. reflexivity. Qed.

(** The flag the [logged] branch leaves: no [<] or [>] comparison held. *)
Lemma check_logged_valid o h :
  HoParameter.valid (HoParameterSet.check_logged o h).1
  = negb (js_lt (HoParameter.simPct h) (opt_simPct o))
    && negb (js_lt (HoParameter.idPct h) (opt_idPct o))
    && negb (js_lt (HoParameter.cvPct h) (opt_cvPct o))
    && negb (js_gt (HoParameter.eValue h) (opt_eValue o)).
Proof.
  unfold HoParameterSet.check_logged, HoParameter.simPct, HoParameter.idPct,
    HoParameter.cvPct, HoParameter.eValue, HoParameter.length. simpl.
  repeat (destruct (js_lt _ _) || destruct (js_gt _ _)); reflexivity.
Qed.

Lemma row_filters_Normal mode o lo hi mc lo' hi' mc' :
  HoParameterSet.row_filters mode o lo hi mc = Normal (lo', hi', mc') ->
  HoParameter.data lo' = HoParameter.data lo
  /\ HoParameter.data hi' = HoParameter.data hi
  /\ (is_Some mc' <-> is_Some mc).
Proof.
  unfold HoParameterSet.row_filters.
  destruct (_ && _ && _); [destruct mc|]; intros E; inversion E; subst; simpl;
    repeat split; auto; intros _; eauto.
Qed.

(** A position that has an evidence group cannot throw, nor can a call
    without method and taxon filters. *)
Lemma row_filters_returns mode o lo hi mc :
  is_Some mc \/ (exp_methods o = None /\ taxons o = None) ->
  exists r, HoParameterSet.row_filters mode o lo hi mc = Normal r.
Proof.
  unfold HoParameterSet.row_filters. intros [[m ->]|[-> ->]]; simpl.
  - destruct (_ && _ && _); eauto.
  - eauto.
Qed.

Lemma is_Some_option_map {A B : Type} (f : A -> B) (x : option A) :
  is_Some (option_map f x) <-> is_Some x.
Proof. destruct x; simpl; split; eauto; intros [? ?]; discriminate. Qed.

Lemma row_reset_is_Some o mc : is_Some (HoParameterSet.row_reset o mc) <-> is_Some mc.
Proof.
  unfold HoParameterSet.row_reset. destruct (negb _), mc; simpl; split; eauto;
    intros [? ?]; discriminate.
Qed.

(** What one iteration that returns leaves in the locals and in the two
    records of its position. *)
Lemma trim_row_Normal mode o index lo hi mc st lo' hi' mc' st' :
  HoParameterSet.trim_row mode o index lo hi mc st = Normal (lo', hi', mc', st') ->
  st' = locals_after o index (negb (HoParameter.valid lo')) (row_hash lo hi)
          ((HoParameterSet.check_logged o lo).2, (HoParameterSet.check_logged o hi).2) st
  /\ HoParameter.data lo' = HoParameter.data lo
  /\ HoParameter.data hi' = HoParameter.data hi
  /\ HoParameter.valid hi' = HoParameter.valid lo'
  /\ (is_Some mc' <-> is_Some mc).
Proof.
  unfold HoParameterSet.trim_row, HoParameterSet.row_thresholds.
  pose proof (check_logged_data o lo) as Dl. pose proof (check_logged_data o hi) as Dh.
  destruct (HoParameterSet.check_logged o lo) as [l1 r1].
  destruct (HoParameterSet.check_logged o hi) as [h1 r1'].
  simpl in Dl, Dh.
  set (T := if logged o then _ else _).
  assert (ET : exists l2 h2, T = (l2, h2, if logged o then reasons st ++ [(r1, r1')] else reasons st)
            /\ HoParameter.data l2 = HoParameter.data lo
            /\ HoParameter.data h2 = HoParameter.data hi).
  { subst T. destruct (logged o); eauto 6. }
  destruct ET as (l2 & h2 & -> & Dl2 & Dh2). clear Dl Dh.
  destruct (HoParameterSet.row_filters mode o l2 h2 (HoParameterSet.row_reset o mc))
    as [[[l3 h3] mc3]|e] eqn:EF; [|discriminate].
  apply row_filters_Normal in EF. destruct EF as (Dl3 & Dh3 & Smc).
  rewrite row_reset_is_Some in Smc.
  unfold HoParameterSet.row_invalidate, HoParameterSet.row_identical, locals_after, row_hash.
  destruct l3 as [d3 v3], h3 as [e3 w3]. simpl in *.
  destruct v3, w3; simpl; destruct (destroy_identical o); simpl;
    try destruct (Set_has (hashes st) _) eqn:EH; simpl;
    intros E; inversion E; subst; clear E; simpl;
    rewrite ?Dl2, ?Dh2 in *; rewrite ?EH; simpl; rewrite ?app_nil_r, <- ?app_assoc;
    rewrite ?is_Some_option_map;
    repeat split; auto; try congruence; apply Smc.
Qed.

Lemma trim_row_returns mode o index lo hi mc st :
  is_Some mc \/ (exp_methods o = None /\ taxons o = None) ->
  exists r, HoParameterSet.trim_row mode o index lo hi mc st = Normal r.
Proof.
  intros Hc. unfold HoParameterSet.trim_row.
  destruct (HoParameterSet.row_thresholds o lo hi (reasons st)) as [[l2 h2] rs].
  destruct (row_filters_returns mode o l2 h2 (HoParameterSet.row_reset o mc)) as [[[l3 h3] m3] ->].
  { rewrite row_reset_is_Some. exact Hc. }
  destruct (HoParameterSet.row_invalidate _ _ _ _ _) as [[[? ?] ?] ?].
  destruct (HoParameterSet.row_identical _ _ _ _ _ _). eauto.
Qed.

End TrimRow.

(** ** The loop of [trim] *)

Section TrimLoop.
Context `{JsBuiltins}.

Lemma Set_has_elem_of (l : list string) (x : string) : Set_has l x = true <-> x ∈ l.
Proof.
  unfold Set_has. rewrite existsb_exists. split.
  - intros (y & Hy & E). apply String.eqb_eq in E. subst. by apply list_elem_of_In.
  - intros Hx. exists x. split; [by apply list_elem_of_In | apply String.eqb_refl].
Qed.

Lemma includes_elem_of (l : list nat) (i : nat) : includes l i = true <-> i ∈ l.
Proof.
  unfold includes. rewrite existsb_exists. split.
  - intros (y & Hy & E). apply Nat.eqb_eq in E. subst. by apply list_elem_of_In.
  - intros Hx. exists i. split; [by apply list_elem_of_In | apply Nat.eqb_refl].
Qed.

(** The loop changes no length and no field vector. *)
Lemma trim_loop_shape mode o index lows highs mcs st ls hs ms st' :
  HoParameterSet.trim_loop mode o index lows highs mcs st = Normal (ls, hs, ms, st') ->
  length ls = length lows /\ length hs = length highs /\ length ms = length mcs
  /\ map HoParameter.data ls = map HoParameter.data lows
  /\ map HoParameter.data hs = map HoParameter.data highs.
Proof.
  revert index highs mcs st ls hs ms st'.
  induction lows as [|lo lows IH]; intros index highs mcs st ls hs ms st'; simpl.
  { intros E. inversion E. subst. auto. }
  destruct highs as [|hi highs].
  { intros E. inversion E. subst. auto. }
  destruct (HoParameterSet.trim_row mode o index lo hi (head mcs) st)
    as [[[[lo' hi'] mc'] st1]|e] eqn:ER; [|discriminate].
  destruct (HoParameterSet.trim_loop mode o (S index) lows highs (tail mcs) st1)
    as [[[[ls1 hs1] ms1] st2]|e] eqn:EL; [|discriminate].
  intros E. inversion E. subst. clear E.
  apply trim_row_Normal in ER. destruct ER as (_ & Dl & Dh & _ & Smc).
  apply IH in EL. destruct EL as (L1 & L2 & L3 & D1 & D2).
  simpl. rewrite L1, L2, Dl, Dh, D1, D2. repeat split; auto.
  destruct mcs as [|m mcs]; simpl in *.
  - destruct mc'; [|assumption]. destruct Smc as [S1 _]. destruct S1; eauto. discriminate.
  - destruct mc'; simpl; [lia|]. destruct Smc as [_ S2]. destruct S2; eauto. discriminate.
Qed.

(** The loop returns when every visited position has an evidence group,
    and when the call has no method and no taxon filter. *)
Lemma trim_loop_returns mode o index lows highs mcs st :
  length lows `min` length highs <= length mcs
  \/ (exp_methods o = None /\ taxons o = None) ->
  exists r, HoParameterSet.trim_loop mode o index lows highs mcs st = Normal r.
Proof.
  revert index highs mcs st.
  induction lows as [|lo lows IH]; intros index highs mcs st Hc; simpl; eauto.
  destruct highs as [|hi highs]; eauto.
  destruct (trim_row_returns mode o index lo hi (head mcs) st) as [[[[lo' hi'] mc'] st1] ->].
  { destruct Hc as [Hc|Hc]; [left|right; exact Hc].
    destruct mcs; simpl in *; [lia|eauto]. }
  destruct (IH (S index) highs (tail mcs) st1) as [[[[ls1 hs1] ms1] st2] ->]; eauto.
  destruct Hc as [Hc|Hc]; [left|right; exact Hc].
  destruct mcs; simpl in *; lia.
Qed.

(** The reasons pushed by the loop: one pair per visited position, in
    order, when [logged]; none otherwise. *)
Lemma trim_loop_reasons mode o index lows highs mcs st ls hs ms st' :
  HoParameterSet.trim_loop mode o index lows highs mcs st = Normal (ls, hs, ms, st') ->
  reasons st' =
  reasons st ++ (if logged o then
                   map (fun p => ((HoParameterSet.check_logged o p.1).2,
                                  (HoParameterSet.check_logged o p.2).2))
                       (zip lows highs)
                 else []).
Proof.
  revert index highs mcs st ls hs ms st'.
  induction lows as [|lo lows IH]; intros index highs mcs st ls hs ms st'; simpl.
  { intros E. inversion E. subst. destruct (logged o); by rewrite app_nil_r. }
  destruct highs as [|hi highs].
  { intros E. inversion E. subst. destruct (logged o); by rewrite app_nil_r. }
  destruct (HoParameterSet.trim_row mode o index lo hi (head mcs) st)
    as [[[[lo' hi'] mc'] st1]|e] eqn:ER; [|discriminate].
  destruct (HoParameterSet.trim_loop mode o (S index) lows highs (tail mcs) st1)
    as [[[[ls1 hs1] ms1] st2]|e] eqn:EL; [|discriminate].
  intros E. inversion E. subst. clear E.
  apply trim_row_Normal in ER. destruct ER as (-> & _).
  apply IH in EL. rewrite EL. unfold locals_after. simpl.
  destruct (logged o); simpl; [by rewrite <- app_assoc | reflexivity].
Qed.
Lemma hash_of_S lo lows hi highs k :
  hash_of (lo :: lows) (hi :: highs) (S k) = hash_of lows highs k.
Proof. reflexivity. Qed.

(** The marks of the loop. A hash is stored when [destroy_identical] is
    set and a visited position has it; an index is pushed to [to_remove]
    when its position ends invalid, or, under [destroy_identical], when
    its hash was stored before the position was visited. *)
Lemma trim_loop_marks mode o index lows highs mcs st ls hs ms st' :
  HoParameterSet.trim_loop mode o index lows highs mcs st = Normal (ls, hs, ms, st') ->
  (forall h, h ∈ hashes st' <->
     h ∈ hashes st
     \/ (destroy_identical o = true /\ exists k, hash_of lows highs k = Some h))
  /\ (forall i, i ∈ to_remove st' <->
       i ∈ to_remove st
       \/ exists k h, i = index + k /\ hash_of lows highs k = Some h
            /\ ((exists lo', ls !! k = Some lo' /\ HoParameter.valid lo' = false)
                \/ (destroy_identical o = true
                    /\ (h ∈ hashes st
                        \/ exists k', k' < k /\ hash_of lows highs k' = Some h)))).
Proof.
  revert index highs mcs st ls hs ms st'.
  induction lows as [|lo lows IH]; intros index highs mcs st ls hs ms st'; simpl.
  { intros E. inversion E. subst. split; intros x; split; auto.
    - intros [?|(_ & k & Hk)]; [done|]. unfold hash_of in Hk. by rewrite lookup_nil in Hk.
    - intros [?|(k & h & _ & Hk & _)]; [done|]. unfold hash_of in Hk. by rewrite lookup_nil in Hk. }
  destruct highs as [|hi highs].
  { intros E. inversion E. subst. split; intros x; split; auto.
    - intros [?|(_ & k & Hk)]; [done|]. unfold hash_of in Hk.
      rewrite (lookup_nil k) in Hk. by destruct (_ !! k).
    - intros [?|(k & h & _ & Hk & _)]; [done|]. unfold hash_of in Hk.
      rewrite (lookup_nil k) in Hk. by destruct (_ !! k). }
  destruct (HoParameterSet.trim_row mode o index lo hi (head mcs) st)
    as [[[[lo' hi'] mc'] st1]|e] eqn:ER; [|discriminate].
  destruct (HoParameterSet.trim_loop mode o (S index) lows highs (tail mcs) st1)
    as [[[[ls1 hs1] ms1] st2]|e] eqn:EL; [|discriminate].
  intros E. inversion E. subst. clear E.
  apply trim_row_Normal in ER. destruct ER as (-> & _).
  apply IH in EL. destruct EL as (IHh & IHr). clear IH.
  assert (Hh1 : forall h, h ∈ hashes (locals_after o index (negb (HoParameter.valid lo'))
                   (row_hash lo hi)
                   ((HoParameterSet.check_logged o lo).2, (HoParameterSet.check_logged o hi).2) st)
                <-> h ∈ hashes st \/ (destroy_identical o = true /\ h = row_hash lo hi)).
  { intros h. unfold locals_after. simpl.
    destruct (destroy_identical o); simpl.
    - destruct (Set_has (hashes st) (row_hash lo hi)) eqn:EH; simpl.
      + apply Set_has_elem_of in EH. split; [auto|]. intros [?|[_ ->]]; done.
      + rewrite elem_of_app, list_elem_of_singleton. naive_solver.
    - naive_solver. }
  assert (Hr1 : forall i, i ∈ to_remove (locals_after o index (negb (HoParameter.valid lo'))
                   (row_hash lo hi)
                   ((HoParameterSet.check_logged o lo).2, (HoParameterSet.check_logged o hi).2) st)
                <-> i ∈ to_remove st
                    \/ (i = index /\ (HoParameter.valid lo' = false
                                     \/ (destroy_identical o = true
                                         /\ row_hash lo hi ∈ hashes st)))).
  { intros i. unfold locals_after. simpl. rewrite !elem_of_app.
    rewrite <- Set_has_elem_of.
    destruct (HoParameter.valid lo'), (destroy_identical o),
      (Set_has (hashes st) (row_hash lo hi)); simpl;
      rewrite ?list_elem_of_singleton, ?elem_of_nil; naive_solver. }
  split.
  - intros h. rewrite IHh, Hh1. split.
    + intros [[?|[D ->]]|(D & k & Hk)]; auto.
      * right. split; [done|]. exists 0. reflexivity.
      * right. split; [done|]. exists (S k). by rewrite hash_of_S.
    + intros [?|(D & k & Hk)]; auto. destruct k as [|k].
      * left. right. split; [done|]. unfold hash_of in Hk. simpl in Hk. congruence.
      * right. split; [done|]. exists k. by rewrite hash_of_S in Hk.
  - intros i. rewrite IHr, Hr1. split.
    + intros [[?|(-> & Hv)]|(k & h & -> & Hk & Hv)]; auto.
      * right. exists 0, (row_hash lo hi). split; [lia|]. split; [reflexivity|].
        destruct Hv as [Hv|(D & Hh)]; [left; exists lo'; done|right; auto].
      * right. exists (S k), h. split; [lia|]. rewrite hash_of_S. split; [done|].
        destruct Hv as [Hv|(D & Hh)]; [left; exact Hv|right]. split; [done|].
        rewrite Hh1 in Hh. destruct Hh as [[?|(_ & ->)]|(k' & Hlt & Hk')]; auto.
        -- right. exists 0. split; [lia|reflexivity].
        -- right. exists (S k'). split; [lia|]. by rewrite hash_of_S.
    + intros [?|(k & h & -> & Hk & Hv)]; auto. destruct k as [|k].
      * left. right. split; [lia|]. unfold hash_of in Hk. simpl in Hk.
        injection Hk as <-.
        destruct Hv as [(l & Hl & Hv)|(D & [Hh|(k' & Hlt & _)])]; simpl in *.
        -- left. congruence.
        -- right. done.
        -- lia.
      * right. exists k, h. split; [lia|]. rewrite hash_of_S in Hk. split; [done|].
        destruct Hv as [Hv|(D & Hh)]; [left; exact Hv|right]. split; [done|].
        rewrite Hh1. destruct Hh as [?|(k' & Hlt & Hk')]; auto.
        destruct k' as [|k'].
        -- left. right. split; [done|]. unfold hash_of in Hk'. simpl in Hk'. congruence.
        -- right. exists k'. split; [lia|]. by rewrite hash_of_S in Hk'.
Qed.

End TrimLoop.

(** ** [trim] and the other methods of the set *)

Section TrimFacts.
Context `{JsBuiltins}.

Lemma filter_index_rows_kept {A : Type} (p : nat -> bool) (index : nat) (l : list A) :
  filter_index p index l
  = map snd (List.filter (fun q => p (fst q)) (zip (seq index (length l)) l)).
Proof.
  revert index. induction l as [|x l IH]; intros index; simpl; [reflexivity|].
  destruct (p index); simpl; by rewrite IH.
Qed.

Lemma filter_index_length {A B : Type} (p : nat -> bool) (index : nat)
    (l1 : list A) (l2 : list B) :
  length l1 = length l2 ->
  length (filter_index p index l1) = length (filter_index p index l2).
Proof.
  revert index l2. induction l1 as [|x l1 IH]; intros index [|y l2] E; simpl in *;
    try discriminate; [reflexivity|].
  destruct (p index); simpl; rewrite (IH (S index) l2); auto.
Qed.

(** The loop does not read [definitive]. *)
Lemma trim_loop_definitive b mode o index lows highs mcs st :
  HoParameterSet.trim_loop mode (with_definitive b o) index lows highs mcs st
  = HoParameterSet.trim_loop mode o index lows highs mcs st.
Proof.
  revert index highs mcs st. induction lows as [|lo lows IH]; intros; simpl; [reflexivity|].
  destruct highs as [|hi highs]; [reflexivity|].
  replace (HoParameterSet.trim_row mode (with_definitive b o) index lo hi (head mcs) st)
    with (HoParameterSet.trim_row mode o index lo hi (head mcs) st) by reflexivity.
  destruct (HoParameterSet.trim_row mode o index lo hi (head mcs) st)
    as [[[[lo' hi'] mc'] st1]|e]; [|reflexivity].
  by rewrite IH.
Qed.

(** [trim] returns on a set whose visited positions all have an evidence
    group, and on any set when no method or taxon filter is given. *)
Lemma trim_returns mode o s :
  covered s \/ (exp_methods o = None /\ taxons o = None) ->
  exists s' rs, HoParameterSet.trim mode o s = Normal (s', rs).
Proof.
  intros Hc. unfold HoParameterSet.trim.
  destruct (trim_loop_returns mode o 0 (HoParameterSet.lowQueryParam s)
              (HoParameterSet.highQueryParam s) (HoParameterSet.mitabCouples s)
              (mkLocals [] [] []) Hc) as [[[[ls hs] ms] st] ->].
  destruct (definitive o); eauto.
Qed.

(** [trim] throws on any set whose first position has no evidence group
    and passes the thresholds, as soon as a method or taxon filter is
    given: [mitab_lines_of] is [undefined] when its [filter] is called. *)
Lemma trim_throws_without_group mode o lo hi lows highs vis :
  logged o = false ->
  is_Some (exp_methods o) \/ is_Some (taxons o) ->
  passes o lo = true -> passes o hi = true ->
  HoParameterSet.trim mode o (HoParameterSet.mk (lo :: lows) (hi :: highs) [] vis)
  = Throw TypeError.
Proof.
  intros L F Pl Ph. unfold HoParameterSet.trim. simpl.
  unfold HoParameterSet.trim_row, HoParameterSet.row_thresholds. rewrite L. simpl.
  unfold HoParameterSet.row_filters. rewrite !check_silent_valid, Pl, Ph.
  assert (E : bool_decide (is_Some (exp_methods o)) || bool_decide (is_Some (taxons o)) = true).
  { destruct F as [F|F]; rewrite (bool_decide_eq_true_2 _ F); [reflexivity|apply orb_true_r]. }
  rewrite E. simpl. unfold HoParameterSet.row_reset. by destruct (negb _).
Qed.

Lemma parallel_covered s : parallel s -> covered s.
Proof. unfold parallel, covered. lia. Qed.

(** [trim] keeps the three sequences parallel, with and without compaction. *)
Lemma trim_parallel mode o s s' rs :
  parallel s -> HoParameterSet.trim mode o s = Normal (s', rs) -> parallel s'.
Proof.
  unfold HoParameterSet.trim, parallel. intros [P1 P2].
  destruct (HoParameterSet.trim_loop _ _ _ _ _ _ _) as [[[[ls hs] ms] st]|e] eqn:EL;
    [|discriminate].
  apply trim_loop_shape in EL. destruct EL as (L1 & L2 & L3 & _).
  destruct (definitive o); intros E; inversion E; subst; simpl.
  - split; apply filter_index_length; lia.
  - lia.
Qed.
End TrimFacts.

(** ** The claims on [HoParameterSet] *)

(** C1, contradicted by the code. The claim: [trim] completes without
    throwing for every set, also one rebuilt by the static [from], and for
    every combination of options. [from] leaves [mitabCouples] empty, so
    [this.mitabCouples[index]] is [undefined] at every position; with a
    method filter and a position that passes the thresholds, [trim] guards
    the two [forEach] calls with [if (mitab_lines_of)] and then calls
    [mitab_lines_of.filter] outside the guard, which throws a [TypeError]. *)
Theorem trim_throws_after_from :
  @HoParameterSet.trim example_runtime TAXON_EVERY method_filter
    (HoParameterSet.from one_good_row_serialized)
  = Throw TypeError.
Proof. vm_compute. reflexivity. Qed.

(** C2 as stated fails: [remove] and [from] do not keep the three sequences
    at one length. After [remove] on a set with one position the two
    homology sequences are empty and [mitabCouples] still has its group;
    after [from] the homology sequences have one row and [mitabCouples] is
    empty. *)
Lemma parallel_lost_by_remove_and_from :
  parallel one_good_row
  /\ ~ parallel (HoParameterSet.remove one_good_row)
  /\ ~ parallel (HoParameterSet.from one_good_row_serialized).
Proof.
  unfold parallel. simpl. repeat split; intros [? ?]; discriminate.
Qed.

(** C2, amended. A new set has its three sequences at one length, and [add]
    and [trim] (with and without compaction) keep them so: on such a set
    [trim] returns, and the set it leaves is parallel again. [remove] and
    [from] keep it only for the two homology sequences: [remove] empties
    both and leaves [mitabCouples] as it was, and [from] gives each the
    length of its serialized array and leaves [mitabCouples] empty. *)
Theorem parallel_sequences `{JsBuiltins} (mode : nat) (o : TrimOptions)
    (s : HoParameterSet.t) (x y : HVector) (obj : HoParameterSet.serialized) :
  parallel s ->
  parallel HoParameterSet.new
  /\ parallel (HoParameterSet.add x y s)
  /\ (exists s' rs, HoParameterSet.trim mode o s = Normal (s', rs) /\ parallel s')
  /\ (HoParameterSet.lowQueryParam (HoParameterSet.remove s) = []
      /\ HoParameterSet.highQueryParam (HoParameterSet.remove s) = []
      /\ HoParameterSet.mitabCouples (HoParameterSet.remove s) = HoParameterSet.mitabCouples s)
  /\ (length (HoParameterSet.lowQueryParam (HoParameterSet.from obj))
        = length (HoParameterSet.ser_lowQueryParam obj)
      /\ length (HoParameterSet.highQueryParam (HoParameterSet.from obj))
          = length (HoParameterSet.ser_highQueryParam obj)
      /\ HoParameterSet.mitabCouples (HoParameterSet.from obj) = []).
Proof.
  intros P. split; [by split|]. split.
  { destruct P as [P1 P2]. unfold parallel, HoParameterSet.add. simpl.
    rewrite !length_app. simpl. lia. }
  split.
  { destruct (trim_returns mode o s (or_introl (parallel_covered s P))) as (s' & rs & E).
    exists s', rs. split; [exact E|]. exact (trim_parallel mode o s s' rs P E). }
  split; [done|]. unfold HoParameterSet.from. simpl. by rewrite !length_map.
Qed.

Lemma parallel_sequences_witness :
  parallel three_rows
  /\ (parallel HoParameterSet.new
      /\ parallel (HoParameterSet.add good_row nan_row three_rows)
      /\ (exists s' rs,
            @HoParameterSet.trim example_runtime TAXON_EVERY
              (with_definitive true identical_filter) three_rows = Normal (s', rs)
            /\ parallel s')
      /\ (HoParameterSet.lowQueryParam (HoParameterSet.remove three_rows) = []
          /\ HoParameterSet.highQueryParam (HoParameterSet.remove three_rows) = []
          /\ HoParameterSet.mitabCouples (HoParameterSet.remove three_rows)
              = HoParameterSet.mitabCouples three_rows)
      /\ (length (HoParameterSet.lowQueryParam (HoParameterSet.from one_good_row_serialized))
            = length (HoParameterSet.ser_lowQueryParam one_good_row_serialized)
          /\ length (HoParameterSet.highQueryParam (HoParameterSet.from one_good_row_serialized))
              = length (HoParameterSet.ser_highQueryParam one_good_row_serialized)
          /\ HoParameterSet.mitabCouples (HoParameterSet.from one_good_row_serialized) = [])).
Proof.
  assert (P : parallel three_rows) by (split; reflexivity).
  split; [exact P|].
  exact (@parallel_sequences example_runtime TAXON_EVERY
           (with_definitive true identical_filter) three_rows good_row nan_row
           one_good_row_serialized P).
Defined.

Section LoggedAndSilent.
Context `{JsBuiltins}.

(** Where no comparison has a NaN operand the two branches of the
    threshold block leave the same record. *)
Lemma check_logged_silent o h :
  comparable o h = true ->
  (HoParameterSet.check_logged o h).1 = HoParameterSet.check_silent o h.
Proof.
  intros C. unfold comparable in C. apply negb_true_iff in C.
  repeat (apply orb_false_iff in C; destruct C as [C ?]).
  pose proof (check_logged_valid o h) as V. pose proof (check_logged_data o h) as D.
  destruct (HoParameterSet.check_logged o h) as [[d v] r]. simpl in *. subst d.
  unfold HoParameterSet.check_silent, HoParameter.set_valid. f_equal. rewrite V.
  unfold js_lt, js_gt, js_ge, js_le.
  rewrite !negb_ltb_leb by assumption. reflexivity.
Qed.

(** A NaN derived value fails the conjunction of the other branch. *)
Lemma passes_nan o h : derives_nan h = true -> passes o h = false.
Proof.
  unfold derives_nan, passes, js_ge, js_le. intros N.
  repeat (apply orb_true_iff in N; destruct N as [N|N]).
  - by rewrite (leb_nan_r _ _ N).
  - rewrite (leb_nan_r _ _ N). by rewrite andb_false_r.
  - rewrite (leb_nan_r _ _ N). by rewrite !andb_false_r.
  - rewrite (leb_nan_l _ _ N). by rewrite !andb_false_r.
Qed.

(** So without [logged], an iteration that returns leaves both records of
    a position with a NaN derived value invalid. *)
Lemma trim_row_silent_nan mode o index lo hi mc st lo' hi' mc' st' :
  logged o = false ->
  derives_nan lo = true \/ derives_nan hi = true ->
  HoParameterSet.trim_row mode o index lo hi mc st = Normal (lo', hi', mc', st') ->
  HoParameter.valid lo' = false /\ HoParameter.valid hi' = false.
Proof.
  intros L N. unfold HoParameterSet.trim_row, HoParameterSet.row_thresholds.
  rewrite L.
  assert (V : HoParameter.valid (HoParameterSet.check_silent o lo)
              && HoParameter.valid (HoParameterSet.check_silent o hi) = false).
  { rewrite !check_silent_valid.
    destruct N as [N|N]; rewrite (passes_nan o _ N); [reflexivity|apply andb_false_r]. }
  unfold HoParameterSet.row_filters.
  rewrite <- andb_assoc, V, andb_false_r.
  unfold HoParameterSet.row_invalidate. rewrite <- negb_andb, V. simpl.
  destruct (HoParameterSet.row_identical _ _ _ _ _ _).
  intros E. inversion E. subst. auto.
Qed.

(** With [logged], a NaN derived value fails no [<] or [>] test: the
    threshold block leaves the record valid. *)
Lemma check_logged_nan o h :
  is_nan (HoParameter.simPct h) = true ->
  is_nan (HoParameter.idPct h) = true ->
  is_nan (HoParameter.cvPct h) = true ->
  is_nan (HoParameter.eValue h) = true ->
  HoParameter.valid (HoParameterSet.check_logged o h).1 = true.
Proof.
  intros N1 N2 N3 N4. rewrite check_logged_valid. unfold js_lt, js_gt.
  by rewrite (ltb_nan_l _ _ N1), (ltb_nan_l _ _ N2), (ltb_nan_l _ _ N3), (ltb_nan_r _ _ N4).
Qed.
End LoggedAndSilent.

(** C3, contradicted by the code. The claim: for identical thresholds,
    [trim] with [logged] false leaves every [valid] flag as [trim] with
    [logged] true does. The [logged] branch invalidates a record when
    [value < threshold] holds and the other branch validates it when
    [value >= threshold] holds; with a NaN similarity neither holds, so the
    one position of the set stays valid under [logged] and is invalid
    without it. *)
Theorem trim_logged_flags_differ :
  flags_after (@HoParameterSet.trim example_runtime TAXON_EVERY
                 (with_logged true default_options) one_nan_row)
  = Some ([true], [true])
  /\ flags_after (@HoParameterSet.trim example_runtime TAXON_EVERY
                    (with_logged false default_options) one_nan_row)
     = Some ([false], [false]).
Proof. split; vm_compute; reflexivity. Qed.

(** C4, contradicted by the code. The claim: a record with a NaN derived
    value fails the threshold and gets [valid] false in both code paths.
    The high record here has a NaN e-value. Without [logged] the position
    is invalidated, as the claim says; with [logged] the test
    [eValue > threshold] is false on NaN and the record keeps [valid] true,
    with no reason recorded. *)
Theorem trim_logged_keeps_nan_valid :
  is_nan (@HoParameter.eValue example_runtime (HoParameter.new nan_evalue_row)) = true
  /\ @HoParameterSet.trim example_runtime TAXON_EVERY
       (with_logged false default_options) one_nan_evalue_row
     = Normal (HoParameterSet.mk [HoParameter.mk good_row false]
                                 [HoParameter.mk nan_evalue_row false] [[]] true, [])
  /\ @HoParameterSet.trim example_runtime TAXON_EVERY
       (with_logged true default_options) one_nan_evalue_row
     = Normal (HoParameterSet.mk [HoParameter.mk good_row true]
                                 [HoParameter.mk nan_evalue_row true] [[]] true,
               [(no_reason, no_reason)]).
Proof. repeat split; vm_compute; reflexivity. Qed.

(** Apart from NaN the two branches agree: on a set whose records all have
    comparable values, [trim] with and without [logged] throws alike or
    leaves the same set. *)
Section LoggedAgreement.
Context `{JsBuiltins}.

Lemma trim_row_logged_agree mode o index lo hi mc st1 st2 :
  comparable o lo = true -> comparable o hi = true ->
  to_remove st1 = to_remove st2 -> hashes st1 = hashes st2 ->
  match HoParameterSet.trim_row mode (with_logged true o) index lo hi mc st1,
        HoParameterSet.trim_row mode (with_logged false o) index lo hi mc st2 with
  | Normal (l1, h1, m1, s1), Normal (l2, h2, m2, s2) =>
      l1 = l2 /\ h1 = h2 /\ m1 = m2
      /\ to_remove s1 = to_remove s2 /\ hashes s1 = hashes s2
  | Throw _, Throw _ => True
  | _, _ => False
  end.
Proof.
  intros Cl Ch Er Eh. unfold HoParameterSet.trim_row, HoParameterSet.row_thresholds.
  simpl logged. cbv iota.
  pose proof (check_logged_silent o lo Cl) as El.
  pose proof (check_logged_silent o hi Ch) as Eh'.
  change (HoParameterSet.check_logged (with_logged true o) lo)
    with (HoParameterSet.check_logged o lo).
  change (HoParameterSet.check_logged (with_logged true o) hi)
    with (HoParameterSet.check_logged o hi).
  change (HoParameterSet.check_silent (with_logged false o) lo)
    with (HoParameterSet.check_silent o lo).
  change (HoParameterSet.check_silent (with_logged false o) hi)
    with (HoParameterSet.check_silent o hi).
  destruct (HoParameterSet.check_logged o lo) as [l r].
  destruct (HoParameterSet.check_logged o hi) as [h r']. simpl in El, Eh'. subst l h.
  change (HoParameterSet.row_reset (with_logged true o) mc)
    with (HoParameterSet.row_reset (with_logged false o) mc).
  change (HoParameterSet.row_filters mode (with_logged true o))
    with (HoParameterSet.row_filters mode (with_logged false o)).
  destruct (HoParameterSet.row_filters mode (with_logged false o) _ _ _)
    as [[[l3 h3] m3]|e]; [|exact I].
  rewrite Er.
  destruct (HoParameterSet.row_invalidate index l3 h3 m3 (to_remove st2))
    as [[[l4 h4] m4] tr].
  change (HoParameterSet.row_identical (with_logged true o))
    with (HoParameterSet.row_identical (with_logged false o)).
  rewrite Eh.
  destruct (HoParameterSet.row_identical (with_logged false o) index l4 h4 tr (hashes st2)).
  simpl. auto.
Qed.

Lemma trim_loop_logged_agree mode o index lows highs mcs st1 st2 :
  Forall (fun h => comparable o h = true) lows ->
  Forall (fun h => comparable o h = true) highs ->
  to_remove st1 = to_remove st2 -> hashes st1 = hashes st2 ->
  match HoParameterSet.trim_loop mode (with_logged true o) index lows highs mcs st1,
        HoParameterSet.trim_loop mode (with_logged false o) index lows highs mcs st2 with
  | Normal (l1, h1, m1, s1), Normal (l2, h2, m2, s2) =>
      l1 = l2 /\ h1 = h2 /\ m1 = m2
      /\ to_remove s1 = to_remove s2 /\ hashes s1 = hashes s2
  | Throw _, Throw _ => True
  | _, _ => False
  end.
Proof.
  intros Fl. revert index highs mcs st1 st2.
  induction Fl as [|lo lows Cl Fl IH]; intros index highs mcs st1 st2 Fh Er Eh; simpl.
  { auto. }
  destruct Fh as [|hi highs Ch Fh]; [simpl; auto|].
  pose proof (trim_row_logged_agree mode o index lo hi (head mcs) st1 st2 Cl Ch Er Eh) as R.
  destruct (HoParameterSet.trim_row mode (with_logged true o) index lo hi (head mcs) st1)
    as [[[[l1 h1] m1] s1]|e1];
    destruct (HoParameterSet.trim_row mode (with_logged false o) index lo hi (head mcs) st2)
    as [[[[l2 h2] m2] s2]|e2]; try contradiction; [|exact I].
  destruct R as (-> & -> & -> & Er' & Eh').
  specialize (IH (S index) highs (tail mcs) s1 s2 Fh Er' Eh').
  destruct (HoParameterSet.trim_loop mode (with_logged true o) _ _ _ _ s1)
    as [[[[l1' h1'] m1'] s1']|e1];
    destruct (HoParameterSet.trim_loop mode (with_logged false o) _ _ _ _ s2)
    as [[[[l2' h2'] m2'] s2']|e2]; try contradiction; [|exact I].
  destruct IH as (-> & -> & -> & ? & ?). auto.
Qed.

Lemma trim_logged_agree mode o s :
  Forall (fun h => comparable o h = true) (HoParameterSet.lowQueryParam s) ->
  Forall (fun h => comparable o h = true) (HoParameterSet.highQueryParam s) ->
  match HoParameterSet.trim mode (with_logged true o) s,
        HoParameterSet.trim mode (with_logged false o) s with
  | Normal (s1, _), Normal (s2, _) => s1 = s2
  | Throw _, Throw _ => True
  | _, _ => False
  end.
Proof.
  intros Fl Fh. unfold HoParameterSet.trim.
  pose proof (trim_loop_logged_agree mode o 0 _ _ (HoParameterSet.mitabCouples s)
                (mkLocals [] [] []) (mkLocals [] [] []) Fl Fh eq_refl eq_refl) as R.
  destruct (HoParameterSet.trim_loop mode (with_logged true o) _ _ _ _ _)
    as [[[[l1 h1] m1] s1]|e1];
    destruct (HoParameterSet.trim_loop mode (with_logged false o) _ _ _ _ _)
    as [[[[l2 h2] m2] s2]|e2]; try contradiction; [|exact I].
  destruct R as (-> & -> & -> & -> & _). simpl definitive.
  destruct (definitive o); reflexivity.
Qed.
End LoggedAgreement.

Section Compaction.
Context `{JsBuiltins}.

Lemma lookup_map {A B : Type} (f : A -> B) (l : list A) (i : nat) :
  map f l !! i = f <$> (l !! i).
Proof. revert i. induction l as [|x l IH]; intros [|i]; simpl; auto. Qed.

Lemma lookup_zip {A B : Type} (l : list A) (k : list B) (i : nat) (x : A) (y : B) :
  l !! i = Some x -> k !! i = Some y -> zip l k !! i = Some (x, y).
Proof.
  revert k i. induction l as [|a l IH]; intros [|b k] [|i]; simpl; try discriminate.
  - congruence.
  - apply IH.
Qed.

Lemma length_zip {A B : Type} (l : list A) (k : list B) :
  length (zip l k) = length l `min` length k.
Proof. revert k. induction l as [|a l IH]; intros [|b k]; simpl; auto. Qed.

(** No reason is recorded for a record that passes the four thresholds. *)
Lemma check_logged_passes o h :
  passes o h = true -> (HoParameterSet.check_logged o h).2 = no_reason.
Proof.
  unfold passes, js_ge, js_le. intros P.
  repeat (apply andb_true_iff in P; destruct P as [P ?]).
  unfold HoParameterSet.check_logged, js_lt, js_gt. simpl.
  rewrite !leb_true_ltb_false by assumption. reflexivity.
Qed.
End Compaction.

(** C9, contradicted by the code through the defect of C1. The claim:
    for every set and every options object, [trim] with [definitive] removes
    from the three sequences exactly the indices the pass marked. On the
    set [from] rebuilds from two rows, the first with a NaN similarity,
    with a method filter and [definitive]: the iteration at index 0
    invalidates the position and pushes 0 to [to_remove]; the iteration at
    index 1 passes the thresholds, enters the filter block and calls
    [mitab_lines_of.filter] on [undefined]. The call throws before the
    three [filter] calls that compact the sequences, so the marked index
    is not removed; without [definitive] the call throws as well. *)
Theorem trim_throws_after_marking :
  @HoParameterSet.trim_row example_runtime TAXON_EVERY
    (with_definitive true method_filter) 0
    (HoParameter.mk nan_row true) (HoParameter.mk good_row true) None (mkLocals [] [] [])
  = Normal (HoParameter.mk nan_row false, HoParameter.mk good_row false, None,
            mkLocals [] [0] [])
  /\ @HoParameterSet.trim_row example_runtime TAXON_EVERY
       (with_definitive true method_filter) 1
       (HoParameter.mk good_row true) (HoParameter.mk good_row true) None
       (mkLocals [] [0] [])
     = Throw TypeError
  /\ @HoParameterSet.trim example_runtime TAXON_EVERY (with_definitive true method_filter)
       (HoParameterSet.from nan_then_good_serialized)
     = Throw TypeError
  /\ @HoParameterSet.trim example_runtime TAXON_EVERY (with_definitive false method_filter)
       (HoParameterSet.from nan_then_good_serialized)
     = Throw TypeError.
Proof. repeat split; vm_compute; reflexivity. Qed.

(** Where [trim] returns, it does what C9 says. It returns on every set
    whose visited positions all have an evidence group, and on every set
    when no method or taxon filter is given; it throws only by the defect
    of C1. Whenever it returns without [definitive] it has changed the
    length of none of the three sequences. With [definitive] it returns the
    same reasons and leaves, of each of the three sequences as the pass
    flagged them, the elements whose index is not marked, in their order;
    and an index is marked exactly when its position was visited and either
    ended invalid or, under [destroy_identical], has the content key of an
    earlier position. *)
Theorem trim_compaction `{JsBuiltins} (mode : nat) (o : TrimOptions) (s : HoParameterSet.t) :
  (covered s \/ (exp_methods o = None /\ taxons o = None) ->
   exists s1 rs, HoParameterSet.trim mode (with_definitive false o) s = Normal (s1, rs))
  /\ forall (s1 : HoParameterSet.t) (rs : list (TrimFailReason * TrimFailReason)),
       HoParameterSet.trim mode (with_definitive false o) s = Normal (s1, rs) ->
       (length (HoParameterSet.lowQueryParam s1) = length (HoParameterSet.lowQueryParam s)
        /\ length (HoParameterSet.highQueryParam s1) = length (HoParameterSet.highQueryParam s)
        /\ length (HoParameterSet.mitabCouples s1) = length (HoParameterSet.mitabCouples s))
       /\ exists marked : list nat,
            (forall i, i ∈ marked <->
               exists h, hash_at s i = Some h
                 /\ (flags (HoParameterSet.lowQueryParam s1) !! i = Some false
                     \/ (destroy_identical o = true
                         /\ exists j, j < i /\ hash_at s j = Some h)))
            /\ HoParameterSet.trim mode (with_definitive true o) s
               = Normal (HoParameterSet.mk
                           (rows_kept marked (HoParameterSet.lowQueryParam s1))
                           (rows_kept marked (HoParameterSet.highQueryParam s1))
                           (rows_kept marked (HoParameterSet.mitabCouples s1))
                           true,
                         rs).
Proof.
  split.
  { intros Hc. exact (trim_returns mode (with_definitive false o) s Hc). }
  intros s1 rs.
  unfold HoParameterSet.trim. rewrite !trim_loop_definitive.
  destruct (HoParameterSet.trim_loop mode o 0 _ _ _ _) as [[[[ls hs] ms] st]|e] eqn:EL;
    [|discriminate].
  simpl definitive. cbv iota. intros E. inversion E. subst. clear E. simpl.
  pose proof (trim_loop_shape _ _ _ _ _ _ _ _ _ _ _ EL) as (L1 & L2 & L3 & _).
  split; [auto|]. exists (to_remove st). split.
  - intros i. destruct (trim_loop_marks _ _ _ _ _ _ _ _ _ _ _ EL) as (_ & M).
    rewrite M. simpl. unfold hash_at, flags. split.
    + intros [Hn|(k & h & -> & Hk & Hv)]; [by apply elem_of_nil in Hn|].
      exists h. split; [exact Hk|].
      destruct Hv as [(lo' & Hl & Hv)|(D & [Hn|(k' & Hlt & Hk')])].
      * left. rewrite lookup_map, Hl. simpl. by rewrite Hv.
      * by apply elem_of_nil in Hn.
      * right. split; [exact D|]. exists k'. auto.
    + intros (h & Hk & Hv). right. exists i, h. split; [reflexivity|]. split; [exact Hk|].
      destruct Hv as [Hv|(D & j & Hlt & Hj)].
      * left. rewrite lookup_map in Hv. destruct (ls !! i) as [lo'|]; [|discriminate].
        exists lo'. split; [reflexivity|]. simpl in Hv. congruence.
      * right. split; [exact D|]. right. exists j. auto.
  - unfold rows_kept. by rewrite !filter_index_rows_kept.
Qed.

Lemma trim_compaction_witness :
  @HoParameterSet.trim example_runtime TAXON_EVERY
    (with_definitive false identical_filter) three_rows
  = Normal (HoParameterSet.mk
              [HoParameter.mk good_row true; HoParameter.mk good_row true;
               HoParameter.mk nan_row false]
              [HoParameter.mk good_row true; HoParameter.mk good_row true;
               HoParameter.mk good_row false]
              [[]; []; []] true, [])
  /\ exists marked : list nat,
       (forall i, i ∈ marked <->
          exists h, hash_at three_rows i = Some h
            /\ (flags [HoParameter.mk good_row true; HoParameter.mk good_row true;
                       HoParameter.mk nan_row false] !! i = Some false
                \/ (destroy_identical identical_filter = true
                    /\ exists j, j < i /\ hash_at three_rows j = Some h)))
       /\ @HoParameterSet.trim example_runtime TAXON_EVERY
            (with_definitive true identical_filter) three_rows
          = Normal (HoParameterSet.mk
                      (rows_kept marked [HoParameter.mk good_row true;
                                         HoParameter.mk good_row true;
                                         HoParameter.mk nan_row false])
                      (rows_kept marked [HoParameter.mk good_row true;
                                         HoParameter.mk good_row true;
                                         HoParameter.mk good_row false])
                      (rows_kept marked [[]; []; []])
                      true,
                    []).
Proof.
  assert (E : @HoParameterSet.trim example_runtime TAXON_EVERY
                (with_definitive false identical_filter) three_rows
              = Normal (HoParameterSet.mk
                          [HoParameter.mk good_row true; HoParameter.mk good_row true;
                           HoParameter.mk nan_row false]
                          [HoParameter.mk good_row true; HoParameter.mk good_row true;
                           HoParameter.mk good_row false]
                          [[]; []; []] true, []))
    by (vm_compute; reflexivity).
  split; [exact E|].
  exact (proj2 (proj2 (@trim_compaction example_runtime TAXON_EVERY identical_filter
                         three_rows) _ _ E)).
Defined.

(** C10, contradicted by the code through the defect of C1. The claim:
    for every set, [trim] with [logged] returns one pair of reasons for
    every position. On the set [from] rebuilds from one row that passes
    the thresholds, with a method filter and [logged]: the pair of
    reasons of the position is pushed, then the filter block calls
    [mitab_lines_of.filter] on [undefined] and the call throws, so no list
    is returned for the one position of the set. *)
Theorem trim_logged_throws_after_from :
  positions (HoParameterSet.from one_good_row_serialized) = 1
  /\ @HoParameterSet.row_thresholds example_runtime (with_logged true method_filter)
       (HoParameter.mk good_row true) (HoParameter.mk good_row true) []
     = (HoParameter.mk good_row true, HoParameter.mk good_row true,
        [(no_reason, no_reason)])
  /\ @HoParameterSet.trim example_runtime TAXON_EVERY (with_logged true method_filter)
       (HoParameterSet.from one_good_row_serialized)
     = Throw TypeError.
Proof. repeat split; vm_compute; reflexivity. Qed.

(** Where [trim] with [logged] returns, it does what C10 says. It returns
    on every set whose visited positions all have an evidence group, and on
    every set when no method or taxon filter is given; it throws only by
    the defect of C1. Whenever it returns, it returns one pair of reasons for
    every position its loop visits, in index order: the list is as long as
    the shorter of the two homology sequences, and its element at an index
    is the pair of reason records built for the low and the high record
    there. A record that passes the four thresholds has every field of its
    reason [false]. The list does not depend on [definitive]. *)
Theorem trim_logged_reasons `{JsBuiltins} (mode : nat) (o : TrimOptions)
    (s : HoParameterSet.t) :
  logged o = true ->
  (covered s \/ (exp_methods o = None /\ taxons o = None) ->
   exists s' rs, HoParameterSet.trim mode o s = Normal (s', rs))
  /\ forall (s' : HoParameterSet.t) (rs : list (TrimFailReason * TrimFailReason)),
       HoParameterSet.trim mode o s = Normal (s', rs) ->
       length rs = positions s
       /\ (forall i lo hi,
             HoParameterSet.lowQueryParam s !! i = Some lo ->
             HoParameterSet.highQueryParam s !! i = Some hi ->
             rs !! i = Some ((HoParameterSet.check_logged o lo).2,
                             (HoParameterSet.check_logged o hi).2))
       /\ (forall h, passes o h = true -> (HoParameterSet.check_logged o h).2 = no_reason)
       /\ (forall b, exists s'',
             HoParameterSet.trim mode (with_definitive b o) s = Normal (s'', rs)).
Proof.
  intros L. split; [apply trim_returns|]. intros s' rs. unfold HoParameterSet.trim.
  destruct (HoParameterSet.trim_loop mode o 0 _ _ _ _) as [[[[ls hs] ms] st]|e] eqn:EL;
    [|discriminate].
  pose proof (trim_loop_reasons _ _ _ _ _ _ _ _ _ _ _ EL) as R. rewrite L in R. simpl in R.
  intros E.
  assert (Ers : rs = reasons st) by (destruct (definitive o); inversion E; reflexivity).
  subst rs. clear E. rewrite R. split.
  { rewrite length_map, length_zip. reflexivity. }
  split.
  { intros i lo hi Hl Hh. rewrite lookup_map, (lookup_zip _ _ _ _ _ Hl Hh). reflexivity. }
  split; [apply check_logged_passes|].
  intros b. rewrite trim_loop_definitive, EL. simpl definitive. rewrite R.
  destruct b; eauto.
Qed.

Lemma trim_logged_reasons_witness :
  logged logged_similarity_85 = true
  /\ @HoParameterSet.trim example_runtime TAXON_EVERY logged_similarity_85 three_rows
     = Normal (HoParameterSet.mk
                 [HoParameter.mk good_row false; HoParameter.mk good_row false;
                  HoParameter.mk nan_row false]
                 [HoParameter.mk good_row false; HoParameter.mk good_row false;
                  HoParameter.mk good_row false]
                 [[]; []; []] true,
               [(similarity_80_85, similarity_80_85);
                (similarity_80_85, similarity_80_85);
                (no_reason, similarity_80_85)])
  /\ length [(similarity_80_85, similarity_80_85);
             (similarity_80_85, similarity_80_85);
             (no_reason, similarity_80_85)]
     = positions three_rows.
Proof.
  assert (E : @HoParameterSet.trim example_runtime TAXON_EVERY logged_similarity_85 three_rows
              = Normal (HoParameterSet.mk
                          [HoParameter.mk good_row false; HoParameter.mk good_row false;
                           HoParameter.mk nan_row false]
                          [HoParameter.mk good_row false; HoParameter.mk good_row false;
                           HoParameter.mk good_row false]
                          [[]; []; []] true,
                        [(similarity_80_85, similarity_80_85);
                         (similarity_80_85, similarity_80_85);
                         (no_reason, similarity_80_85)]))
    by (vm_compute; reflexivity).
  split; [reflexivity|]. split; [exact E|].
  exact (proj1 (proj2 (@trim_logged_reasons example_runtime TAXON_EVERY
                         logged_similarity_85 three_rows eq_refl) _ _ E)).
Defined.

(** ** The snapshot of [toString] *)

Section Snapshot.
Context `{JsBuiltins}.
Variable PSQData_json : PSQData -> json.

(** The callback of the first [filter]: the rows it keeps are the valid
    ones, and it pushes, for each of them that has a group at its index,
    the data of the valid lines of the group. *)
Lemma toString_low_spec (mitab : list (list MitabParameter.t)) (index : nat)
    (lows : list HoParameter.t) (pushed : list (list PSQData)) :
  HoParameterSet.toString_low mitab index lows pushed
  = (List.filter HoParameter.valid lows,
     pushed ++
     omap (fun p : nat * HoParameter.t =>
             if HoParameter.valid p.2 then
               (fun group => map MitabParameter.data
                                 (List.filter MitabParameter.valid group))
                 <$> mitab !! p.1
             else None)
          (zip (seq index (length lows)) lows)).
Proof.
  revert index pushed. induction lows as [|e lows IH]; intros index pushed; simpl.
  { by rewrite app_nil_r. }
  rewrite IH. destruct (HoParameter.valid e); simpl.
  - destruct (mitab !! index); simpl; [by rewrite <- app_assoc | reflexivity].
  - destruct (mitab !! index); reflexivity.
Qed.
End Snapshot.

(** C8 as stated fails: the snapshot has the three keys [lowQueryParam],
    [highQueryParam] and [mitabCouples], and no [visible] flag. A hidden
    set and a visible one with the same rows serialize to the same text. *)
Lemma toString_without_visible :
  json_member "visible"
    (@HoParameterSet.toString_object example_PSQData_json (one_row_with_evidence false))
  = None
  /\ @HoParameterSet.toString example_runtime example_PSQData_json
       (one_row_with_evidence false)
     = @HoParameterSet.toString example_runtime example_PSQData_json
         (one_row_with_evidence true).
Proof. split; vm_compute; reflexivity. Qed.

(** C8, amended. The text [toString] returns is the JSON form of an object
    with exactly three members: [lowQueryParam], the valid low rows;
    [highQueryParam], the valid high rows, each row as its [data] with
    [valid] true; and [mitabCouples], which holds, for each valid low row
    that has an evidence group at its index, the serialized data of the
    valid lines of that group. The [visible] flag is not part of it. *)
Theorem toString_snapshot `{JsBuiltins} (PSQData_json : PSQData -> json)
    (s : HoParameterSet.t) :
  HoParameterSet.toString PSQData_json s
  = JSON_stringify
      (JObject
         [("lowQueryParam",
           JArray (map HoParameterSet.HoParameter_json
                       (List.filter HoParameter.valid (HoParameterSet.lowQueryParam s))));
          ("highQueryParam",
           JArray (map HoParameterSet.HoParameter_json
                       (List.filter HoParameter.valid (HoParameterSet.highQueryParam s))));
          ("mitabCouples",
           JArray (map (fun group => JArray (map PSQData_json group))
                       (retained_evidence s)))])
  /\ (forall h, HoParameter.valid h = true ->
        HoParameterSet.HoParameter_json h
        = JObject [("data", JArray (map JString (HoParameter.data h)));
                   ("valid", JBool true)])
  /\ HoParameterSet.toString PSQData_json
       (HoParameterSet.mk (HoParameterSet.lowQueryParam s) (HoParameterSet.highQueryParam s)
                          (HoParameterSet.mitabCouples s) (negb (HoParameterSet.visible s)))
     = HoParameterSet.toString PSQData_json s.
Proof.
  split; [|split].
  - unfold HoParameterSet.toString, HoParameterSet.toString_object, retained_evidence.
    by rewrite toString_low_spec.
  - intros h V. unfold HoParameterSet.HoParameter_json. by rewrite V.
  - reflexivity.
Qed.

(** ** The map of records *)

Section KeyedMap.
Import ReversibleKeyMap.

Lemma key_match_refl (a b : string) : key_match (a, b) a b = true.
Proof. apply bool_decide_eq_true. simpl. auto. Qed.

Lemma key_match_swap (k : string * string) (a b : string) :
  key_match k a b = key_match k b a.
Proof. unfold key_match. apply bool_decide_ext. tauto. Qed.

Lemma key_match_trans (k : string * string) (a b c d : string) :
  key_match k a b = true -> key_match k c d = key_match (a, b) c d.
Proof.
  unfold key_match. rewrite bool_decide_eq_true. intros Hk.
  apply bool_decide_ext. simpl. naive_solver.
Qed.

Lemma key_match_cong (k : string * string) (a b c d : string) :
  key_match (a, b) c d = true -> key_match k a b = key_match k c d.
Proof.
  unfold key_match. rewrite bool_decide_eq_true. intros Hk.
  apply bool_decide_ext. simpl in *. naive_solver.
Qed.

Lemma key_match_sym (a b c d : string) : key_match (a, b) c d = key_match (c, d) a b.
Proof. unfold key_match. apply bool_decide_ext. simpl. naive_solver. Qed.

Context {V : Type}.

(** Reading after [set]: the pair just set, by either ordering, reads the
    new value, and every other pair reads what it read before. *)
Lemma get_set (m : t V) (a b c d : string) (v : V) :
  get (set m a b v) c d = if key_match (a, b) c d then Some v else get m c d.
Proof.
  induction m as [|[k w] m IH]; simpl.
  { reflexivity. }
  destruct (key_match k a b) eqn:Ek; simpl.
  - rewrite (key_match_trans k a b c d Ek). by destruct (key_match (a, b) c d).
  - rewrite IH. destruct (key_match k c d) eqn:Ec; [|reflexivity].
    destruct (key_match (a, b) c d) eqn:Em; [|reflexivity].
    rewrite (key_match_trans k c d a b Ec), key_match_sym, Em in Ek. discriminate.
Qed.

Lemma get_same_pair (m : t V) (a b c d : string) :
  key_match (a, b) c d = true -> get m a b = get m c d.
Proof.
  intros K. induction m as [|[k w] m IH]; simpl; [reflexivity|].
  by rewrite IH, (key_match_cong k a b c d K).
Qed.

Lemma get_symmetric (m : t V) (a b : string) : get m a b = get m b a.
Proof. induction m as [|[k w] m IH]; simpl; [reflexivity|]. by rewrite key_match_swap, IH. Qed.

(** The keys after [set] are the keys before, and the pair set. *)
Lemma set_keys (m : t V) (a b : string) (v : V) (e : (string * string) * V) :
  e ∈ set m a b v -> (exists w, (e.1, w) ∈ m) \/ e.1 = (a, b).
Proof.
  induction m as [|[k w] m IH]; simpl.
  { intros ->%list_elem_of_singleton. auto. }
  destruct (key_match k a b).
  - intros [->|He]%elem_of_cons; left; [exists w; left|exists e.2; right; by destruct e].
  - intros [->|He]%elem_of_cons; [left; exists w; left|].
    destruct (IH He) as [[w' Hw]|?]; [left; exists w'; by right|by right].
Qed.
End KeyedMap.

(** ** The store *)

Section Store.
Context `{JsBuiltins}.
Variable equal : PSQData -> PSQData -> bool.

Import ReversibleKeyMap.

Lemma getLines_get (s : PSICQuic.t) (a b : string) :
  PSICQuic.getLines s a b = default [] (get (PSICQuic.records s) a b).
Proof.
  unfold PSICQuic.getLines, PSICQuic.hasCouple, hasCouple.
  destruct (get (PSICQuic.records s) a b); reflexivity.
Qed.

(** Lookup is symmetric. *)
Lemma getLines_symmetric (s : PSICQuic.t) (a b : string) :
  PSICQuic.getLines s a b = PSICQuic.getLines s b a.
Proof. by rewrite !getLines_get, get_symmetric. Qed.

(** [update] either leaves the store as it is, when the sequence of the
    pair holds an entry equal to the record, or appends the record to that
    sequence and leaves every other sequence as it is. *)
Lemma update_has_equal (s : PSICQuic.t) (psq : PSQData) :
  has_equal equal s psq = true -> PSICQuic.update equal s psq = s.
Proof.
  unfold has_equal, PSICQuic.update. destruct (ids psq) as [id1 id2]. simpl.
  intros E. destruct (forallb _ _) eqn:F; [|reflexivity].
  apply existsb_exists in E. destruct E as (l & Hl & E).
  rewrite forallb_forall in F. specialize (F l Hl). rewrite E in F. discriminate.
Qed.

Lemma forallb_negb_existsb {A : Type} (f : A -> bool) (l : list A) :
  forallb (fun x => negb (f x)) l = negb (existsb f l).
Proof. induction l as [|x l IH]; simpl; [reflexivity|]. rewrite IH. by destruct (f x). Qed.

Lemma getLines_update (s : PSICQuic.t) (psq : PSQData) (c d : string) :
  PSICQuic.getLines (PSICQuic.update equal s psq) c d
  = if negb (has_equal equal s psq) && key_match (ids psq) c d
    then PSICQuic.getLines s (ids psq).1 (ids psq).2 ++ [psq]
    else PSICQuic.getLines s c d.
Proof.
  unfold has_equal, PSICQuic.update. destruct (ids psq) as [id1 id2]. simpl.
  rewrite forallb_negb_existsb. destruct (existsb _ _); simpl; [reflexivity|].
  rewrite !getLines_get. simpl. rewrite get_set.
  by destruct (key_match (id1, id2) c d).
Qed.

Lemma update_registry (s : PSICQuic.t) (psq : PSQData) :
  PSICQuic.registredPublications (PSICQuic.update equal s psq)
  = PSICQuic.registredPublications s.
Proof.
  unfold PSICQuic.update. destruct (ids psq). by destruct (forallb _ _).
Qed.

(** [checkPsqData] never writes the records; it rejects exactly on a
    conflict, and registers the source of a publication it did not know. *)
Lemma checkPsqData_records (s : PSICQuic.t) (line : PSQData) :
  PSICQuic.records (PSICQuic.checkPsqData s line).1 = PSICQuic.records s.
Proof.
  unfold PSICQuic.checkPsqData. destruct (negb _); [reflexivity|].
  by destruct (bool_decide _).
Qed.

Lemma checkPsqData_result (s : PSICQuic.t) (line : PSQData) :
  (PSICQuic.checkPsqData s line).2 = negb (conflict s line).
Proof.
  unfold PSICQuic.checkPsqData, conflict.
  destruct (PSICQuic.js_in _ _); simpl; [|reflexivity].
  by destruct (bool_decide _).
Qed.

Lemma checkPsqData_conflict (s : PSICQuic.t) (line : PSQData) :
  conflict s line = true -> PSICQuic.checkPsqData s line = (s, false).
Proof.
  unfold PSICQuic.checkPsqData, conflict.
  destruct (PSICQuic.js_in _ _); simpl; [|discriminate].
  destruct (bool_decide _); [discriminate|reflexivity].
Qed.

Lemma checkPsqData_known (s : PSICQuic.t) (line : PSQData) :
  PSICQuic.js_in (pmid line) (PSICQuic.registredPublications s) = true ->
  (PSICQuic.checkPsqData s line).1 = s.
Proof.
  unfold PSICQuic.checkPsqData. intros ->. simpl. by destruct (bool_decide _).
Qed.

Lemma plus_line_records (s : PSICQuic.t) (line : PSQData) :
  PSICQuic.records (PSICQuic.plus_line equal s line)
  = if conflict s line then PSICQuic.records s
    else PSICQuic.records
           (PSICQuic.update equal
              (PSICQuic.mk (PSICQuic.records s) (PSICQuic.registredPublications s)) line).
Proof.
  unfold PSICQuic.plus_line.
  pose proof (checkPsqData_records s line) as R.
  pose proof (checkPsqData_result s line) as C.
  destruct (PSICQuic.checkPsqData s line) as [s1 ok]. simpl in *. subst ok.
  destruct (conflict s line); simpl; [exact R|].
  destruct s1 as [r1 g1]. simpl in R. subst r1.
  unfold PSICQuic.update. destruct (ids line) as [id1 id2].
  rewrite !getLines_get. simpl. by destruct (forallb _ _).
Qed.

Lemma plus_lines (self other : PSICQuic.t) :
  PSICQuic.plus equal self other
  = fold_left (PSICQuic.plus_line equal) (PSICQuic.lines other) self.
Proof.
  unfold PSICQuic.plus, PSICQuic.lines, values.
  generalize (PSICQuic.records other). intros r. revert self.
  induction r as [|[k v] r IH]; intros self; simpl; [reflexivity|].
  by rewrite fold_left_app, IH.
Qed.
End Store.

(** ** The claims on [PSICQuic] *)

(** C5, contradicted by the code. The claim: [plus] appends every record
    of the other store that is not equal to a stored record of its pair,
    whatever [checkPsqData] says of its publication. [plus] of
    [PSICQuic.ts], documented as adding all the records of the other
    store, calls [update] only for the lines [checkPsqData] accepts. The
    store [store_ab] knows the publication [pubmed:1] from the source
    [intact]; the line of [store_ac] reports the same publication from
    [mint], under the pair (A, C), for which the store holds no record at
    all. After the merge the pair (A, C) is still empty. *)
Lemma plus_skips_conflicting_record :
  PSICQuic.lines store_ac = [line_ac]
  /\ PSICQuic.getLines store_ab "A" "C" = []
  /\ @conflict example_runtime store_ab line_ac = true
  /\ PSICQuic.getLines (@PSICQuic.plus example_runtime example_equal store_ab store_ac) "A" "C"
     = [].
Proof. repeat split; vm_compute; reflexivity. Qed.

(** On the same stores, [plus] of the copy of the class in
    [HoParameter.ts], which has the same documentation and calls [add]
    without [checkPsqData], stores the record. *)
Lemma plus_by_add_keeps_conflicting_record :
  PSICQuic.getLines (PSICQuic.plus_by_add example_equal store_ab store_ac) "A" "C"
  = [line_ac].
Proof. vm_compute. reflexivity. Qed.

(** What [plus] of [PSICQuic.ts] does with the records of the other store:
    it handles them one by one,
    in the order of its iterator, and asks [checkPsqData] about each. A
    record whose publication id is registered under another source is
    skipped and the store stays as it is. Any other record goes through
    [update]: the records stay as they are when the sequence of its pair
    holds an entry equal to it, and it is appended to that sequence when
    none is; a publication id that was not registered is registered with
    the lower-cased source of the record. *)
Theorem plus_checks_publication `{JsBuiltins} (equal : PSQData -> PSQData -> bool)
    (self other : PSICQuic.t) :
  PSICQuic.plus equal self other
  = fold_left (PSICQuic.plus_line equal) (PSICQuic.lines other) self
  /\ forall (s : PSICQuic.t) (line : PSQData),
       (conflict s line = true -> PSICQuic.plus_line equal s line = s)
       /\ (conflict s line = false ->
           ((exists l, l ∈ PSICQuic.getLines s (ids line).1 (ids line).2
                       /\ equal l line = true) ->
            PSICQuic.records (PSICQuic.plus_line equal s line) = PSICQuic.records s)
           /\ ((forall l, l ∈ PSICQuic.getLines s (ids line).1 (ids line).2 ->
                          equal l line = false) ->
               PSICQuic.getLines (PSICQuic.plus_line equal s line) (ids line).1 (ids line).2
               = PSICQuic.getLines s (ids line).1 (ids line).2 ++ [line])
           /\ (PSICQuic.js_in (pmid line) (PSICQuic.registredPublications s) = false ->
               PSICQuic.registredPublications (PSICQuic.plus_line equal s line)
               = <[pmid line := toLowerCase (source line)]> (PSICQuic.registredPublications s))).
Proof.
  split; [apply plus_lines|]. intros s line. split.
  { intros C. unfold PSICQuic.plus_line. by rewrite (checkPsqData_conflict s line C). }
  intros C. split; [|split].
  - intros (l & Hl & E). rewrite plus_line_records, C.
    rewrite update_has_equal; [reflexivity|].
    unfold has_equal. apply existsb_exists. exists l. split; [|exact E].
    apply list_elem_of_In. by rewrite getLines_get in *.
  - intros N.
    assert (R : PSICQuic.getLines (PSICQuic.plus_line equal s line) (ids line).1 (ids line).2
                = default [] (ReversibleKeyMap.get
                                (PSICQuic.records (PSICQuic.plus_line equal s line))
                                (ids line).1 (ids line).2)) by apply getLines_get.
    rewrite R, plus_line_records, C, <- getLines_get, getLines_update.
    assert (E : has_equal equal (PSICQuic.mk (PSICQuic.records s)
                                   (PSICQuic.registredPublications s)) line = false).
    { unfold has_equal. apply not_true_iff_false. intros E.
      apply existsb_exists in E. destruct E as (l & Hl & E).
      rewrite getLines_get in Hl. simpl in Hl. rewrite <- getLines_get in Hl.
      apply list_elem_of_In in Hl. rewrite (N l Hl) in E. discriminate. }
    rewrite E. simpl. destruct (ids line) as [id1 id2]. simpl.
    rewrite key_match_refl. by rewrite !getLines_get.
  - intros J. unfold PSICQuic.plus_line, PSICQuic.checkPsqData. rewrite J. simpl.
    by rewrite update_registry.
Qed.

Lemma plus_checks_publication_witness :
  @conflict example_runtime PSICQuic.new line_ab = false
  /\ (forall l, l ∈ PSICQuic.getLines PSICQuic.new (ids line_ab).1 (ids line_ab).2 ->
                example_equal l line_ab = false)
  /\ PSICQuic.getLines (@PSICQuic.plus_line example_runtime example_equal PSICQuic.new line_ab)
       (ids line_ab).1 (ids line_ab).2
     = PSICQuic.getLines PSICQuic.new (ids line_ab).1 (ids line_ab).2 ++ [line_ab].
Proof.
  assert (C : @conflict example_runtime PSICQuic.new line_ab = false) by reflexivity.
  assert (N : forall l, l ∈ PSICQuic.getLines PSICQuic.new (ids line_ab).1 (ids line_ab).2 ->
                        example_equal l line_ab = false).
  { intros l Hl. vm_compute in Hl. by apply elem_of_nil in Hl. }
  split; [exact C|]. split; [exact N|].
  exact (proj1 (proj2 (proj2 (proj2 (@plus_checks_publication example_runtime example_equal
                                       PSICQuic.new PSICQuic.new) PSICQuic.new line_ab) C)) N).
Defined.

(** C7. [update] with a record equal, by the equality of the record type,
    to an entry of the sequence of its pair leaves the store as it is, so
    that sequence keeps its length. A record with no equal entry is appended
    at the end of the sequence, the entries before it staying in their
    order, and the sequence is read so by either ordering of the pair. The
    sequence of any other pair is not touched. *)
Theorem update_dedup (equal : PSQData -> PSQData -> bool) (s : PSICQuic.t) (psq : PSQData) :
  ((exists line, line ∈ PSICQuic.getLines s (ids psq).1 (ids psq).2
                 /\ equal line psq = true) ->
   PSICQuic.update equal s psq = s
   /\ length (PSICQuic.getLines (PSICQuic.update equal s psq) (ids psq).1 (ids psq).2)
      = length (PSICQuic.getLines s (ids psq).1 (ids psq).2))
  /\ ((forall line, line ∈ PSICQuic.getLines s (ids psq).1 (ids psq).2 ->
                    equal line psq = false) ->
      PSICQuic.getLines (PSICQuic.update equal s psq) (ids psq).1 (ids psq).2
      = PSICQuic.getLines s (ids psq).1 (ids psq).2 ++ [psq]
      /\ PSICQuic.getLines (PSICQuic.update equal s psq) (ids psq).2 (ids psq).1
         = PSICQuic.getLines s (ids psq).1 (ids psq).2 ++ [psq])
  /\ (forall c d, ReversibleKeyMap.key_match (ids psq) c d = false ->
        PSICQuic.getLines (PSICQuic.update equal s psq) c d = PSICQuic.getLines s c d).
Proof.
  split; [|split].
  - intros (l & Hl & E).
    assert (HE : has_equal equal s psq = true).
    { unfold has_equal. apply existsb_exists. exists l. split; [|exact E].
      by apply list_elem_of_In. }
    rewrite (update_has_equal equal s psq HE). auto.
  - intros N.
    assert (HE : has_equal equal s psq = false).
    { unfold has_equal. apply not_true_iff_false. intros E.
      apply existsb_exists in E. destruct E as (l & Hl & E).
      apply list_elem_of_In in Hl. rewrite (N l Hl) in E. discriminate. }
    rewrite (getLines_symmetric (PSICQuic.update equal s psq) (ids psq).2 (ids psq).1).
    rewrite getLines_update, HE. destruct (ids psq) as [id1 id2]. simpl.
    by rewrite key_match_refl.
  - intros c d K. rewrite getLines_update, K. by rewrite andb_false_r.
Qed.

Lemma update_dedup_witness :
  (exists line, line ∈ PSICQuic.getLines store_ab (ids line_ab).1 (ids line_ab).2
                /\ example_equal line line_ab = true)
  /\ PSICQuic.update example_equal store_ab line_ab = store_ab
  /\ (forall line, line ∈ PSICQuic.getLines store_ab (ids line_ab_mint).1 (ids line_ab_mint).2 ->
                   example_equal line line_ab_mint = false)
  /\ PSICQuic.getLines (PSICQuic.update example_equal store_ab line_ab_mint) "B" "A"
     = [line_ab; line_ab_mint].
Proof.
  assert (E : exists line, line ∈ PSICQuic.getLines store_ab (ids line_ab).1 (ids line_ab).2
                           /\ example_equal line line_ab = true).
  { exists line_ab. split; [vm_compute; left|reflexivity]. }
  assert (N : forall line,
             line ∈ PSICQuic.getLines store_ab (ids line_ab_mint).1 (ids line_ab_mint).2 ->
             example_equal line line_ab_mint = false).
  { intros line Hl. vm_compute in Hl. apply list_elem_of_singleton in Hl. by subst. }
  split; [exact E|].
  split; [exact (proj1 (proj1 (update_dedup example_equal store_ab line_ab) E))|].
  split; [exact N|].
  exact (proj2 (proj1 (proj2 (update_dedup example_equal store_ab line_ab_mint)) N)).
Defined.

(** ** Well-keyed records *)

Section WellKeyed.
Context `{JsBuiltins}.
Variable equal : PSQData -> PSQData -> bool.

Import ReversibleKeyMap.

Lemma well_keyed_get r a b v :
  well_keyed r -> get r a b = Some v ->
  Forall (fun line => same_pair (a, b) (ids line) = true) v.
Proof.
  induction r as [|[k w] r IH]; simpl; [discriminate|].
  intros (Hw & _ & Hr). destruct (key_match k a b) eqn:Ek; [|by apply IH].
  intros [= <-]. eapply Forall_impl; [exact Hw|]. intros line Hl.
  unfold same_pair in *. by rewrite <- (key_match_trans k a b _ _ Ek).
Qed.

(** In well-keyed records an entry is what its own pair reads. *)
Lemma well_keyed_lookup r i k v a b :
  well_keyed r -> r !! i = Some (k, v) -> key_match k a b = true ->
  get r a b = Some v.
Proof.
  revert i. induction r as [|[k0 w0] r IH]; intros [|i]; simpl; try discriminate.
  - intros _ [= -> ->] ->. reflexivity.
  - intros (_ & Hd & Hr) Hi Ek.
    destruct (key_match k0 a b) eqn:E0; [|by eapply IH].
    rewrite Forall_forall in Hd. specialize (Hd (k, v)).
    assert (Hin : (k, v) ∈ r) by (eapply list_elem_of_lookup_2; exact Hi).
    specialize (Hd Hin). unfold same_pair in Hd. simpl in Hd.
    destruct k as [k1 k2]. simpl in Hd.
    rewrite (key_match_trans k0 a b k1 k2 E0), key_match_sym, Ek in Hd. discriminate.
Qed.

Lemma well_keyed_set r a b v :
  well_keyed r ->
  Forall (fun line => same_pair (a, b) (ids line) = true) v ->
  well_keyed (set r a b v).
Proof.
  intros Hr Hv. induction r as [|[k w] r IH]; simpl.
  { repeat split; auto. }
  destruct Hr as (Hw & Hd & Hr). destruct (key_match k a b) eqn:Ek; simpl.
  - repeat split; auto. eapply Forall_impl; [exact Hv|]. intros line Hl.
    unfold same_pair in *. by rewrite (key_match_trans k a b _ _ Ek).
  - repeat split; auto. rewrite Forall_forall. intros e He.
    destruct (set_keys r a b v e He) as [[w' Hw']|E].
    + rewrite Forall_forall in Hd. exact (Hd _ Hw').
    + unfold same_pair. rewrite E. exact Ek.
Qed.

(** The empty map is well keyed, and [update], [checkPsqData] and [plus]
    keep the records well keyed. *)
Lemma well_keyed_new : well_keyed (PSICQuic.records PSICQuic.new).
Proof. exact I. Qed.

Lemma well_keyed_update s psq :
  well_keyed (PSICQuic.records s) ->
  well_keyed (PSICQuic.records (PSICQuic.update equal s psq)).
Proof.
  intros W. unfold PSICQuic.update. destruct (ids psq) as [id1 id2] eqn:Ei.
  destruct (forallb _ _); [|exact W]. simpl.
  apply well_keyed_set; [exact W|]. apply Forall_app. split.
  - rewrite getLines_get. destruct (get (PSICQuic.records s) id1 id2) eqn:G; simpl.
    + by apply (well_keyed_get _ _ _ _ W G).
    + constructor.
  - constructor; [|constructor]. unfold same_pair. rewrite Ei. apply key_match_refl.
Qed.

Lemma well_keyed_plus_line s line :
  well_keyed (PSICQuic.records s) ->
  well_keyed (PSICQuic.records (PSICQuic.plus_line equal s line)).
Proof.
  intros W. rewrite plus_line_records. destruct (conflict s line); [exact W|].
  by apply well_keyed_update.
Qed.

Lemma well_keyed_plus self other :
  well_keyed (PSICQuic.records self) ->
  well_keyed (PSICQuic.records (PSICQuic.plus equal self other)).
Proof.
  rewrite plus_lines. generalize (PSICQuic.lines other). intros l. revert self.
  induction l as [|x l IH]; intros self W; simpl; [exact W|].
  apply IH. by apply well_keyed_plus_line.
Qed.
End WellKeyed.

(** ** Merging a store into itself *)

Section SelfMerge.
Context `{JsBuiltins}.
Variable equal : PSQData -> PSQData -> bool.

Import ReversibleKeyMap.

Lemma well_keyed_entry r i k v :
  well_keyed r -> r !! i = Some (k, v) ->
  Forall (fun line => same_pair k (ids line) = true) v.
Proof.
  revert i. induction r as [|[k0 w0] r IH]; intros [|i]; simpl; try discriminate.
  - by intros (Hw & _) [= <- <-].
  - intros (_ & _ & Hr). by apply IH.
Qed.

(** A line met by the loops of [plus_self] is already in the sequence of
    its pair, so the step leaves the records as they are. *)
Lemma plus_self_step (s : PSICQuic.t) i j k v line :
  (forall d, equal d d = true) ->
  well_keyed (PSICQuic.records s) ->
  PSICQuic.records s !! i = Some (k, v) -> v !! j = Some line ->
  PSICQuic.records (PSICQuic.plus_line equal s line) = PSICQuic.records s.
Proof.
  intros Hrefl W Hi Hj. rewrite plus_line_records.
  destruct (conflict s line); [reflexivity|].
  rewrite update_has_equal; [reflexivity|].
  unfold has_equal. rewrite getLines_get. simpl.
  assert (Hin : line ∈ v) by (eapply list_elem_of_lookup_2; exact Hj).
  pose proof (well_keyed_entry _ _ _ _ W Hi) as F. rewrite Forall_forall in F.
  rewrite (well_keyed_lookup _ i k v _ _ W Hi (F line Hin)). simpl.
  apply existsb_exists. exists line. split; [by apply list_elem_of_In|apply Hrefl].
Qed.

(** So the loops end, after [steps_left] iterations at most, with the
    records they started from. *)
Lemma plus_self_returns (fuel i j : nat) (s : PSICQuic.t) :
  (forall d, equal d d = true) ->
  well_keyed (PSICQuic.records s) ->
  steps_left (drop i (PSICQuic.records s)) j <= fuel ->
  exists s', PSICQuic.plus_self equal fuel i j s = Some s'
             /\ PSICQuic.records s' = PSICQuic.records s.
Proof.
  intros Hrefl. revert i j s. induction fuel as [|fuel IH]; intros i j s W Hf.
  { destruct (drop i (PSICQuic.records s)) as [|[? ?] ?]; simpl in Hf; lia. }
  simpl. destruct (PSICQuic.records s !! i) as [[k v]|] eqn:Hi; [|eauto].
  rewrite (drop_S _ _ _ Hi) in Hf. simpl in Hf.
  destruct (v !! j) as [line|] eqn:Hj.
  - pose proof (plus_self_step s i j k v line Hrefl W Hi Hj) as R.
    apply lookup_lt_Some in Hj.
    destruct (IH i (S j) (PSICQuic.plus_line equal s line)) as (s' & E & R').
    + by rewrite R.
    + rewrite R, (drop_S _ _ _ Hi). simpl. lia.
    + exists s'. split; [exact E|]. by rewrite R', R.
  - apply IH; [exact W|]. lia.
Qed.
End SelfMerge.

(** ** Merging a store twice *)

Section Idempotence.
Context `{JsBuiltins}.
Variable equal : PSQData -> PSQData -> bool.

Lemma conflict_js_in (s : PSICQuic.t) (line : PSQData) :
  conflict s line = true ->
  PSICQuic.js_in (pmid line) (PSICQuic.registredPublications s) = true.
Proof. unfold conflict. by intros [? _]%andb_true_iff. Qed.

(** What is registered stays registered, with the same source. *)
Lemma plus_line_registry (s : PSICQuic.t) (x : PSQData) (p : string) :
  PSICQuic.js_in p (PSICQuic.registredPublications s) = true ->
  PSICQuic.js_in p (PSICQuic.registredPublications (PSICQuic.plus_line equal s x)) = true
  /\ PSICQuic.js_read (PSICQuic.registredPublications (PSICQuic.plus_line equal s x)) p
     = PSICQuic.js_read (PSICQuic.registredPublications s) p.
Proof.
  intros J. unfold PSICQuic.plus_line, PSICQuic.checkPsqData.
  destruct (PSICQuic.js_in (pmid x) (PSICQuic.registredPublications s)) eqn:Jx; simpl.
  - destruct (bool_decide _); rewrite ?update_registry; auto.
  - rewrite update_registry. simpl.
    assert (Hne : pmid x <> p) by (intros E; rewrite E in Jx; congruence).
    unfold PSICQuic.js_in, PSICQuic.js_read in *. by rewrite lookup_insert_ne.
Qed.

(** The sequences of the store only grow. *)
Lemma plus_line_getLines (s : PSICQuic.t) (x l : PSQData) (c d : string) :
  l ∈ PSICQuic.getLines s c d ->
  l ∈ PSICQuic.getLines (PSICQuic.plus_line equal s x) c d.
Proof.
  intros Hl.
  rewrite getLines_get, plus_line_records. destruct (conflict s x).
  { by rewrite <- getLines_get. }
  rewrite <- getLines_get, getLines_update.
  assert (E : forall a b, PSICQuic.getLines
                (PSICQuic.mk (PSICQuic.records s) (PSICQuic.registredPublications s)) a b
              = PSICQuic.getLines s a b) by (intros; by rewrite !getLines_get).
  rewrite !E. destruct (negb _ && ReversibleKeyMap.key_match (ids x) c d) eqn:K; [|exact Hl].
  apply andb_true_iff in K. destruct K as [_ K].
  apply elem_of_app. left. rewrite !getLines_get in *.
  destruct (ids x) as [x1 x2]. simpl in *.
  by rewrite (get_same_pair (PSICQuic.records s) x1 x2 c d K).
Qed.

Lemma settled_fixed (s : PSICQuic.t) (l : PSQData) :
  settled equal s l -> PSICQuic.plus_line equal s l = s.
Proof.
  intros (J & [C|E]); unfold PSICQuic.plus_line.
  - by rewrite (checkPsqData_conflict s l C).
  - pose proof (checkPsqData_known s l J) as K.
    destruct (PSICQuic.checkPsqData s l) as [s1 ok]. simpl in K. subst s1.
    destruct ok; [|reflexivity]. by apply update_has_equal.
Qed.

Lemma settled_preserved (s : PSICQuic.t) (x l : PSQData) :
  settled equal s l -> settled equal (PSICQuic.plus_line equal s x) l.
Proof.
  intros (J & D). destruct (plus_line_registry s x (pmid l) J) as (J' & R').
  split; [exact J'|]. destruct D as [C|E].
  - left. unfold conflict in *. rewrite J in C. rewrite J', R'. exact C.
  - right. unfold has_equal in *. apply existsb_exists in E.
    destruct E as (l0 & Hl & E). apply existsb_exists. exists l0. split; [|exact E].
    apply list_elem_of_In. apply plus_line_getLines. by apply list_elem_of_In.
Qed.

Lemma settled_after (s : PSICQuic.t) (l : PSQData) :
  (forall d, equal d d = true) ->
  settled equal (PSICQuic.plus_line equal s l) l.
Proof.
  intros Hrefl. destruct (conflict s l) eqn:C.
  { unfold PSICQuic.plus_line. rewrite (checkPsqData_conflict s l C).
    split; [by apply conflict_js_in|by left]. }
  unfold PSICQuic.plus_line.
  pose proof (checkPsqData_result s l) as Hok. rewrite C in Hok.
  assert (J1 : PSICQuic.js_in (pmid l)
                 (PSICQuic.registredPublications (PSICQuic.checkPsqData s l).1) = true).
  { unfold PSICQuic.checkPsqData.
    destruct (PSICQuic.js_in (pmid l) (PSICQuic.registredPublications s)) eqn:J; simpl.
    - by destruct (bool_decide _).
    - unfold PSICQuic.js_in. rewrite lookup_insert_eq. reflexivity. }
  destruct (PSICQuic.checkPsqData s l) as [s1 ok]. simpl in *. subst ok.
  split; [by rewrite update_registry|]. right.
  unfold has_equal. rewrite getLines_update.
  destruct (has_equal equal s1 l) eqn:E; simpl; [exact E|].
  destruct (ids l) as [id1 id2]. simpl. rewrite key_match_refl.
  rewrite existsb_app. simpl. rewrite Hrefl. by rewrite orb_true_r.
Qed.

Lemma fold_settled (ls : list PSQData) (s : PSICQuic.t) (l : PSQData) :
  settled equal s l -> settled equal (fold_left (PSICQuic.plus_line equal) ls s) l.
Proof.
  revert s. induction ls as [|x ls IH]; intros s S; simpl; [exact S|].
  apply IH. by apply settled_preserved.
Qed.

Lemma fold_all_settled (ls : list PSQData) (s : PSICQuic.t) :
  (forall d, equal d d = true) ->
  Forall (settled equal (fold_left (PSICQuic.plus_line equal) ls s)) ls.
Proof.
  intros Hrefl. revert s. induction ls as [|x ls IH]; intros s; simpl; constructor.
  - apply fold_settled. by apply settled_after.
  - apply IH.
Qed.

Lemma fold_fixed (ls : list PSQData) (s : PSICQuic.t) :
  Forall (settled equal s) ls -> fold_left (PSICQuic.plus_line equal) ls s = s.
Proof.
  induction 1 as [|x ls Hx Hls IH]; simpl; [reflexivity|].
  by rewrite (settled_fixed s x Hx).
Qed.
End Idempotence.

(** C6. Where the equality of records holds of every record with itself:
    merging a store with well-keyed records into itself ends, whatever
    the iterations it is given beyond [steps_left], and leaves its records
    as they were; and merging a store [S] into a store [T] a second time
    leaves [T] as the first merge left it. *)
Theorem plus_idempotent `{JsBuiltins} (equal : PSQData -> PSQData -> bool)
    (S T : PSICQuic.t) :
  (forall d, equal d d = true) ->
  well_keyed (PSICQuic.records S) ->
  (forall fuel, steps_left (PSICQuic.records S) 0 <= fuel ->
     exists S', PSICQuic.plus_self equal fuel 0 0 S = Some S'
                /\ PSICQuic.records S' = PSICQuic.records S)
  /\ PSICQuic.plus equal (PSICQuic.plus equal T S) S = PSICQuic.plus equal T S.
Proof.
  intros Hrefl W. split.
  - intros fuel Hf. by apply plus_self_returns.
  - rewrite !plus_lines. apply fold_fixed. by apply fold_all_settled.
Qed.

Lemma plus_idempotent_witness :
  (forall d, example_equal d d = true)
  /\ well_keyed (PSICQuic.records store_mint)
  /\ (forall fuel, steps_left (PSICQuic.records store_mint) 0 <= fuel ->
        exists S', @PSICQuic.plus_self example_runtime example_equal fuel 0 0 store_mint
                   = Some S'
                   /\ PSICQuic.records S' = PSICQuic.records store_mint)
  /\ @PSICQuic.plus example_runtime example_equal
       (@PSICQuic.plus example_runtime example_equal store_ab store_mint) store_mint
     = @PSICQuic.plus example_runtime example_equal store_ab store_mint.
Proof.
  assert (R : forall d, example_equal d d = true).
  { intros d. unfold example_equal.
    rewrite !String.eqb_refl, !bool_decide_eq_true_2; reflexivity. }
  assert (W : well_keyed (PSICQuic.records store_mint)).
  { vm_compute. repeat constructor. }
  split; [exact R|]. split; [exact W|].
  exact (@plus_idempotent example_runtime example_equal store_mint store_ab R W).
Defined.

(** * Further properties *)

(** ** What [trim] computes at a position *)

Section TrimExact.
Context `{JsBuiltins}.

Lemma check_logged_of_data o h h2 :
  HoParameter.data h2 = HoParameter.data h ->
  HoParameterSet.check_logged o h2 = HoParameterSet.check_logged o h.
Proof. destruct h, h2. simpl. by intros ->. Qed.

Lemma check_silent_of_data o h h2 :
  HoParameter.data h2 = HoParameter.data h ->
  HoParameterSet.check_silent o h2 = HoParameterSet.check_silent o h.
Proof. destruct h, h2. simpl. by intros ->. Qed.

Lemma row_thresholds_of_data o lo hi lo2 hi2 rs :
  HoParameter.data lo2 = HoParameter.data lo ->
  HoParameter.data hi2 = HoParameter.data hi ->
  HoParameterSet.row_thresholds o lo2 hi2 rs = HoParameterSet.row_thresholds o lo hi rs.
Proof.
  intros Dl Dh. unfold HoParameterSet.row_thresholds.
  by rewrite (check_logged_of_data o lo lo2 Dl), (check_logged_of_data o hi hi2 Dh),
    (check_silent_of_data o lo lo2 Dl), (check_silent_of_data o hi hi2 Dh).
Qed.

(** The threshold block leaves each record with its data and the flag
    [threshold_ok]. *)
Lemma row_thresholds_exact o lo hi rs :
  exists rs',
    HoParameterSet.row_thresholds o lo hi rs
    = (HoParameter.mk (HoParameter.data lo) (threshold_ok o lo),
       HoParameter.mk (HoParameter.data hi) (threshold_ok o hi), rs').
Proof.
  unfold HoParameterSet.row_thresholds, threshold_ok.
  pose proof (check_logged_data o lo) as Dl. pose proof (check_logged_data o hi) as Dh.
  destruct (logged o).
  - destruct (HoParameterSet.check_logged o lo) as [[d v] r].
    destruct (HoParameterSet.check_logged o hi) as [[d' v'] r']. simpl in *. subst. eauto.
  - eauto.
Qed.

Lemma map_set_valid_of_data (b : bool) (m m2 : list MitabParameter.t) :
  map MitabParameter.data m2 = map MitabParameter.data m ->
  map (MitabParameter.set_valid b) m2 = map (MitabParameter.set_valid b) m.
Proof.
  revert m2. induction m as [|x m IH]; intros [|y m2]; simpl; try discriminate; auto.
  intros [= E1 E2]. unfold MitabParameter.set_valid at 1 3. rewrite E1. f_equal. by apply IH.
Qed.

(** After the two passes of [filter_lines] a line is flagged by the filters
    alone, when a method filter is given or the lines were all valid. *)
Lemma filter_lines_methods mode o methods g :
  exp_methods o = Some methods ->
  HoParameterSet.filter_lines mode o g
  = map (fun l => MitabParameter.mk (MitabParameter.data l)
                    (line_ok mode o (MitabParameter.data l))) g.
Proof.
  intros E. unfold HoParameterSet.filter_lines, line_ok. rewrite E.
  destruct (taxons o) as [tx|].
  - rewrite map_map. apply map_ext. intros l. unfold MitabParameter.set_valid. simpl.
    by destruct (Set_has methods _).
  - apply map_ext. intros l. unfold MitabParameter.set_valid. by rewrite andb_true_r.
Qed.

Lemma filter_lines_reset mode o g :
  exp_methods o = None ->
  HoParameterSet.filter_lines mode o (map (MitabParameter.set_valid true) g)
  = map (fun l => MitabParameter.mk (MitabParameter.data l)
                    (line_ok mode o (MitabParameter.data l))) g.
Proof.
  intros E. unfold HoParameterSet.filter_lines, line_ok. rewrite E.
  destruct (taxons o) as [tx|]; [rewrite map_map|]; apply map_ext; intros l; reflexivity.
Qed.

Lemma some_valid_line (f : PSQData -> bool) (g : list MitabParameter.t) :
  Nat.ltb 0 (length (List.filter MitabParameter.valid
                       (map (fun l => MitabParameter.mk (MitabParameter.data l)
                                        (f (MitabParameter.data l))) g)))
  = existsb (fun l => f (MitabParameter.data l)) g.
Proof.
  induction g as [|x g IH]; simpl; [reflexivity|].
  destruct (f (MitabParameter.data x)); simpl; [reflexivity|exact IH].
Qed.

(** One iteration on a position that has an evidence group: the two records
    get the flag [position_ok], and a line is valid when the position is
    and the line satisfies the filters. The flags found at the position do
    not matter. *)
Lemma trim_row_exact mode o index lo hi g st lo' hi' mc' st' :
  HoParameterSet.trim_row mode o index lo hi (Some g) st = Normal (lo', hi', mc', st') ->
  lo' = HoParameter.mk (HoParameter.data lo) (position_ok mode o lo hi g)
  /\ hi' = HoParameter.mk (HoParameter.data hi) (position_ok mode o lo hi g)
  /\ mc' = Some (map (fun l => MitabParameter.mk (MitabParameter.data l)
                                 (position_ok mode o lo hi g
                                  && line_ok mode o (MitabParameter.data l))) g).
Proof.
  unfold HoParameterSet.trim_row.
  destruct (row_thresholds_exact o lo hi (reasons st)) as [rs' ->].
  unfold position_ok, has_filters, HoParameterSet.row_filters, HoParameterSet.row_reset.
  simpl HoParameter.valid.
  destruct (threshold_ok o lo), (threshold_ok o hi); simpl;
    rewrite ?andb_false_r; simpl.
  2-4: (unfold HoParameterSet.row_invalidate; simpl;
        destruct (HoParameterSet.row_identical _ _ _ _ _ _);
        intros E; inversion E; subst; repeat split;
        destruct (negb _); simpl; rewrite ?map_map; reflexivity).
  rewrite andb_true_r.
  destruct (exp_methods o) as [methods|] eqn:Em; simpl.
  - rewrite (filter_lines_methods mode o methods g Em), some_valid_line.
    unfold HoParameterSet.row_invalidate. simpl.
    destruct (existsb _ g); simpl;
      destruct (HoParameterSet.row_identical _ _ _ _ _ _);
      intros E; inversion E; subst; repeat split; rewrite ?map_map; reflexivity.
  - destruct (taxons o) as [tx|] eqn:Et; simpl.
    + rewrite (filter_lines_reset mode o g Em), some_valid_line.
      unfold HoParameterSet.row_invalidate. simpl.
      destruct (existsb _ g); simpl;
        destruct (HoParameterSet.row_identical _ _ _ _ _ _);
        intros E; inversion E; subst; repeat split; rewrite ?map_map; reflexivity.
    + unfold HoParameterSet.row_invalidate. simpl.
      destruct (HoParameterSet.row_identical _ _ _ _ _ _).
      intros E; inversion E; subst. repeat split. rewrite ?map_map.
      f_equal. apply map_ext. intros x. unfold line_ok. by rewrite Em, Et.
Qed.
End TrimExact.

(** ** The loop of [trim], position by position *)

Section TrimPointwise.
Context `{JsBuiltins}.

Lemma head_lookup {A : Type} (l : list A) : head l = l !! 0.
Proof. by destruct l. Qed.

Lemma tail_lookup {A : Type} (l : list A) (k : nat) : tail l !! k = l !! S k.
Proof. by destruct l. Qed.

(** The records the loop leaves at a visited position are those of one
    iteration of its body on what it found there. *)
Lemma trim_loop_pointwise mode o index lows highs mcs st ls hs ms st' :
  HoParameterSet.trim_loop mode o index lows highs mcs st = Normal (ls, hs, ms, st') ->
  forall k lo hi, lows !! k = Some lo -> highs !! k = Some hi ->
    exists st1 st2 lo' hi',
      HoParameterSet.trim_row mode o (index + k) lo hi (mcs !! k) st1
      = Normal (lo', hi', ms !! k, st2)
      /\ ls !! k = Some lo' /\ hs !! k = Some hi'.
Proof.
  revert index highs mcs st ls hs ms st'.
  induction lows as [|lo0 lows IH]; intros index highs mcs st ls hs ms st' E k lo hi Hl Hh.
  { by rewrite lookup_nil in Hl. }
  destruct highs as [|hi0 highs]; [by rewrite lookup_nil in Hh|].
  simpl in E.
  destruct (HoParameterSet.trim_row mode o index lo0 hi0 (head mcs) st)
    as [[[[lo' hi'] mc'] st1]|e] eqn:ER; [|discriminate].
  destruct (HoParameterSet.trim_loop mode o (S index) lows highs (tail mcs) st1)
    as [[[[ls1 hs1] ms1] st2]|e] eqn:EL; [|discriminate].
  inversion E. subst. clear E.
  pose proof (trim_loop_shape _ _ _ _ _ _ _ _ _ _ _ EL) as (_ & _ & L3 & _).
  pose proof (trim_row_Normal _ _ _ _ _ _ _ _ _ _ _ ER) as (_ & _ & _ & _ & Smc).
  assert (Hms : forall j, match mc' with Some m => m :: ms1 | None => ms1 end !! S j = ms1 !! j
                /\ match mc' with Some m => m :: ms1 | None => ms1 end !! 0 = mc').
  { intros j. destruct mc' as [m|]; [by split|].
    assert (Hn : head mcs = None).
    { destruct (head mcs) eqn:Hd; [|reflexivity]. destruct Smc as [_ S2].
      destruct S2 as [? ?]; [eauto|discriminate]. }
    destruct mcs; [|discriminate]. simpl in L3. destruct ms1; [|discriminate]. by split. }
  destruct k as [|k].
  - simpl in Hl, Hh. injection Hl as <-. injection Hh as <-.
    exists st, st1, lo', hi'. rewrite Nat.add_0_r, <- head_lookup.
    rewrite (proj2 (Hms 0)). auto.
  - simpl in Hl, Hh.
    destruct (IH _ _ _ _ _ _ _ _ EL k lo hi Hl Hh) as (sa & sb & lo2 & hi2 & R & Rl & Rh).
    exists sa, sb, lo2, hi2. rewrite (proj1 (Hms k)), <- tail_lookup.
    replace (index + S k) with (S index + k) by lia. auto.
Qed.
End TrimPointwise.

(** ** The flags [trim] leaves *)

Lemma threshold_ok_spec `{JsBuiltins} (o : TrimOptions) (h : HoParameter.t) :
  threshold_ok o h = if logged o then negb (refused o h) else passes o h.
Proof.
  unfold threshold_ok, refused. destruct (logged o); [|reflexivity].
  by rewrite check_logged_valid, !negb_orb.
Qed.

(** X1. Where [trim] returns without [definitive], a position that has an
    evidence group gets the same flag on its two records. The flag is
    [true] exactly when the threshold block leaves both records valid and,
    when a method or a taxon filter is given, some line of the group
    satisfies the filters. The threshold block leaves a record valid,
    without [logged], when its three percentages are [>=] their minima and
    its e-value is [<=] the maximum; with [logged], when no percentage is
    [<] its minimum and the e-value is not [>] the maximum, which a NaN
    value satisfies. A line of the group is valid exactly when the position
    is and the line satisfies the filters. The field vectors and the data
    of the lines are unchanged. *)
Theorem trim_position_flags `{JsBuiltins} (mode : nat) (o : TrimOptions)
    (s s1 : HoParameterSet.t) (rs : list (TrimFailReason * TrimFailReason))
    (i : nat) (lo hi : HoParameter.t) (g : list MitabParameter.t) :
  definitive o = false ->
  HoParameterSet.trim mode o s = Normal (s1, rs) ->
  HoParameterSet.lowQueryParam s !! i = Some lo ->
  HoParameterSet.highQueryParam s !! i = Some hi ->
  HoParameterSet.mitabCouples s !! i = Some g ->
  let ok :=
    (if logged o then negb (refused o lo) && negb (refused o hi)
     else passes o lo && passes o hi)
    && (negb (has_filters o)
        || existsb (fun l => line_ok mode o (MitabParameter.data l)) g) in
  HoParameterSet.lowQueryParam s1 !! i = Some (HoParameter.mk (HoParameter.data lo) ok)
  /\ HoParameterSet.highQueryParam s1 !! i = Some (HoParameter.mk (HoParameter.data hi) ok)
  /\ HoParameterSet.mitabCouples s1 !! i
     = Some (map (fun l => MitabParameter.mk (MitabParameter.data l)
                             (ok && line_ok mode o (MitabParameter.data l))) g).
Proof.
  intros D E Hl Hh Hg ok. unfold HoParameterSet.trim in E. rewrite D in E.
  destruct (HoParameterSet.trim_loop mode o 0 _ _ _ _) as [[[[ls hs] ms] st]|e] eqn:EL;
    [|discriminate].
  inversion E. subst. clear E. simpl.
  destruct (trim_loop_pointwise _ _ _ _ _ _ _ _ _ _ _ EL i lo hi Hl Hh)
    as (sa & sb & lo' & hi' & R & Rl & Rh).
  rewrite Hg in R. apply trim_row_exact in R. destruct R as (-> & -> & R).
  assert (P : position_ok mode o lo hi g = ok).
  { unfold position_ok, ok. rewrite !threshold_ok_spec. by destruct (logged o). }
  rewrite <- P. by rewrite Rl, Rh, R.
Qed.

Lemma trim_position_flags_witness :
  definitive method_filter = false
  /\ @HoParameterSet.trim example_runtime TAXON_EVERY method_filter
       (one_row_with_evidence false)
     = Normal (HoParameterSet.mk
                 [HoParameter.mk good_row true] [HoParameter.mk good_row true]
                 [[MitabParameter.mk line_ab true; MitabParameter.mk line_ac true]] true,
               [])
  /\ [HoParameter.mk good_row true] !! 0 = Some (HoParameter.mk good_row true)
  /\ [[MitabParameter.mk line_ab true; MitabParameter.mk line_ac true]] !! 0
     = Some [MitabParameter.mk line_ab true; MitabParameter.mk line_ac true].
Proof.
  assert (E : @HoParameterSet.trim example_runtime TAXON_EVERY method_filter
                (one_row_with_evidence false)
              = Normal (HoParameterSet.mk
                          [HoParameter.mk good_row true] [HoParameter.mk good_row true]
                          [[MitabParameter.mk line_ab true; MitabParameter.mk line_ac true]]
                          true, []))
    by (vm_compute; reflexivity).
  split; [reflexivity|]. split; [exact E|].
  pose proof (@trim_position_flags example_runtime TAXON_EVERY method_filter
                (one_row_with_evidence false) _ _ 0 _ _ _
                eq_refl E eq_refl eq_refl eq_refl) as (Pl & _ & Pm).
  split; [exact Pl|exact Pm].
Defined.

(** ** [trim] after [trim] *)

Section TrimAgain.
Context `{JsBuiltins}.

(** One iteration reads the field vectors and the data of the lines, not the
    flags it finds. *)
Lemma trim_row_of_data mode o index lo hi mc lo2 hi2 mc2 st :
  HoParameter.data lo2 = HoParameter.data lo ->
  HoParameter.data hi2 = HoParameter.data hi ->
  option_map (map MitabParameter.data) mc2 = option_map (map MitabParameter.data) mc ->
  HoParameterSet.trim_row mode o index lo2 hi2 mc2 st
  = HoParameterSet.trim_row mode o index lo hi mc st.
Proof.
  intros Dl Dh Dm. unfold HoParameterSet.trim_row.
  rewrite (row_thresholds_of_data o lo hi lo2 hi2 _ Dl Dh).
  destruct (HoParameterSet.row_thresholds o lo hi (reasons st)) as [[l h] rs].
  destruct mc as [g|], mc2 as [g2|]; try discriminate; [|reflexivity].
  simpl in Dm. injection Dm as Dm.
  unfold HoParameterSet.row_reset, HoParameterSet.row_filters.
  destruct (exp_methods o) as [methods|] eqn:Em; simpl.
  - assert (E : HoParameterSet.filter_lines mode o g2 = HoParameterSet.filter_lines mode o g).
    { rewrite !(filter_lines_methods mode o methods _ Em).
      rewrite <- (map_map MitabParameter.data
                    (fun d => MitabParameter.mk d (line_ok mode o d)) g2).
      rewrite <- (map_map MitabParameter.data
                    (fun d => MitabParameter.mk d (line_ok mode o d)) g).
      by rewrite Dm. }
    destruct l as [dl [|]], h as [dh [|]]; simpl; rewrite ?E; try reflexivity;
      unfold HoParameterSet.row_invalidate; simpl;
      by rewrite (map_set_valid_of_data false g g2 Dm).
  - by rewrite (map_set_valid_of_data true g g2 Dm).
Qed.

Lemma trim_row_mitab_data mode o index lo hi mc st lo' hi' mc' st' :
  HoParameterSet.trim_row mode o index lo hi mc st = Normal (lo', hi', mc', st') ->
  option_map (map MitabParameter.data) mc' = option_map (map MitabParameter.data) mc.
Proof.
  destruct mc as [g|].
  - intros E. apply trim_row_exact in E. destruct E as (_ & _ & ->). simpl.
    by rewrite map_map.
  - intros E. apply trim_row_Normal in E. destruct E as (_ & _ & _ & _ & S1).
    destruct mc'; [|reflexivity]. destruct S1 as [S1 _]. destruct S1; [eauto|discriminate].
Qed.

(** The loop of a later call runs on what an earlier loop left as it runs
    on what the earlier loop found. *)
Lemma trim_loop_again mode o index lows highs mcs st ls hs ms st' mode2 o2 st2 :
  HoParameterSet.trim_loop mode o index lows highs mcs st = Normal (ls, hs, ms, st') ->
  HoParameterSet.trim_loop mode2 o2 index ls hs ms st2
  = HoParameterSet.trim_loop mode2 o2 index lows highs mcs st2.
Proof.
  revert index highs mcs st ls hs ms st' st2.
  induction lows as [|lo lows IH]; intros index highs mcs st ls hs ms st' st2; simpl.
  { intros E. by inversion E. }
  destruct highs as [|hi highs]; [intros E; by inversion E|].
  destruct (HoParameterSet.trim_row mode o index lo hi (head mcs) st)
    as [[[[lo' hi'] mc'] st1]|e] eqn:ER; [|discriminate].
  destruct (HoParameterSet.trim_loop mode o (S index) lows highs (tail mcs) st1)
    as [[[[ls1 hs1] ms1] st1']|e] eqn:EL; [|discriminate].
  intros E. inversion E. subst. clear E.
  pose proof (trim_loop_shape _ _ _ _ _ _ _ _ _ _ _ EL) as (_ & _ & L3 & _).
  pose proof (trim_row_Normal _ _ _ _ _ _ _ _ _ _ _ ER) as (_ & Dl & Dh & _ & Smc).
  pose proof (trim_row_mitab_data _ _ _ _ _ _ _ _ _ _ _ ER) as Dm.
  assert (Hms : head (match mc' with Some m => m :: ms1 | None => ms1 end) = mc'
                /\ tail (match mc' with Some m => m :: ms1 | None => ms1 end) = ms1).
  { destruct mc' as [m|]; [by split|].
    destruct (head mcs) eqn:Hd; [discriminate|].
    destruct mcs; [|discriminate]. simpl in L3. destruct ms1; [|discriminate]. by split. }
  simpl. destruct Hms as [-> ->].
  rewrite (trim_row_of_data mode2 o2 index lo hi (head mcs) lo' hi' mc' st2 Dl Dh Dm).
  destruct (HoParameterSet.trim_row mode2 o2 index lo hi (head mcs) st2)
    as [[[[lo2 hi2] mc2] st3]|e]; [|reflexivity].
  by rewrite (IH _ _ _ _ _ _ _ _ st3 EL).
Qed.
End TrimAgain.

(** X2. The flags a call of [trim] without [definitive] leaves do not bear on
    a later call: whatever its options, the later call on the set the first
    one left returns or throws as it would on the set the first one found.
    So filters are not cumulative, and calling [trim] again with the same
    options returns the same set and the same reasons. *)
Theorem trim_forgets_flags `{JsBuiltins} (mode mode2 : nat) (o o2 : TrimOptions)
    (s s1 : HoParameterSet.t) (rs : list (TrimFailReason * TrimFailReason)) :
  definitive o = false ->
  HoParameterSet.trim mode o s = Normal (s1, rs) ->
  HoParameterSet.trim mode2 o2 s1 = HoParameterSet.trim mode2 o2 s
  /\ HoParameterSet.trim mode o s1 = Normal (s1, rs).
Proof.
  intros D E.
  assert (G : forall m2 o2, HoParameterSet.trim m2 o2 s1 = HoParameterSet.trim m2 o2 s).
  { intros m2 o2'. unfold HoParameterSet.trim in *. rewrite D in E.
    destruct (HoParameterSet.trim_loop mode o 0 _ _ _ _) as [[[[ls hs] ms] st]|e] eqn:EL;
      [|discriminate].
    inversion E. subst. clear E. simpl.
    by rewrite (trim_loop_again _ _ _ _ _ _ _ _ _ _ _ m2 o2' (mkLocals [] [] []) EL). }
  split; [apply G|]. by rewrite G.
Qed.

Lemma trim_forgets_flags_witness :
  definitive method_filter = false
  /\ @HoParameterSet.trim example_runtime TAXON_EVERY method_filter
       (one_row_with_evidence false)
     = Normal (HoParameterSet.mk
                 [HoParameter.mk good_row true] [HoParameter.mk good_row true]
                 [[MitabParameter.mk line_ab true; MitabParameter.mk line_ac true]] true,
               [])
  /\ @HoParameterSet.trim example_runtime TAXON_SOME logged_similarity_85
       (HoParameterSet.mk
          [HoParameter.mk good_row true] [HoParameter.mk good_row true]
          [[MitabParameter.mk line_ab true; MitabParameter.mk line_ac true]] true)
     = @HoParameterSet.trim example_runtime TAXON_SOME logged_similarity_85
         (one_row_with_evidence false).
Proof.
  assert (E : @HoParameterSet.trim example_runtime TAXON_EVERY method_filter
                (one_row_with_evidence false)
              = Normal (HoParameterSet.mk
                          [HoParameter.mk good_row true] [HoParameter.mk good_row true]
                          [[MitabParameter.mk line_ab true; MitabParameter.mk line_ac true]]
                          true, []))
    by (vm_compute; reflexivity).
  split; [reflexivity|]. split; [exact E|].
  exact (proj1 (@trim_forgets_flags example_runtime TAXON_EVERY TAXON_SOME method_filter
                  logged_similarity_85 (one_row_with_evidence false) _ _ eq_refl E)).
Defined.

(** ** What compaction leaves *)

Section Compacted.
Context `{JsBuiltins}.

Lemma filter_index_elem {A : Type} (p : nat -> bool) (index : nat) (l : list A) (x : A) :
  x ∈ filter_index p index l -> exists k, l !! k = Some x /\ p (index + k) = true.
Proof.
  revert index. induction l as [|a l IH]; intros index; simpl.
  { intros Hx. by apply elem_of_nil in Hx. }
  destruct (p index) eqn:P.
  - intros [->|Hx]%elem_of_cons.
    + exists 0. by rewrite Nat.add_0_r.
    + destruct (IH _ Hx) as (k & Hk & Pk). exists (S k).
      split; [exact Hk|]. by replace (index + S k) with (S index + k) by lia.
  - intros Hx. destruct (IH _ Hx) as (k & Hk & Pk). exists (S k).
    split; [exact Hk|]. by replace (index + S k) with (S index + k) by lia.
Qed.

Lemma filter_index_zip {A B : Type} (p : nat -> bool) (index : nat)
    (l : list A) (k : list B) :
  zip (filter_index p index l) (filter_index p index k) = filter_index p index (zip l k).
Proof.
  revert index k. induction l as [|a l IH]; intros index [|b k]; simpl; try reflexivity.
  - destruct (p index); simpl; [reflexivity|by destruct (filter_index p (S index) l)].
  - destruct (p index); simpl; by rewrite IH.
Qed.

Lemma filter_index_NoDup {A B : Type} (f : A -> B) (p : nat -> bool) (index : nat)
    (l : list A) :
  (forall i j x y, i < j -> l !! i = Some x -> l !! j = Some y ->
                   p (index + i) = true -> p (index + j) = true -> f x <> f y) ->
  NoDup (map f (filter_index p index l)).
Proof.
  revert index. induction l as [|a l IH]; intros index Hd; simpl; [constructor|].
  assert (Hl : NoDup (map f (filter_index p (S index) l))).
  { apply IH. intros i j x y Hij Hi Hj Pi Pj.
    apply (Hd (S i) (S j) x y); [lia|exact Hi|exact Hj| |].
    - by replace (index + S i) with (S index + i) by lia.
    - by replace (index + S j) with (S index + j) by lia. }
  destruct (p index) eqn:P; [|exact Hl]. simpl. constructor; [|exact Hl].
  intros Hin. apply list_elem_of_In in Hin. apply in_map_iff in Hin.
  destruct Hin as (y & Ey & Hy). apply list_elem_of_In in Hy.
  destruct (filter_index_elem _ _ _ _ Hy) as (k & Hk & Pk).
  apply (Hd 0 (S k) a y); [lia|reflexivity|exact Hk| | |congruence].
  - by rewrite Nat.add_0_r.
  - by replace (index + S k) with (S index + k) by lia.
Qed.

(** After the loop the two records of a visited position have one flag. *)
Lemma trim_loop_balanced mode o index lows highs mcs st ls hs ms st' k lo' hi' :
  HoParameterSet.trim_loop mode o index lows highs mcs st = Normal (ls, hs, ms, st') ->
  ls !! k = Some lo' -> hs !! k = Some hi' ->
  k < length lows `min` length highs ->
  HoParameter.valid hi' = HoParameter.valid lo'.
Proof.
  intros E Hl Hh Hk.
  destruct (lookup_lt_is_Some_2 lows k) as [lo Hlo]; [lia|].
  destruct (lookup_lt_is_Some_2 highs k) as [hi Hhi]; [lia|].
  destruct (trim_loop_pointwise _ _ _ _ _ _ _ _ _ _ _ E k lo hi Hlo Hhi)
    as (sa & sb & lo2 & hi2 & R & Rl & Rh).
  rewrite Hl in Rl. rewrite Hh in Rh. injection Rl as <-. injection Rh as <-.
  by apply trim_row_Normal in R as (_ & _ & _ & V & _).
Qed.

Lemma hash_of_data lows highs ls hs k :
  map HoParameter.data ls = map HoParameter.data lows ->
  map HoParameter.data hs = map HoParameter.data highs ->
  hash_of ls hs k = hash_of lows highs k.
Proof.
  intros Dl Dh. unfold hash_of.
  assert (El : HoParameter.data <$> (ls !! k) = HoParameter.data <$> (lows !! k))
    by (by rewrite <- !lookup_map, Dl).
  assert (Eh : HoParameter.data <$> (hs !! k) = HoParameter.data <$> (highs !! k))
    by (by rewrite <- !lookup_map, Dh).
  destruct (ls !! k), (lows !! k); try discriminate; [|reflexivity].
  destruct (hs !! k), (highs !! k); try discriminate; [|reflexivity].
  simpl in El, Eh. injection El as El. injection Eh as Eh.
  unfold row_hash. by rewrite El, Eh.
Qed.
End Compacted.

(** X3. [trim] with [definitive] on a set whose two homology sequences have
    one length leaves only valid records, on both sides: the [length]
    getter counts every position left. Under [destroy_identical] no two
    positions left have the same content key. *)
Theorem trim_definitive_valid `{JsBuiltins} (mode : nat) (o : TrimOptions)
    (s s' : HoParameterSet.t) (rs : list (TrimFailReason * TrimFailReason)) :
  length (HoParameterSet.lowQueryParam s) = length (HoParameterSet.highQueryParam s) ->
  definitive o = true ->
  HoParameterSet.trim mode o s = Normal (s', rs) ->
  Forall (fun h => HoParameter.valid h = true) (HoParameterSet.lowQueryParam s')
  /\ Forall (fun h => HoParameter.valid h = true) (HoParameterSet.highQueryParam s')
  /\ HoParameterSet.length s' = length (HoParameterSet.lowQueryParam s')
  /\ (destroy_identical o = true ->
      NoDup (map (fun p => row_hash p.1 p.2)
                 (zip (HoParameterSet.lowQueryParam s') (HoParameterSet.highQueryParam s')))).
Proof.
  intros P D E. unfold HoParameterSet.trim in E. rewrite D in E.
  destruct (HoParameterSet.trim_loop mode o 0 _ _ _ _) as [[[[ls hs] ms] st]|e] eqn:EL;
    [|discriminate].
  inversion E. subst. clear E. simpl.
  pose proof (trim_loop_shape _ _ _ _ _ _ _ _ _ _ _ EL) as (L1 & L2 & _ & D1 & D2).
  destruct (trim_loop_marks _ _ _ _ _ _ _ _ _ _ _ EL) as (_ & M).
  set (keep := fun index => negb (includes (to_remove st) index)).
  assert (Hkeep : forall k, keep k = true -> k ∉ to_remove st).
  { intros k Hk Hin. apply includes_elem_of in Hin. unfold keep in Hk.
    rewrite Hin in Hk. discriminate. }
  assert (Hhash : forall k, k < length ls ->
            exists h, hash_of (HoParameterSet.lowQueryParam s)
                        (HoParameterSet.highQueryParam s) k = Some h).
  { intros k Hk. unfold hash_of.
    destruct (lookup_lt_is_Some_2 (HoParameterSet.lowQueryParam s) k) as [lo ->]; [lia|].
    destruct (lookup_lt_is_Some_2 (HoParameterSet.highQueryParam s) k) as [hi ->]; [lia|].
    eauto. }
  assert (Vl : forall k lo', ls !! k = Some lo' -> keep k = true ->
                             HoParameter.valid lo' = true).
  { intros k lo' Hl Hk. destruct (HoParameter.valid lo') eqn:V; [reflexivity|].
    exfalso. apply (Hkeep k Hk). apply M. right.
    destruct (Hhash k) as [h Hh]; [by apply lookup_lt_Some in Hl|].
    exists k, h. split; [reflexivity|]. split; [exact Hh|]. left. eauto. }
  assert (Fl : Forall (fun h => HoParameter.valid h = true) (filter_index keep 0 ls)).
  { apply Forall_forall. intros x Hx.
    destruct (filter_index_elem _ _ _ _ Hx) as (k & Hk & Pk). by apply (Vl k). }
  split; [exact Fl|]. split; [|split].
  - apply Forall_forall. intros y Hy.
    destruct (filter_index_elem _ _ _ _ Hy) as (k & Hk & Pk). simpl in Pk.
    pose proof (lookup_lt_Some _ _ _ Hk) as Hlt.
    destruct (lookup_lt_is_Some_2 ls k) as [lo' Hlo]; [lia|].
    rewrite (trim_loop_balanced _ _ _ _ _ _ _ _ _ _ _ k lo' y EL Hlo Hk); [|lia].
    by apply (Vl k).
  - unfold HoParameterSet.length. simpl. f_equal.
    induction Fl as [|x l Hx Fl IH]; simpl; [reflexivity|]. by rewrite Hx, IH.
  - intros Di. rewrite filter_index_zip. apply filter_index_NoDup.
    intros i j x y Hij Hi Hj Pi Pj Eh. simpl in Pi, Pj.
    apply (Hkeep j Pj). apply M. right.
    destruct x as [xl xh], y as [yl yh].
    apply lookup_zip_with_Some in Hi. destruct Hi as (a & b & Ea & Hia & Hib).
    apply lookup_zip_with_Some in Hj. destruct Hj as (c & d & Ec & Hja & Hjb).
    injection Ea as -> ->. injection Ec as -> ->.
    exists j, (row_hash c d). split; [reflexivity|].
    assert (Hj' : hash_of (HoParameterSet.lowQueryParam s)
                    (HoParameterSet.highQueryParam s) j = Some (row_hash c d)).
    { rewrite <- (hash_of_data _ _ ls hs j D1 D2). unfold hash_of. by rewrite Hja, Hjb. }
    split; [exact Hj'|]. right. split; [exact Di|]. right. exists i. split; [exact Hij|].
    rewrite <- (hash_of_data _ _ ls hs i D1 D2). unfold hash_of. rewrite Hia, Hib.
    simpl in Eh. by rewrite Eh.
Qed.

Lemma trim_definitive_valid_witness :
  length (HoParameterSet.lowQueryParam three_rows)
  = length (HoParameterSet.highQueryParam three_rows)
  /\ definitive (with_definitive true identical_filter) = true
  /\ @HoParameterSet.trim example_runtime TAXON_EVERY
       (with_definitive true identical_filter) three_rows
     = Normal (HoParameterSet.mk [HoParameter.mk good_row true]
                                 [HoParameter.mk good_row true] [[]] true, [])
  /\ HoParameterSet.length
       (HoParameterSet.mk [HoParameter.mk good_row true]
                          [HoParameter.mk good_row true] [[]] true)
     = 1.
Proof.
  assert (E : @HoParameterSet.trim example_runtime TAXON_EVERY
                (with_definitive true identical_filter) three_rows
              = Normal (HoParameterSet.mk [HoParameter.mk good_row true]
                                          [HoParameter.mk good_row true] [[]] true, []))
    by (vm_compute; reflexivity).
  split; [reflexivity|]. split; [reflexivity|]. split; [exact E|].
  exact (proj1 (proj2 (proj2 (@trim_definitive_valid example_runtime TAXON_EVERY
                                (with_definitive true identical_filter) three_rows _ _
                                eq_refl eq_refl E)))).
Defined.

(** ** Field vectors that give no number *)

Section MissingFields.
Context `{JsBuiltins}.

(** A field vector of fewer than ten fields has no e-value field: the
    e-value is [Number(undefined)]. *)
Lemma short_vector_nan (h : HoParameter.t) :
  length (HoParameter.data h) < 10 -> derives_nan h = true.
Proof.
  intros L. unfold derives_nan, HoParameter.eValue, Number_at.
  rewrite (lookup_ge_None_2 (HoParameter.data h) 9) by lia.
  by rewrite !orb_true_r.
Qed.
End MissingFields.

(** X4. Without [logged], [trim] invalidates, on both sides, every visited
    position where a derived value of one of the two records is NaN; this
    is the case of every record whose field vector has fewer than ten
    fields, such as one added from an empty vector. *)
Theorem trim_invalidates_nan `{JsBuiltins} (mode : nat) (o : TrimOptions)
    (s s1 : HoParameterSet.t) (rs : list (TrimFailReason * TrimFailReason))
    (i : nat) (lo hi : HoParameter.t) :
  logged o = false ->
  definitive o = false ->
  HoParameterSet.trim mode o s = Normal (s1, rs) ->
  HoParameterSet.lowQueryParam s !! i = Some lo ->
  HoParameterSet.highQueryParam s !! i = Some hi ->
  derives_nan lo = true \/ derives_nan hi = true
  \/ length (HoParameter.data lo) < 10 \/ length (HoParameter.data hi) < 10 ->
  flags (HoParameterSet.lowQueryParam s1) !! i = Some false
  /\ flags (HoParameterSet.highQueryParam s1) !! i = Some false.
Proof.
  intros L D E Hl Hh N. unfold HoParameterSet.trim in E. rewrite D in E.
  destruct (HoParameterSet.trim_loop mode o 0 _ _ _ _) as [[[[ls hs] ms] st]|e] eqn:EL;
    [|discriminate].
  inversion E. subst. clear E. simpl.
  destruct (trim_loop_pointwise _ _ _ _ _ _ _ _ _ _ _ EL i lo hi Hl Hh)
    as (sa & sb & lo' & hi' & R & Rl & Rh).
  assert (N' : derives_nan lo = true \/ derives_nan hi = true).
  { destruct N as [N|[N|[N|N]]]; auto using short_vector_nan. }
  destruct (trim_row_silent_nan _ _ _ _ _ _ _ _ _ _ _ L N' R) as [Vl Vh].
  unfold flags. rewrite !lookup_map, Rl, Rh. simpl. by rewrite Vl, Vh.
Qed.

Lemma trim_invalidates_nan_witness :
  logged default_options = false
  /\ definitive default_options = false
  /\ @HoParameterSet.trim example_runtime TAXON_EVERY default_options
       (HoParameterSet.add [] good_row one_good_row)
     = Normal (HoParameterSet.mk
                 [HoParameter.mk good_row true; HoParameter.mk [] false]
                 [HoParameter.mk good_row true; HoParameter.mk good_row false]
                 [[]; []] true, [])
  /\ flags [HoParameter.mk good_row true; HoParameter.mk [] false] !! 1 = Some false.
Proof.
  assert (E : @HoParameterSet.trim example_runtime TAXON_EVERY default_options
                (HoParameterSet.add [] good_row one_good_row)
              = Normal (HoParameterSet.mk
                          [HoParameter.mk good_row true; HoParameter.mk [] false]
                          [HoParameter.mk good_row true; HoParameter.mk good_row false]
                          [[]; []] true, []))
    by (vm_compute; reflexivity).
  split; [reflexivity|]. split; [reflexivity|]. split; [exact E|].
  refine (proj1 (@trim_invalidates_nan example_runtime TAXON_EVERY default_options
                   (HoParameterSet.add [] good_row one_good_row) _ _ 1
                   (HoParameter.new []) (HoParameter.new good_row)
                   eq_refl eq_refl E eq_refl eq_refl _)).
  right. right. left. simpl. lia.
Defined.

(** ** The iterators of the set *)

Section Iterators.

Lemma zip3_length {A B C : Type} (l1 : list A) (l2 : list B) (l3 : list C) :
  length (HoParameterSet.zip3 l1 l2 l3) = length l1 `min` (length l2 `min` length l3).
Proof.
  revert l2 l3. induction l1 as [|a l1 IH]; intros [|b l2] [|c l3]; simpl; auto.
Qed.

Lemma omap_cons_Some {A B : Type} (f : A -> option B) (x : A) (y : B) (l : list A) :
  f x = Some y -> omap f (x :: l) = y :: omap f l.
Proof. intros E. simpl. by rewrite E. Qed.

Lemma omap_cons_None {A B : Type} (f : A -> option B) (x : A) (l : list A) :
  f x = None -> omap f (x :: l) = omap f l.
Proof. intros E. simpl. by rewrite E. Qed.

Lemma full_iterator_all_length (s : HoParameterSet.t) :
  length (HoParameterSet.full_iterator false s)
  = length (HoParameterSet.lowQueryParam s)
    `min` (length (HoParameterSet.highQueryParam s)
           `min` length (HoParameterSet.mitabCouples s)).
Proof.
  unfold HoParameterSet.full_iterator. rewrite <- zip3_length.
  induction (HoParameterSet.zip3 _ _ _) as [|[[lo hi] g] l IH]; [reflexivity|].
  rewrite (omap_cons_Some _ _ (lo, hi, map MitabParameter.data g)) by reflexivity.
  simpl. by rewrite IH.
Qed.

(** The evidence [toString] writes for the low records [lows], the first of
    which is at the index [length pre] of the groups [pre ++ mcs]. *)
Lemma full_iterator_visible (pre : list (list MitabParameter.t))
    (lows highs : list HoParameter.t) (mcs : list (list MitabParameter.t)) :
  length highs = length mcs ->
  Forall2 (fun lo hi => HoParameter.valid hi = HoParameter.valid lo) lows highs ->
  map (fun y => y.1.1) (omap (HoParameterSet.yield_row true)
                             (HoParameterSet.zip3 lows highs mcs))
  = List.filter HoParameter.valid lows
  /\ map (fun y => y.1.2) (omap (HoParameterSet.yield_row true)
                                (HoParameterSet.zip3 lows highs mcs))
     = List.filter HoParameter.valid highs
  /\ map snd (omap (HoParameterSet.yield_row true) (HoParameterSet.zip3 lows highs mcs))
     = omap (fun p : nat * HoParameter.t =>
               if HoParameter.valid p.2 then
                 (fun group => map MitabParameter.data
                                   (List.filter MitabParameter.valid group))
                   <$> (pre ++ mcs) !! p.1
               else None)
            (zip (seq (length pre) (length lows)) lows).
Proof.
  intros L2 F. revert pre mcs L2.
  induction F as [|lo hi lows highs V F IH]; intros pre mcs L2.
  { simpl. auto. }
  destruct mcs as [|g mcs]; [discriminate|]. simpl in L2. injection L2 as L2.
  specialize (IH (pre ++ [g]) mcs L2).
  rewrite <- app_assoc, length_app in IH. simpl in IH.
  replace (length pre + 1) with (S (length pre)) in IH by lia.
  destruct IH as (I1 & I2 & I3).
  change (HoParameterSet.zip3 (lo :: lows) (hi :: highs) (g :: mcs))
    with ((lo, hi, g) :: HoParameterSet.zip3 lows highs mcs).
  change (zip (seq (length pre) (length (lo :: lows))) (lo :: lows))
    with ((length pre, lo) :: zip (seq (S (length pre)) (length lows)) lows).
  destruct (HoParameter.valid lo) eqn:Vl.
  - rewrite (omap_cons_Some (HoParameterSet.yield_row true) (lo, hi, g)
               (lo, hi, map MitabParameter.data (List.filter MitabParameter.valid g)))
      by (simpl; by rewrite V, Vl).
    rewrite (omap_cons_Some _ (length pre, lo)
               (map MitabParameter.data (List.filter MitabParameter.valid g))).
    2:{ simpl. rewrite Vl, (lookup_app_r pre (g :: mcs) (length pre)) by lia.
        by rewrite Nat.sub_diag. }
    simpl map. simpl List.filter. rewrite V, Vl, I1, I2, I3. auto.
  - rewrite (omap_cons_None (HoParameterSet.yield_row true) (lo, hi, g))
      by (simpl; by rewrite V, Vl).
    rewrite (omap_cons_None _ (length pre, lo)) by (simpl; by rewrite Vl).
    simpl List.filter. rewrite V, Vl. auto.
Qed.
End Iterators.

(** X5. [full_iterator] without [visible_only] yields one element for every
    position that has a low record, a high record and an evidence group,
    and the iterator of the set one for every position that has the two
    records. On a set rebuilt by [from], whose [mitabCouples] is empty,
    [full_iterator] yields nothing while the iterator of the set yields
    every pair of rows; after [remove] both yield nothing and the set is
    empty. *)
Theorem iterators_yield (s : HoParameterSet.t) (obj : HoParameterSet.serialized)
    (visible_only : bool) :
  length (HoParameterSet.full_iterator false s)
  = length (HoParameterSet.lowQueryParam s)
    `min` (length (HoParameterSet.highQueryParam s)
           `min` length (HoParameterSet.mitabCouples s))
  /\ length (HoParameterSet.iterator s)
     = length (HoParameterSet.lowQueryParam s) `min` length (HoParameterSet.highQueryParam s)
  /\ HoParameterSet.full_iterator visible_only (HoParameterSet.from obj) = []
  /\ length (HoParameterSet.iterator (HoParameterSet.from obj))
     = length (HoParameterSet.ser_lowQueryParam obj)
       `min` length (HoParameterSet.ser_highQueryParam obj)
  /\ HoParameterSet.full_iterator visible_only (HoParameterSet.remove s) = []
  /\ HoParameterSet.iterator (HoParameterSet.remove s) = []
  /\ HoParameterSet.isEmpty (HoParameterSet.remove s) = true.
Proof.
  split; [apply full_iterator_all_length|]. split; [apply length_zip|].
  split.
  { unfold HoParameterSet.full_iterator, HoParameterSet.from. simpl.
    destruct (map _ (HoParameterSet.ser_lowQueryParam obj)) as [|? ?]; [reflexivity|].
    simpl. by destruct (map _ (HoParameterSet.ser_highQueryParam obj)). }
  split.
  { unfold HoParameterSet.iterator, HoParameterSet.from. simpl.
    by rewrite length_zip, !length_map. }
  auto.
Qed.

Section IterateAfterTrim.
Context `{JsBuiltins}.

Lemma Forall2_filter_index {A B : Type} (P : A -> B -> Prop) (p : nat -> bool)
    (index : nat) (l : list A) (k : list B) :
  Forall2 P l k -> Forall2 P (filter_index p index l) (filter_index p index k).
Proof.
  intros F. revert index. induction F as [|x y l k Hxy F IH]; intros index; simpl.
  { constructor. }
  destruct (p index); [constructor; [exact Hxy|]|]; apply IH.
Qed.

(** After [trim] on a set whose homology sequences have one length, the two
    records of every position have one flag. *)
Lemma trim_balanced mode o s s' rs :
  length (HoParameterSet.lowQueryParam s) = length (HoParameterSet.highQueryParam s) ->
  HoParameterSet.trim mode o s = Normal (s', rs) ->
  Forall2 (fun lo hi => HoParameter.valid hi = HoParameter.valid lo)
          (HoParameterSet.lowQueryParam s') (HoParameterSet.highQueryParam s').
Proof.
  intros P E. unfold HoParameterSet.trim in E.
  destruct (HoParameterSet.trim_loop mode o 0 _ _ _ _) as [[[[ls hs] ms] st]|e] eqn:EL;
    [|discriminate].
  pose proof (trim_loop_shape _ _ _ _ _ _ _ _ _ _ _ EL) as (L1 & L2 & _).
  assert (F : Forall2 (fun lo hi => HoParameter.valid hi = HoParameter.valid lo) ls hs).
  { apply Forall2_same_length_lookup_2; [lia|]. intros k lo' hi' Hl Hh.
    apply (trim_loop_balanced _ _ _ _ _ _ _ _ _ _ _ k lo' hi' EL Hl Hh).
    apply lookup_lt_Some in Hl. lia. }
  destruct (definitive o); inversion E; subst; simpl; [|exact F].
  by apply Forall2_filter_index.
Qed.
End IterateAfterTrim.

(** X6. After [trim] on a set whose three sequences have one length,
    [full_iterator] with [visible_only] yields the valid low records with
    the valid high records, position by position, and with the evidence
    [toString] writes. It yields as many elements as the [length] getter
    counts, and the two lists of the [templates] getter have that length. *)
Theorem full_iterator_after_trim `{JsBuiltins} (mode : nat) (o : TrimOptions)
    (s s' : HoParameterSet.t) (rs : list (TrimFailReason * TrimFailReason)) :
  parallel s ->
  HoParameterSet.trim mode o s = Normal (s', rs) ->
  map (fun y => y.1.1) (HoParameterSet.full_iterator true s')
  = List.filter HoParameter.valid (HoParameterSet.lowQueryParam s')
  /\ map (fun y => y.1.2) (HoParameterSet.full_iterator true s')
     = List.filter HoParameter.valid (HoParameterSet.highQueryParam s')
  /\ map snd (HoParameterSet.full_iterator true s') = retained_evidence s'
  /\ length (HoParameterSet.full_iterator true s') = HoParameterSet.length s'
  /\ length (HoParameterSet.templates s').1 = HoParameterSet.length s'
  /\ length (HoParameterSet.templates s').2 = HoParameterSet.length s'.
Proof.
  intros P E.
  pose proof (trim_parallel mode o s s' rs P E) as [P1 P2].
  pose proof (trim_balanced mode o s s' rs (proj1 P) E) as F.
  destruct (full_iterator_visible [] _ _ _ P2 F) as (I1 & I2 & I3).
  fold (HoParameterSet.full_iterator true s') in I1, I2, I3.
  split; [exact I1|]. split; [exact I2|]. split; [exact I3|].
  assert (L : length (HoParameterSet.full_iterator true s') = HoParameterSet.length s').
  { unfold HoParameterSet.length. by rewrite <- I1, length_map. }
  split; [exact L|]. unfold HoParameterSet.templates. simpl. rewrite !length_map.
  split; [reflexivity|]. by rewrite <- L, <- I2, length_map.
Qed.

Lemma full_iterator_after_trim_witness :
  parallel (one_row_with_evidence false)
  /\ @HoParameterSet.trim example_runtime TAXON_EVERY method_filter
       (one_row_with_evidence false)
     = Normal (HoParameterSet.mk
                 [HoParameter.mk good_row true] [HoParameter.mk good_row true]
                 [[MitabParameter.mk line_ab true; MitabParameter.mk line_ac true]] true,
               [])
  /\ map snd (HoParameterSet.full_iterator true
                (HoParameterSet.mk
                   [HoParameter.mk good_row true] [HoParameter.mk good_row true]
                   [[MitabParameter.mk line_ab true; MitabParameter.mk line_ac true]] true))
     = retained_evidence
         (HoParameterSet.mk
            [HoParameter.mk good_row true] [HoParameter.mk good_row true]
            [[MitabParameter.mk line_ab true; MitabParameter.mk line_ac true]] true).
Proof.
  assert (P : parallel (one_row_with_evidence false)) by (split; reflexivity).
  assert (E : @HoParameterSet.trim example_runtime TAXON_EVERY method_filter
                (one_row_with_evidence false)
              = Normal (HoParameterSet.mk
                          [HoParameter.mk good_row true] [HoParameter.mk good_row true]
                          [[MitabParameter.mk line_ab true; MitabParameter.mk line_ac true]]
                          true, []))
    by (vm_compute; reflexivity).
  split; [exact P|]. split; [exact E|].
  exact (proj1 (proj2 (proj2 (@full_iterator_after_trim example_runtime TAXON_EVERY
                                method_filter (one_row_with_evidence false) _ _ P E)))).
Defined.

(** ** What [trim] throws on *)

Section TrimThrows.
Context `{JsBuiltins}.


End TrimThrows.


(** ** Invariants of the stores the methods build *)

Section StoreInvariants.
Context `{JsBuiltins}.
Variable equal : PSQData -> PSQData -> bool.

Import ReversibleKeyMap.

Lemma get_elem {V : Type} (r : t V) (a b : string) (v : V) :
  get r a b = Some v -> exists k, (k, v) ∈ r /\ key_match k a b = true.
Proof.
  induction r as [|[k w] r IH]; simpl; [discriminate|].
  destruct (key_match k a b) eqn:K.
  - intros [= ->]. exists k. split; [left|exact K].
  - intros G. destruct (IH G) as (k' & Hin & K'). exists k'. split; [by right|exact K'].
Qed.

Lemma set_elem {V : Type} (r : t V) (a b : string) (v : V) (e : (string * string) * V) :
  e ∈ set r a b v -> e ∈ r \/ e.2 = v.
Proof.
  induction r as [|[k w] r IH]; simpl.
  { intros ->%list_elem_of_singleton. by right. }
  destruct (key_match k a b).
  - intros [->|He]%elem_of_cons; [by right|left; by right].
  - intros [->|He]%elem_of_cons; [left; left|].
    destruct (IH He); [left; by right|by right].
Qed.

Lemma deduplicated_update (s : PSICQuic.t) (psq : PSQData) :
  deduplicated equal (PSICQuic.records s) ->
  deduplicated equal (PSICQuic.records (PSICQuic.update equal s psq)).
Proof.
  intros Dd. unfold PSICQuic.update. destruct (ids psq) as [id1 id2].
  destruct (forallb _ _) eqn:F; [|exact Dd]. simpl.
  unfold deduplicated in *. rewrite Forall_forall in *. intros e He.
  destruct (set_elem _ _ _ _ _ He) as [Hin| ->]; [by apply Dd|].
  rewrite getLines_get in *.
  assert (Hold : distinct_entries equal
                   (default [] (get (PSICQuic.records s) id1 id2))).
  { destruct (get (PSICQuic.records s) id1 id2) as [v|] eqn:G; simpl.
    - destruct (get_elem _ _ _ _ G) as (k & Hin & _). exact (Dd _ Hin).
    - intros i j a b _ Hi. by rewrite lookup_nil in Hi. }
  intros i j a b Hij Hi Hj.
  destruct (decide (j < length (default [] (get (PSICQuic.records s) id1 id2)))) as [Hlt|Hge].
  - rewrite lookup_app_l in Hi by lia. rewrite lookup_app_l in Hj by lia.
    exact (Hold i j a b Hij Hi Hj).
  - pose proof (lookup_lt_Some _ _ _ Hj) as Hb. rewrite length_app in Hb. simpl in Hb.
    rewrite lookup_app_l in Hi by lia.
    rewrite lookup_app_r in Hj by lia.
    destruct (j - length (default [] (get (PSICQuic.records s) id1 id2))) as [|n] eqn:En;
      [|simpl in Hj; by rewrite lookup_nil in Hj].
    simpl in Hj. injection Hj as <-.
    rewrite forallb_forall in F. apply list_elem_of_lookup_2, list_elem_of_In in Hi.
    specialize (F a Hi). by apply negb_true_iff in F.
Qed.

Lemma deduplicated_plus_line (s : PSICQuic.t) (line : PSQData) :
  deduplicated equal (PSICQuic.records s) ->
  deduplicated equal (PSICQuic.records (PSICQuic.plus_line equal s line)).
Proof.
  intros Dd. rewrite plus_line_records. destruct (conflict s line); [exact Dd|].
  by apply deduplicated_update.
Qed.

Lemma deduplicated_plus (self other : PSICQuic.t) :
  deduplicated equal (PSICQuic.records self) ->
  deduplicated equal (PSICQuic.records (PSICQuic.plus equal self other)).
Proof.
  rewrite plus_lines. generalize (PSICQuic.lines other). intros l. revert self.
  induction l as [|x l IH]; intros self Dd; simpl; [exact Dd|].
  apply IH. by apply deduplicated_plus_line.
Qed.
End StoreInvariants.

Lemma built_well_keyed `{JsBuiltins} (equal : PSQData -> PSQData -> bool)
    (s : PSICQuic.t) :
  built equal s -> well_keyed (PSICQuic.records s).
Proof.
  induction 1 as [|s psq B W|s line B W|s other B W|s B W].
  - exact I.
  - by apply well_keyed_update.
  - by rewrite checkPsqData_records.
  - by apply well_keyed_plus.
  - exact I.
Qed.

(** X8. Every store the methods build keeps two invariants: no two entries
    of its map have the same unordered pair and every line is filed under
    the pair of its own identifiers; and no sequence holds an entry that is
    equal, by the equality of the record type, to a later one. *)
Theorem built_invariants `{JsBuiltins} (equal : PSQData -> PSQData -> bool)
    (s : PSICQuic.t) :
  built equal s ->
  well_keyed (PSICQuic.records s) /\ deduplicated equal (PSICQuic.records s).
Proof.
  intros B. split; [by apply (built_well_keyed equal)|].
  induction B as [|s psq B Dd|s line B Dd|s other B Dd|s B Dd].
  - constructor.
  - by apply deduplicated_update.
  - by rewrite checkPsqData_records.
  - by apply deduplicated_plus.
  - constructor.
Qed.

Lemma built_invariants_witness :
  @built example_runtime example_equal store_mint
  /\ well_keyed (PSICQuic.records store_mint)
  /\ deduplicated example_equal (PSICQuic.records store_mint).
Proof.
  assert (B : @built example_runtime example_equal store_mint).
  { unfold store_mint, store_ac. apply built_update, built_update, built_new. }
  split; [exact B|].
  exact (@built_invariants example_runtime example_equal store_mint B).
Defined.

(** ** Reading what was stored *)

Section Lookup.
Context `{JsBuiltins}.
Variable equal : PSQData -> PSQData -> bool.

Import ReversibleKeyMap.

Lemma has_of_get {V : Type} (r : t V) (a b : string) (v : V) :
  get r a b = Some v -> has r a = true /\ has r b = true.
Proof.
  intros G. destruct (get_elem _ _ _ _ G) as (k & Hin & K).
  apply bool_decide_eq_true in K. unfold has.
  split; apply existsb_exists; exists (k, v);
    (split; [by apply list_elem_of_In|]); apply bool_decide_eq_true; simpl; naive_solver.
Qed.

Lemma getAllFrom_elem {V : Type} (r : t V) (id : string) (v : V) :
  v ∈ getAllFrom r id <-> exists k, (k, v) ∈ r /\ (k.1 = id \/ k.2 = id).
Proof.
  unfold getAllFrom. rewrite list_elem_of_In, in_map_iff. split.
  - intros ([k w] & <- & Hin). apply filter_In in Hin. destruct Hin as [Hin P].
    apply bool_decide_eq_true in P. exists k. split; [by apply list_elem_of_In|exact P].
  - intros (k & Hin & P). exists (k, v). split; [reflexivity|]. apply filter_In.
    split; [by apply list_elem_of_In|]. by apply bool_decide_eq_true.
Qed.

(** [get(id)] gives the lines of the pairs that include [id], and nothing
    for an identifier of no pair. *)
Lemma get_elem_of (s : PSICQuic.t) (id : string) (l : PSQData) :
  l ∈ PSICQuic.get s id
  <-> exists k v, (k, v) ∈ PSICQuic.records s /\ (k.1 = id \/ k.2 = id) /\ l ∈ v.
Proof.
  unfold PSICQuic.get, PSICQuic.has. split.
  - destruct (has (PSICQuic.records s) id); [|intros Hl; by apply elem_of_nil in Hl].
    intros Hl. apply list_elem_of_In, in_concat in Hl. destruct Hl as (v & Hv & Hl).
    apply list_elem_of_In, getAllFrom_elem in Hv. destruct Hv as (k & Hin & P).
    exists k, v. split; [exact Hin|]. split; [exact P|by apply list_elem_of_In].
  - intros (k & v & Hin & P & Hl).
    assert (Hh : has (PSICQuic.records s) id = true).
    { apply existsb_exists. exists (k, v). split; [by apply list_elem_of_In|].
      by apply bool_decide_eq_true. }
    rewrite Hh. apply list_elem_of_In, in_concat. exists v.
    split; [|by apply list_elem_of_In].
    apply list_elem_of_In, getAllFrom_elem. eauto.
Qed.

Lemma has_equal_update (s : PSICQuic.t) (psq : PSQData) :
  (forall d, equal d d = true) ->
  has_equal equal (PSICQuic.update equal s psq) psq = true.
Proof.
  intros Hrefl. unfold has_equal. rewrite getLines_update.
  destruct (has_equal equal s psq) eqn:E; simpl; [exact E|].
  destruct (ids psq) as [id1 id2]. simpl. rewrite key_match_refl.
  rewrite existsb_app. simpl. by rewrite Hrefl, orb_true_r.
Qed.

(** A sequence of the store is a prefix of what it is after [update]. *)
Lemma getLines_update_prefix (s : PSICQuic.t) (psq : PSQData) (c d : string) :
  PSICQuic.getLines s c d `prefix_of` PSICQuic.getLines (PSICQuic.update equal s psq) c d.
Proof.
  rewrite getLines_update.
  destruct (negb _ && key_match (ids psq) c d) eqn:K; [|reflexivity].
  apply andb_true_iff in K. destruct K as [_ K]. destruct (ids psq) as [id1 id2]. simpl.
  rewrite !getLines_get, (get_same_pair (PSICQuic.records s) id1 id2 c d K).
  by apply prefix_app_r.
Qed.

Lemma getLines_plus_line_prefix (s : PSICQuic.t) (x : PSQData) (c d : string) :
  PSICQuic.getLines s c d `prefix_of` PSICQuic.getLines (PSICQuic.plus_line equal s x) c d.
Proof.
  rewrite (getLines_get (PSICQuic.plus_line equal s x)), plus_line_records.
  destruct (conflict s x); [by rewrite <- getLines_get|].
  rewrite <- getLines_get.
  assert (E : PSICQuic.getLines s c d
              = PSICQuic.getLines (PSICQuic.mk (PSICQuic.records s)
                                     (PSICQuic.registredPublications s)) c d)
    by (by rewrite !getLines_get).
  rewrite E. apply getLines_update_prefix.
Qed.
End Lookup.

(** X9. Where the equality of records holds of every record with itself:
    after [update] of a record, the sequence of its pair holds an entry
    equal to it, the pair is known by either ordering, both identifiers are
    known, and [get] of either identifier gives an entry equal to it. *)
Theorem update_then_lookup (equal : PSQData -> PSQData -> bool) (s : PSICQuic.t)
    (psq : PSQData) :
  (forall d, equal d d = true) ->
  let s' := PSICQuic.update equal s psq in
  (exists l, l ∈ PSICQuic.getLines s' (ids psq).1 (ids psq).2 /\ equal l psq = true)
  /\ PSICQuic.hasCouple s' (ids psq).1 (ids psq).2 = true
  /\ PSICQuic.hasCouple s' (ids psq).2 (ids psq).1 = true
  /\ PSICQuic.has s' (ids psq).1 = true
  /\ PSICQuic.has s' (ids psq).2 = true
  /\ (exists l, l ∈ PSICQuic.get s' (ids psq).1 /\ equal l psq = true)
  /\ (exists l, l ∈ PSICQuic.get s' (ids psq).2 /\ equal l psq = true).
Proof.
  intros Hrefl s'.
  pose proof (has_equal_update equal s psq Hrefl) as E. fold s' in E.
  unfold has_equal in E. apply existsb_exists in E. destruct E as (l & Hl & E).
  apply list_elem_of_In in Hl.
  assert (G : exists v, ReversibleKeyMap.get (PSICQuic.records s') (ids psq).1 (ids psq).2
                        = Some v /\ l ∈ v).
  { rewrite getLines_get in Hl.
    destruct (ReversibleKeyMap.get (PSICQuic.records s') (ids psq).1 (ids psq).2) as [v|];
      [eauto|]. by apply elem_of_nil in Hl. }
  destruct G as (v & G & Hv).
  destruct (has_of_get _ _ _ _ G) as [H1 H2].
  destruct (get_elem _ _ _ _ G) as (k & Hin & K). apply bool_decide_eq_true in K.
  split; [eauto|].
  split; [unfold PSICQuic.hasCouple, ReversibleKeyMap.hasCouple; by rewrite G|].
  split; [unfold PSICQuic.hasCouple, ReversibleKeyMap.hasCouple;
          by rewrite get_symmetric, G|].
  split; [exact H1|]. split; [exact H2|].
  split; exists l; (split; [|exact E]); apply get_elem_of; exists k, v;
    (split; [exact Hin|]); (split; [|exact Hv]); naive_solver.
Qed.

Lemma update_then_lookup_witness :
  (forall d, example_equal d d = true)
  /\ PSICQuic.hasCouple (PSICQuic.update example_equal store_ab line_ac) "C" "A" = true
  /\ PSICQuic.has (PSICQuic.update example_equal store_ab line_ac) "C" = true.
Proof.
  assert (R : forall d, example_equal d d = true).
  { intros d. unfold example_equal.
    rewrite !String.eqb_refl, !bool_decide_eq_true_2; reflexivity. }
  split; [exact R|].
  pose proof (update_then_lookup example_equal store_ab line_ac R) as (_ & _ & C & _ & Hh & _).
  split; [exact C|exact Hh].
Defined.

(** X10. [plus] removes and reorders nothing: the sequence a pair had is a
    prefix of the sequence it has after the merge, and a publication id
    that was registered, or inherited, reads as before. *)
Theorem plus_keeps `{JsBuiltins} (equal : PSQData -> PSQData -> bool)
    (self other : PSICQuic.t) (c d p : string) :
  PSICQuic.getLines self c d `prefix_of` PSICQuic.getLines (PSICQuic.plus equal self other) c d
  /\ (PSICQuic.js_in p (PSICQuic.registredPublications self) = true ->
      PSICQuic.js_in p (PSICQuic.registredPublications (PSICQuic.plus equal self other)) = true
      /\ PSICQuic.js_read (PSICQuic.registredPublications (PSICQuic.plus equal self other)) p
         = PSICQuic.js_read (PSICQuic.registredPublications self) p).
Proof.
  rewrite plus_lines. generalize (PSICQuic.lines other). intros l. revert self.
  induction l as [|x l IH]; intros self; simpl.
  { split; [reflexivity|auto]. }
  destruct (IH (PSICQuic.plus_line equal self x)) as [I1 I2]. split.
  - etransitivity; [apply getLines_plus_line_prefix|exact I1].
  - intros J. destruct (plus_line_registry equal self x p J) as [J' R'].
    destruct (I2 J') as [J'' R'']. split; [exact J''|]. by rewrite R'', R'.
Qed.

Lemma plus_keeps_witness :
  @PSICQuic.js_in example_runtime "pubmed:1" (PSICQuic.registredPublications store_ab) = true
  /\ @PSICQuic.js_read example_runtime
       (PSICQuic.registredPublications
          (@PSICQuic.plus example_runtime example_equal store_ab store_mint)) "pubmed:1"
     = Some "intact".
Proof.
  assert (J : @PSICQuic.js_in example_runtime "pubmed:1"
                (PSICQuic.registredPublications store_ab) = true) by reflexivity.
  split; [exact J|].
  exact (proj2 (proj2 (@plus_keeps example_runtime example_equal store_ab store_mint
                         "A" "B" "pubmed:1") J)).
Defined.

(** X11. Where the equality of records holds of every record with itself:
    after [plus], the publication id of every record of the other store is
    registered or inherited, and every record of the other store that is
    not in conflict with the registry the merge left has an equal entry in
    the sequence of its pair. The records a merge leaves out are those
    whose publication id is registered under another source. *)
Theorem plus_merges_unconflicted `{JsBuiltins} (equal : PSQData -> PSQData -> bool)
    (self other : PSICQuic.t) (line : PSQData) :
  (forall d, equal d d = true) ->
  line ∈ PSICQuic.lines other ->
  PSICQuic.js_in (pmid line)
    (PSICQuic.registredPublications (PSICQuic.plus equal self other)) = true
  /\ (conflict (PSICQuic.plus equal self other) line = false ->
      exists l, l ∈ PSICQuic.getLines (PSICQuic.plus equal self other)
                      (ids line).1 (ids line).2
                /\ equal l line = true).
Proof.
  intros Hrefl Hin. rewrite plus_lines.
  pose proof (fold_all_settled equal (PSICQuic.lines other) self Hrefl) as F.
  rewrite Forall_forall in F. destruct (F line Hin) as [J D].
  split; [exact J|]. intros C. destruct D as [D|D]; [congruence|].
  unfold has_equal in D. apply existsb_exists in D. destruct D as (l & Hl & E).
  exists l. split; [by apply list_elem_of_In|exact E].
Qed.

Lemma plus_merges_unconflicted_witness :
  (forall d, example_equal d d = true)
  /\ line_ab ∈ PSICQuic.lines (PSICQuic.update example_equal PSICQuic.new line_ab)
  /\ @PSICQuic.js_in example_runtime (pmid line_ab)
       (PSICQuic.registredPublications
          (@PSICQuic.plus example_runtime example_equal store_ab
             (PSICQuic.update example_equal PSICQuic.new line_ab))) = true.
Proof.
  assert (R : forall d, example_equal d d = true).
  { intros d. unfold example_equal.
    rewrite !String.eqb_refl, !bool_decide_eq_true_2; reflexivity. }
  assert (L : line_ab ∈ PSICQuic.lines (PSICQuic.update example_equal PSICQuic.new line_ab)).
  { vm_compute. left. }
  split; [exact R|]. split; [exact L|].
  exact (proj1 (@plus_merges_unconflicted example_runtime example_equal store_ab
                  (PSICQuic.update example_equal PSICQuic.new line_ab) line_ab R L)).
Defined.

(** ** [get] and [filter] *)

Section Filter.
Variable equal : PSQData -> PSQData -> bool.

Import ReversibleKeyMap.

Lemma lines_elem (s : PSICQuic.t) (l : PSQData) :
  l ∈ PSICQuic.lines s <-> exists k v, (k, v) ∈ PSICQuic.records s /\ l ∈ v.
Proof.
  unfold PSICQuic.lines, values. rewrite list_elem_of_In, in_concat. split.
  - intros (v & Hv & Hl). apply in_map_iff in Hv. destruct Hv as ([k w] & <- & Hin).
    exists k, w. split; by apply list_elem_of_In.
  - intros (k & v & Hin & Hl). exists v. split; [|by apply list_elem_of_In].
    apply in_map_iff. exists (k, v). split; [reflexivity|by apply list_elem_of_In].
Qed.

Lemma getLines_lines (s : PSICQuic.t) (a b : string) (l : PSQData) :
  l ∈ PSICQuic.getLines s a b -> l ∈ PSICQuic.lines s.
Proof.
  rewrite getLines_get. destruct (get (PSICQuic.records s) a b) as [v|] eqn:G; simpl.
  - intros Hl. destruct (get_elem _ _ _ _ G) as (k & Hin & _). apply lines_elem. eauto.
  - intros Hl. by apply elem_of_nil in Hl.
Qed.

(** [update] stores no line but the one it is given. *)
Lemma lines_update (s : PSICQuic.t) (psq l : PSQData) :
  l ∈ PSICQuic.lines (PSICQuic.update equal s psq) -> l ∈ PSICQuic.lines s \/ l = psq.
Proof.
  unfold PSICQuic.update. destruct (ids psq) as [id1 id2].
  destruct (forallb _ _); [|by left].
  intros Hl. apply lines_elem in Hl. destruct Hl as (k & v & Hin & Hl). simpl in Hin.
  destruct (set_elem _ _ _ _ _ Hin) as [Hr|E].
  - left. apply lines_elem. eauto.
  - simpl in E. subst v. apply elem_of_app in Hl. destruct Hl as [Hl|Hl].
    + left. by apply (getLines_lines s id1 id2).
    + right. by apply list_elem_of_singleton in Hl.
Qed.

Lemma has_equal_update_mono (s : PSICQuic.t) (x l : PSQData) :
  has_equal equal s l = true -> has_equal equal (PSICQuic.update equal s x) l = true.
Proof.
  unfold has_equal. intros E. apply existsb_exists in E. destruct E as (l0 & Hl & E).
  apply existsb_exists. exists l0. split; [|exact E].
  apply list_elem_of_In in Hl. apply list_elem_of_In.
  destruct (getLines_update_prefix equal s x (ids l).1 (ids l).2) as [k ->].
  apply elem_of_app. by left.
Qed.

(** A loop that calls [update] on the lines that satisfy a condition. *)
Lemma fold_update_cond `{JsBuiltins} (c : PSQData -> bool) (ls : list PSQData)
    (target : PSICQuic.t) :
  let target' :=
    fold_left (fun target data => if c data then PSICQuic.update equal target data
                                  else target) ls target in
  (built equal target -> built equal target')
  /\ PSICQuic.registredPublications target' = PSICQuic.registredPublications target
  /\ (forall l, l ∈ PSICQuic.lines target' ->
                l ∈ PSICQuic.lines target \/ (l ∈ ls /\ c l = true))
  /\ (forall l, has_equal equal target l = true -> has_equal equal target' l = true)
  /\ ((forall d, equal d d = true) ->
      forall l, l ∈ ls -> c l = true -> has_equal equal target' l = true).
Proof.
  revert target. induction ls as [|x ls IH]; intros target; simpl.
  { repeat split; auto. intros _ l Hl. by apply elem_of_nil in Hl. }
  specialize (IH (if c x then PSICQuic.update equal target x else target)).
  simpl in IH. destruct IH as (I1 & I2 & I3 & I4 & I5).
  split; [|split; [|split; [|split]]].
  - intros B. apply I1. destruct (c x); [by apply built_update|exact B].
  - rewrite I2. destruct (c x); [apply update_registry|reflexivity].
  - intros l Hl. destruct (I3 l Hl) as [Ht|[Hin Hc]].
    + destruct (c x) eqn:Cx; [|by left].
      destruct (lines_update _ _ _ Ht) as [?| ->]; [by left|].
      right. split; [left|exact Cx].
    + right. split; [by right|exact Hc].
  - intros l E. apply I4. destruct (c x); [by apply has_equal_update_mono|exact E].
  - intros Hrefl l Hl Hc. apply elem_of_cons in Hl. destruct Hl as [->|Hl].
    + apply I4. rewrite Hc. by apply has_equal_update.
    + by apply I5.
Qed.
End Filter.

(** X12. [get] of an identifier, on a store the methods built, gives
    exactly the stored records that have it as one of their two
    identifiers; for an identifier of no stored record it gives nothing. *)
Theorem get_by_identifier `{JsBuiltins} (equal : PSQData -> PSQData -> bool)
    (s : PSICQuic.t) (id : string) (l : PSQData) :
  built equal s ->
  l ∈ PSICQuic.get s id
  <-> l ∈ PSICQuic.lines s /\ ((ids l).1 = id \/ (ids l).2 = id).
Proof.
  intros B. pose proof (built_well_keyed equal s B) as W.
  rewrite get_elem_of, lines_elem.
  assert (K : forall k v, (k, v) ∈ PSICQuic.records s -> l ∈ v ->
                (k.1 = id \/ k.2 = id) <-> ((ids l).1 = id \/ (ids l).2 = id)).
  { intros k v Hin Hl. apply list_elem_of_lookup in Hin. destruct Hin as [i Hi].
    pose proof (well_keyed_entry _ _ _ _ W Hi) as F. rewrite Forall_forall in F.
    specialize (F l Hl). unfold same_pair in F. apply bool_decide_eq_true in F.
    naive_solver. }
  split.
  - intros (k & v & Hin & P & Hl). split; [eauto|]. by apply (K k v Hin Hl).
  - intros [(k & v & Hin & Hl) P]. exists k, v. split; [exact Hin|].
    split; [|exact Hl]. by apply (K k v Hin Hl).
Qed.

Lemma get_by_identifier_witness :
  @built example_runtime example_equal store_mint
  /\ (line_ac ∈ PSICQuic.get store_mint "C"
      <-> line_ac ∈ PSICQuic.lines store_mint
          /\ ((ids line_ac).1 = "C" \/ (ids line_ac).2 = "C")).
Proof.
  assert (B : @built example_runtime example_equal store_mint).
  { unfold store_mint, store_ac. apply built_update, built_update, built_new. }
  split; [exact B|].
  exact (@get_by_identifier example_runtime example_equal store_mint "C" line_ac B).
Defined.

(** X13. [filter] returns a store built from a new one, with an empty
    registry. Every record it holds is a record of the source that is
    selected: the subset of identifiers is not empty and meets the pair of
    the record, or the predicate is given and holds of it. Where the
    equality of records holds of every record with itself, every selected
    record of the source has an equal entry in the sequence of its pair in
    the result. *)
Theorem filter_selects `{JsBuiltins} (equal : PSQData -> PSQData -> bool)
    (uniprotPair : PSQData -> option (string * string))
    (uniprot : list string) (predicate : option (PSQData -> bool)) (s : PSICQuic.t) :
  let target := PSICQuic.filter equal uniprotPair uniprot predicate s in
  built equal target
  /\ PSICQuic.registredPublications target = ∅
  /\ (forall l, l ∈ PSICQuic.lines target ->
        l ∈ PSICQuic.lines s /\ selected uniprotPair uniprot predicate l = true)
  /\ ((forall d, equal d d = true) ->
      forall l, l ∈ PSICQuic.lines s -> selected uniprotPair uniprot predicate l = true ->
        exists l', l' ∈ PSICQuic.getLines target (ids l).1 (ids l).2
                   /\ equal l' l = true).
Proof.
  intros target. unfold PSICQuic.filter in target.
  set (c1 := fun d => match uniprotPair d with
                      | Some up => PSICQuic.intersects up uniprot
                      | None => false
                      end).
  set (t1 := if Nat.eqb (length uniprot) 0 then PSICQuic.new
             else fold_left (fun target data =>
                               if c1 data then PSICQuic.update equal target data
                               else target) (PSICQuic.lines s) PSICQuic.new).
  assert (Et : target
               = match predicate with
                 | Some predicate =>
                     fold_left (fun target data =>
                                  if predicate data then PSICQuic.update equal target data
                                  else target) (PSICQuic.lines s) t1
                 | None => t1
                 end).
  { subst target t1. destruct (Nat.eqb (length uniprot) 0); [reflexivity|].
    assert (Ef : forall ls t0,
               fold_left (fun target data =>
                            match uniprotPair data with
                            | Some up => if PSICQuic.intersects up uniprot
                                         then PSICQuic.update equal target data else target
                            | None => target
                            end) ls t0
               = fold_left (fun target data =>
                              if c1 data then PSICQuic.update equal target data
                              else target) ls t0).
    { induction ls as [|x ls IH]; intros t0; simpl; [reflexivity|].
      rewrite IH. unfold c1. by destruct (uniprotPair x). }
    by rewrite Ef. }
  clearbody target. subst target.
  assert (T1 : built equal t1
               /\ PSICQuic.registredPublications t1 = ∅
               /\ (forall l, l ∈ PSICQuic.lines t1 ->
                     l ∈ PSICQuic.lines s
                     /\ negb (Nat.eqb (length uniprot) 0) && c1 l = true)
               /\ ((forall d, equal d d = true) ->
                   forall l, l ∈ PSICQuic.lines s ->
                     negb (Nat.eqb (length uniprot) 0) && c1 l = true ->
                     has_equal equal t1 l = true)).
  { subst t1. destruct (Nat.eqb (length uniprot) 0).
    - split; [apply built_new|]. split; [reflexivity|]. split.
      + intros l Hl. vm_compute in Hl. by apply elem_of_nil in Hl.
      + intros _ l _ C. discriminate.
    - destruct (fold_update_cond equal c1 (PSICQuic.lines s) PSICQuic.new)
        as (F1 & F2 & F3 & _ & F5).
      split; [apply F1, built_new|]. split; [by rewrite F2|]. split.
      + intros l Hl. destruct (F3 l Hl) as [Hn|[Hin Hc]]; [|by rewrite Hc].
        vm_compute in Hn. by apply elem_of_nil in Hn.
      + intros Hrefl l Hl C. by apply F5. }
  destruct T1 as (B1 & R1 & S1 & C1).
  assert (Hsel : forall l, selected uniprotPair uniprot predicate l
                 = (negb (Nat.eqb (length uniprot) 0) && c1 l)
                   || match predicate with Some p => p l | None => false end)
    by reflexivity.
  assert (Hex : forall t l, has_equal equal t l = true ->
                  exists l', l' ∈ PSICQuic.getLines t (ids l).1 (ids l).2
                             /\ equal l' l = true).
  { intros t l E. unfold has_equal in E. apply existsb_exists in E.
    destruct E as (l' & Hl & E). exists l'. split; [by apply list_elem_of_In|exact E]. }
  destruct predicate as [p|].
  - destruct (fold_update_cond equal p (PSICQuic.lines s) t1) as (F1 & F2 & F3 & F4 & F5).
    split; [by apply F1|]. split; [by rewrite F2|]. split.
    + intros l Hl. rewrite Hsel. destruct (F3 l Hl) as [Ht|[Hin Hc]].
      * destruct (S1 l Ht) as [? ->]. by split.
      * split; [exact Hin|]. by rewrite Hc, orb_true_r.
    + intros Hrefl l Hl Sel. apply Hex. rewrite Hsel in Sel.
      apply orb_true_iff in Sel. destruct Sel as [Sel|Sel].
      * apply F4. by apply C1.
      * by apply F5.
  - split; [exact B1|]. split; [exact R1|]. split.
    + intros l Hl. rewrite Hsel. destruct (S1 l Hl) as [? ->]. by split.
    + intros Hrefl l Hl Sel. apply Hex. rewrite Hsel, orb_false_r in Sel. by apply C1.
Qed.

Lemma filter_selects_witness :
  (forall d, example_equal d d = true)
  /\ (exists l', l' ∈ PSICQuic.getLines
                     (PSICQuic.filter example_equal (fun d => Some (ids d)) ["C"] None
                        store_mint) "A" "C"
                 /\ example_equal l' line_ac = true).
Proof.
  assert (R : forall d, example_equal d d = true).
  { intros d. unfold example_equal.
    rewrite !String.eqb_refl, !bool_decide_eq_true_2; reflexivity. }
  split; [exact R|].
  refine (proj2 (proj2 (proj2 (@filter_selects example_runtime example_equal
                                 (fun d => Some (ids d)) ["C"] None store_mint)))
            R line_ac _ _).
  - vm_compute. left.
  - reflexivity.
Defined.

(** ** The partners of every identifier *)

Section Partners.
Context `{JsBuiltins}.

Lemma Set_add_elem (l : list string) (x y : string) :
  y ∈ Set_add l x <-> y ∈ l \/ y = x.
Proof.
  unfold Set_add. destruct (Set_has l x) eqn:E.
  - apply Set_has_elem_of in E. split; [auto|]. by intros [?| ->].
  - rewrite elem_of_app, list_elem_of_singleton. tauto.
Qed.

Lemma Set_add_NoDup (l : list string) (x : string) : NoDup l -> NoDup (Set_add l x).
Proof.
  intros N. unfold Set_add. destruct (Set_has l x) eqn:E; [exact N|].
  apply NoDup_app. split; [exact N|]. split; [|apply NoDup_singleton].
  intros y Hy ->%list_elem_of_singleton. apply Set_has_elem_of in Hy. congruence.
Qed.

Lemma add_partner_plain (m : gmap string (list string)) (id1 id2 : string) :
  plain_key id1 -> partners_sound m ->
  exists m', PSICQuic.add_partner m id1 id2 = Normal m'
             /\ partners_sound m'
             /\ forall a b, b ∈ default [] (m' !! a)
                            <-> b ∈ default [] (m !! a) \/ (a = id1 /\ b = id2).
Proof.
  intros P S. unfold PSICQuic.add_partner, plain_key in *.
  destruct (m !! id1) as [l|] eqn:E.
  - eexists. split; [reflexivity|]. split.
    + intros a l'. destruct (decide (a = id1)) as [->|Hne].
      * rewrite lookup_insert_eq. intros [= <-]. split; [exact P|].
        apply Set_add_NoDup. by destruct (S id1 l E).
      * rewrite lookup_insert_ne by congruence. apply S.
    + intros a b. destruct (decide (a = id1)) as [->|Hne].
      * rewrite lookup_insert_eq, E. simpl. rewrite Set_add_elem. naive_solver.
      * rewrite lookup_insert_ne by congruence. naive_solver.
  - rewrite P. rewrite bool_decide_eq_false_2 by (intros [? ?]; discriminate).
    eexists. split; [reflexivity|]. split.
    + intros a l'. destruct (decide (a = id1)) as [->|Hne].
      * rewrite lookup_insert_eq. intros [= <-]. split; [exact P|apply NoDup_singleton].
      * rewrite lookup_insert_ne by congruence. apply S.
    + intros a b. destruct (decide (a = id1)) as [->|Hne].
      * rewrite lookup_insert_eq, E. simpl. rewrite list_elem_of_singleton.
        split; [naive_solver|]. intros [Hn|[_ ->]]; [by apply elem_of_nil in Hn|reflexivity].
      * rewrite lookup_insert_ne by congruence. naive_solver.
Qed.

Lemma add_partner_inherited (m : gmap string (list string)) (id1 id2 : string) :
  ~ plain_key id1 -> partners_sound m ->
  PSICQuic.add_partner m id1 id2 = Throw TypeError.
Proof.
  intros P S. unfold PSICQuic.add_partner, plain_key in *.
  destruct (m !! id1) as [l|] eqn:E.
  - destruct (S id1 l E) as [P' _]. contradiction.
  - rewrite bool_decide_eq_true_2; [reflexivity|].
    destruct (Object_prototype id1); [eauto|contradiction].
Qed.

Lemma partners_loop_plain (entries : ReversibleKeyMap.t (list PSQData))
    (m : gmap string (list string)) :
  Forall (fun e => plain_key e.1.1 /\ plain_key e.1.2) entries ->
  partners_sound m ->
  exists m', PSICQuic.partners_loop entries m = Normal m'
             /\ partners_sound m'
             /\ forall a b, b ∈ default [] (m' !! a)
                  <-> b ∈ default [] (m !! a)
                      \/ exists k v, (k, v) ∈ entries
                                     /\ ReversibleKeyMap.key_match k a b = true.
Proof.
  intros F. revert m. induction F as [|[k v] entries [P1 P2] F IH]; intros m S; simpl.
  { exists m. split; [reflexivity|]. split; [exact S|]. intros a b. split; [auto|].
    intros [?|(k & v & Hin & _)]; [done|]. by apply elem_of_nil in Hin. }
  simpl in P1, P2.
  destruct (add_partner_plain m k.1 k.2 P1 S) as (m1 & -> & S1 & C1).
  destruct (add_partner_plain m1 k.2 k.1 P2 S1) as (m2 & -> & S2 & C2).
  destruct (IH m2 S2) as (m' & E & S' & C'). exists m'. split; [exact E|].
  split; [exact S'|]. intros a b. rewrite C', C2, C1. split.
  - intros [[[?|[-> ->]]|[-> ->]]|(k' & v' & Hin & K)]; auto; right.
    + exists k, v. split; [left|]. apply bool_decide_eq_true. auto.
    + exists k, v. split; [left|]. apply bool_decide_eq_true. auto.
    + exists k', v'. split; [by right|exact K].
  - intros [?|(k' & v' & Hin & K)]; auto.
    apply elem_of_cons in Hin. destruct Hin as [[= -> ->]|Hin].
    + apply bool_decide_eq_true in K. left. naive_solver.
    + right. eauto.
Qed.

Lemma partners_loop_inherited (entries : ReversibleKeyMap.t (list PSQData))
    (m : gmap string (list string)) :
  Exists (fun e => ~ plain_key e.1.1 \/ ~ plain_key e.1.2) entries ->
  partners_sound m ->
  PSICQuic.partners_loop entries m = Throw TypeError.
Proof.
  intros X. revert m. induction entries as [|[k v] entries IH]; intros m S.
  { by apply Exists_nil in X. }
  simpl.
  destruct (decide (plain_key k.1)) as [P1|P1];
    [|by rewrite (add_partner_inherited m k.1 k.2 P1 S)].
  destruct (add_partner_plain m k.1 k.2 P1 S) as (m1 & -> & S1 & _).
  destruct (decide (plain_key k.2)) as [P2|P2];
    [|by rewrite (add_partner_inherited m1 k.2 k.1 P2 S1)].
  destruct (add_partner_plain m1 k.2 k.1 P2 S1) as (m2 & -> & S2 & _).
  apply IH; [|exact S2]. apply Exists_cons in X. destruct X as [[?|?]|X]; [done|done|exact X].
Qed.
End Partners.

(** X14. When no identifier of a stored pair names a member of
    [Object.prototype], [getAllPartnersPairs] returns an object in which
    [b] is a partner of [a] exactly when the pair of [a] and [b] is stored;
    so [b] is a partner of [a] exactly when [a] is one of [b], and no
    partner is listed twice. When some identifier names such a member, the
    call throws a [TypeError]. *)
Theorem partners_of_pairs `{JsBuiltins} (s : PSICQuic.t) :
  (Forall (fun e => plain_key e.1.1 /\ plain_key e.1.2) (PSICQuic.records s) ->
   exists m, PSICQuic.getAllPartnersPairs s = Normal m
     /\ (forall a b, b ∈ default [] (m !! a)
           <-> exists k v, (k, v) ∈ PSICQuic.records s
                           /\ ReversibleKeyMap.key_match k a b = true)
     /\ (forall a b, b ∈ default [] (m !! a) <-> a ∈ default [] (m !! b))
     /\ (forall a, NoDup (default [] (m !! a))))
  /\ (Exists (fun e => ~ plain_key e.1.1 \/ ~ plain_key e.1.2) (PSICQuic.records s) ->
      PSICQuic.getAllPartnersPairs s = Throw TypeError).
Proof.
  assert (S0 : partners_sound ∅) by (intros a l Hl; by rewrite lookup_empty in Hl).
  split.
  - intros F. destruct (partners_loop_plain _ ∅ F S0) as (m & E & S & C).
    exists m. split; [exact E|].
    assert (C' : forall a b, b ∈ default [] (m !! a)
                   <-> exists k v, (k, v) ∈ PSICQuic.records s
                                   /\ ReversibleKeyMap.key_match k a b = true).
    { intros a b. rewrite C, lookup_empty. simpl. split; [|auto].
      intros [Hn|?]; [by apply elem_of_nil in Hn|done]. }
    split; [exact C'|]. split.
    + intros a b. rewrite !C'. split; intros (k & v & Hin & K); exists k, v;
        (split; [exact Hin|]); by rewrite key_match_swap.
    + intros a. destruct (m !! a) as [l|] eqn:El; simpl; [|constructor].
      by destruct (S a l El).
  - intros X. by apply partners_loop_inherited.
Qed.

Lemma partners_of_pairs_witness :
  Forall (fun e => @plain_key example_runtime e.1.1 /\ @plain_key example_runtime e.1.2)
         (PSICQuic.records store_mint)
  /\ exists m, @PSICQuic.getAllPartnersPairs example_runtime store_mint = Normal m
       /\ (forall a b, b ∈ default [] (m !! a) <-> a ∈ default [] (m !! b)).
Proof.
  assert (F : Forall (fun e => @plain_key example_runtime e.1.1
                               /\ @plain_key example_runtime e.1.2)
                     (PSICQuic.records store_mint)).
  { vm_compute. repeat constructor. }
  split; [exact F|].
  destruct (proj1 (@partners_of_pairs example_runtime store_mint) F) as (m & E & _ & Sy & _).
  exists m. split; [exact E|exact Sy].
Defined.

(** ** Reading lines of text *)

Section ReadLines.
Variable equal : PSQData -> PSQData -> bool.
Context {E : Type}.
Variable PSQData_new : string -> bool -> outcome E PSQData.
Variable keep_raw : bool.

Lemma parseLine_skips (line : string) (added : option (list PSQData)) (s : PSICQuic.t) :
  data_line line = false ->
  PSICQuic.parseLine equal PSQData_new keep_raw line added s = (Returned added, s).
Proof.
  unfold PSICQuic.parseLine, data_line. intros D. apply negb_false_iff in D. by rewrite D.
Qed.

Lemma parseLine_added (line : string) (added : list PSQData) (s : PSICQuic.t)
    (d : PSQData) :
  data_line line = true ->
  PSQData_new line keep_raw = Returned d ->
  PSICQuic.parseLine equal PSQData_new keep_raw line (Some added) s
  = (Returned (Some (added ++ [d])), PSICQuic.update equal s d).
Proof.
  unfold PSICQuic.parseLine, data_line. intros D P. apply negb_true_iff in D.
  by rewrite D, P.
Qed.

Lemma parseLine_throws (line : string) (added : option (list PSQData)) (s : PSICQuic.t)
    (e : E) :
  data_line line = true ->
  PSQData_new line keep_raw = Thrown e ->
  PSICQuic.parseLine equal PSQData_new keep_raw line added s = (Thrown e, s).
Proof.
  unfold PSICQuic.parseLine, data_line. intros D P. apply negb_true_iff in D.
  by rewrite D, P.
Qed.

Lemma readLines_loop_returns (ls : list string) (added : list PSQData) (s : PSICQuic.t)
    (ds : list PSQData) :
  Forall2 (fun line d => PSQData_new line keep_raw = Returned d)
          (List.filter data_line ls) ds ->
  PSICQuic.readLines_loop equal PSQData_new keep_raw ls added s
  = (Returned (added ++ ds), fold_left (PSICQuic.update equal) ds s).
Proof.
  revert added s ds. induction ls as [|line ls IH]; intros added s ds; simpl.
  { intros P. inversion P. by rewrite app_nil_r. }
  destruct (data_line line) eqn:D.
  - intros P. inversion P as [|? d ? ds' Pd Pds]. subst.
    rewrite (parseLine_added line added s d D Pd). simpl.
    rewrite (IH _ _ _ Pds). by rewrite <- app_assoc.
  - intros P. rewrite (parseLine_skips line (Some added) s D). simpl. by apply IH.
Qed.

Lemma readLines_loop_throws (ls : list string) (added : list PSQData) (s : PSICQuic.t)
    (pre : list string) (line : string) (post : list string) (ds : list PSQData) (e : E) :
  List.filter data_line ls = pre ++ line :: post ->
  Forall2 (fun line d => PSQData_new line keep_raw = Returned d) pre ds ->
  PSQData_new line keep_raw = Thrown e ->
  PSICQuic.readLines_loop equal PSQData_new keep_raw ls added s
  = (Thrown e, fold_left (PSICQuic.update equal) ds s).
Proof.
  intros F P T. revert added s pre ds F P.
  induction ls as [|l ls IH]; intros added s pre ds F P; simpl in *.
  { by destruct pre. }
  destruct (data_line l) eqn:D.
  - destruct pre as [|p pre]; simpl in F; injection F as -> F.
    + inversion P. subst. by rewrite (parseLine_throws line (Some added) s e D T).
    + inversion P as [|? d ? ds' Pd Pds]. subst.
      rewrite (parseLine_added p added s d D Pd). simpl.
      by apply (IH _ _ pre ds').
  - rewrite (parseLine_skips l (Some added) s D). simpl. by apply (IH _ _ pre ds).
Qed.

Lemma fold_update_has_equal (ls : list PSQData) (s : PSICQuic.t) :
  (forall d, equal d d = true) ->
  forall d, d ∈ ls -> has_equal equal (fold_left (PSICQuic.update equal) ls s) d = true.
Proof.
  intros Hrefl. revert s. induction ls as [|x ls IH]; intros s d Hd; simpl.
  { by apply elem_of_nil in Hd. }
  apply elem_of_cons in Hd. destruct Hd as [->|Hd]; [|by apply IH].
  assert (M : forall l t, has_equal equal t x = true ->
                has_equal equal (fold_left (PSICQuic.update equal) l t) x = true).
  { induction l as [|y l IHl]; intros t Ex; simpl; [exact Ex|].
    apply IHl. by apply has_equal_update_mono. }
  apply M. by apply has_equal_update.
Qed.

Lemma fold_update_built `{JsBuiltins} (ls : list PSQData) (s : PSICQuic.t) :
  built equal s -> built equal (fold_left (PSICQuic.update equal) ls s).
Proof.
  revert s. induction ls as [|x ls IH]; intros s B; simpl; [exact B|].
  apply IH. by apply built_update.
Qed.
End ReadLines.

(** X15. [readLines] splits a text at its line feeds, skips the empty lines
    and the lines that start with [#], and gives every other line to the
    constructor of the record type, in order. When the constructor returns
    a record for each of these lines, [readLines] returns these records,
    also the record of a line that [update] found already stored, and
    leaves the store [update] leaves after them in turn; where the equality
    of records holds of every record with itself, every returned record
    then has an equal entry in the sequence of its pair. When the
    constructor throws on one of these lines, [readLines] throws what it
    threw at the first such line and returns no record; the store keeps the
    records of the lines before that one. *)
Theorem readLines_reads {E : Type} (equal : PSQData -> PSQData -> bool)
    (PSQData_new : string -> bool -> outcome E PSQData) (keep_raw : bool)
    (str : string + list string) (s : PSICQuic.t) :
  let lines := match str with inl text => split_newline text | inr lines => lines end in
  let data := List.filter data_line lines in
  (forall parsed : list PSQData,
     Forall2 (fun line d => PSQData_new line keep_raw = Returned d) data parsed ->
     PSICQuic.readLines equal PSQData_new keep_raw str s
     = (Returned parsed, fold_left (PSICQuic.update equal) parsed s)
     /\ ((forall d, equal d d = true) ->
         forall d, d ∈ parsed ->
           exists l, l ∈ PSICQuic.getLines (fold_left (PSICQuic.update equal) parsed s)
                           (ids d).1 (ids d).2
                     /\ equal l d = true))
  /\ (forall (pre : list string) (line : string) (post : list string)
             (parsed : list PSQData) (e : E),
        data = pre ++ line :: post ->
        Forall2 (fun line d => PSQData_new line keep_raw = Returned d) pre parsed ->
        PSQData_new line keep_raw = Thrown e ->
        PSICQuic.readLines equal PSQData_new keep_raw str s
        = (Thrown e, fold_left (PSICQuic.update equal) parsed s)).
Proof.
  intros lines data. unfold PSICQuic.readLines. fold lines. split.
  - intros parsed P. split.
    + exact (readLines_loop_returns equal PSQData_new keep_raw lines [] s parsed P).
    + intros Hrefl d Hd.
      pose proof (fold_update_has_equal equal parsed s Hrefl d Hd) as Ex.
      unfold has_equal in Ex. apply existsb_exists in Ex. destruct Ex as (l & Hl & Ex).
      exists l. split; [by apply list_elem_of_In|exact Ex].
  - intros pre line post parsed e F P T.
    exact (readLines_loop_throws equal PSQData_new keep_raw lines [] s
             pre line post parsed e F P T).
Qed.

Lemma readLines_reads_witness :
  PSICQuic.readLines example_equal example_PSQData_new false
    (inl (String "#" (String "c" (String (ascii_of_nat 10)
            (String "B" (String (ascii_of_nat 10) (String (ascii_of_nat 10)
               (String "B" EmptyString)))))))) PSICQuic.new
  = (Returned [line_ab; line_ab], PSICQuic.update example_equal PSICQuic.new line_ab)
  /\ PSICQuic.readLines example_equal example_PSQData_new false
       (inr ["B"; "garbage"; "C"]) PSICQuic.new
     = (Thrown TypeError, PSICQuic.update example_equal PSICQuic.new line_ab).
Proof.
  split.
  - refine (proj1 (proj1 (readLines_reads example_equal example_PSQData_new false
                            (inl (String "#" (String "c" (String (ascii_of_nat 10)
                                    (String "B" (String (ascii_of_nat 10)
                                       (String (ascii_of_nat 10)
                                          (String "B" EmptyString))))))))
                            PSICQuic.new) [line_ab; line_ab] _)).
    repeat constructor.
  - refine (proj2 (readLines_reads example_equal example_PSQData_new false
                     (inr ["B"; "garbage"; "C"]) PSICQuic.new)
                  ["B"] "garbage" ["C"] [line_ab] TypeError eq_refl _ eq_refl).
    repeat constructor.
Defined.

(** ** Stricter thresholds *)

Lemma SFleb_trans (a b c : spec_float) :
  SFleb a b = true -> SFleb b c = true -> SFleb a c = true.
Proof.
  unfold SFleb.
  destruct a as [sa|sa| |sa ma ea], b as [sb|sb| |sb mb eb], c as [sc|sc| |sc mc ec];
    simpl; try discriminate; try reflexivity;
    repeat match goal with s : bool |- _ => destruct s end;
    simpl; try discriminate; try reflexivity; auto.
  all: try (destruct (Z.compare_spec ea eb), (Z.compare_spec eb ec), (Z.compare_spec ea ec);
            simpl; try discriminate; try reflexivity; try lia; subst;
            change (Pos.compare_cont Eq) with Pos.compare;
            destruct (Pos.compare_spec ma mb), (Pos.compare_spec mb mc),
              (Pos.compare_spec ma mc);
            simpl; try discriminate; try reflexivity; try lia).
Qed.

Lemma leb_trans (a b c : float) :
  (a <=? b)%float = true -> (b <=? c)%float = true -> (a <=? c)%float = true.
Proof. rewrite !FloatAxioms.leb_spec. apply SFleb_trans. Qed.

Section Stricter.
Context `{JsBuiltins}.

(** A record that passes thresholds passes laxer ones. *)
Lemma passes_laxer (o1 o2 : TrimOptions) (h : HoParameter.t) :
  (opt_simPct o1 <=? opt_simPct o2)%float = true ->
  (opt_idPct o1 <=? opt_idPct o2)%float = true ->
  (opt_cvPct o1 <=? opt_cvPct o2)%float = true ->
  (opt_eValue o2 <=? opt_eValue o1)%float = true ->
  passes o2 h = true -> passes o1 h = true.
Proof.
  intros S I C E. unfold passes, js_ge, js_le. intros P.
  apply andb_true_iff in P. destruct P as [P Pe].
  apply andb_true_iff in P. destruct P as [P Pc].
  apply andb_true_iff in P. destruct P as [Ps Pi].
  rewrite (leb_trans _ _ _ S Ps), (leb_trans _ _ _ I Pi), (leb_trans _ _ _ C Pc).
  by rewrite (leb_trans _ _ _ Pe E).
Qed.

(** The flag of one iteration on a position without evidence group, when
    the iteration returns. *)
Lemma trim_row_valid_None mode o index lo hi st lo' hi' mc' st' :
  HoParameterSet.trim_row mode o index lo hi None st = Normal (lo', hi', mc', st') ->
  HoParameter.valid lo' = threshold_ok o lo && threshold_ok o hi.
Proof.
  unfold HoParameterSet.trim_row.
  destruct (row_thresholds_exact o lo hi (reasons st)) as [rs' ->].
  assert (R : HoParameterSet.row_reset o None = None)
    by (unfold HoParameterSet.row_reset; by destruct (negb _)).
  rewrite R. unfold HoParameterSet.row_filters. simpl HoParameter.valid.
  destruct (bool_decide (is_Some (exp_methods o)) || bool_decide (is_Some (taxons o)));
    destruct (threshold_ok o lo), (threshold_ok o hi); simpl; try discriminate;
    destruct (HoParameterSet.row_identical _ _ _ _ _ _);
    intros E; inversion E; reflexivity.
Qed.

Lemma position_ok_laxer mode (o1 o2 : TrimOptions) lo hi g :
  logged o1 = false -> logged o2 = false ->
  exp_methods o1 = exp_methods o2 -> taxons o1 = taxons o2 ->
  (opt_simPct o1 <=? opt_simPct o2)%float = true ->
  (opt_idPct o1 <=? opt_idPct o2)%float = true ->
  (opt_cvPct o1 <=? opt_cvPct o2)%float = true ->
  (opt_eValue o2 <=? opt_eValue o1)%float = true ->
  position_ok mode o2 lo hi g = true -> position_ok mode o1 lo hi g = true.
Proof.
  intros L1 L2 Em Et S I C E. unfold position_ok, threshold_ok, has_filters, line_ok.
  rewrite L1, L2, Em, Et. intros P.
  apply andb_true_iff in P. destruct P as [P F].
  apply andb_true_iff in P. destruct P as [Pl Ph].
  by rewrite (passes_laxer o1 o2 lo S I C E Pl), (passes_laxer o1 o2 hi S I C E Ph), F.
Qed.
End Stricter.

(** X17. Without [logged], and with the same method and taxon filters, a
    position that [trim] leaves valid under some thresholds is left valid
    under laxer ones: lower minima of similarity, identity and coverage
    and a higher maximum of the e-value. Raising a threshold never brings
    a position back. *)
Theorem laxer_thresholds_keep `{JsBuiltins} (mode : nat) (o1 o2 : TrimOptions)
    (s s1 s2 : HoParameterSet.t) (rs1 rs2 : list (TrimFailReason * TrimFailReason))
    (i : nat) :
  logged o1 = false -> logged o2 = false ->
  definitive o1 = false -> definitive o2 = false ->
  exp_methods o1 = exp_methods o2 -> taxons o1 = taxons o2 ->
  (opt_simPct o1 <=? opt_simPct o2)%float = true ->
  (opt_idPct o1 <=? opt_idPct o2)%float = true ->
  (opt_cvPct o1 <=? opt_cvPct o2)%float = true ->
  (opt_eValue o2 <=? opt_eValue o1)%float = true ->
  HoParameterSet.trim mode o1 s = Normal (s1, rs1) ->
  HoParameterSet.trim mode o2 s = Normal (s2, rs2) ->
  i < positions s ->
  flags (HoParameterSet.lowQueryParam s2) !! i = Some true ->
  flags (HoParameterSet.lowQueryParam s1) !! i = Some true
  /\ flags (HoParameterSet.highQueryParam s1) !! i = Some true.
Proof.
  intros L1 L2 D1 D2 Em Et S I C E E1 E2 Hi V2.
  unfold HoParameterSet.trim in E1, E2. rewrite D1 in E1. rewrite D2 in E2.
  destruct (HoParameterSet.trim_loop mode o1 0 _ _ _ _) as [[[[ls1 hs1] ms1] st1]|e] eqn:EL1;
    [|discriminate].
  destruct (HoParameterSet.trim_loop mode o2 0 _ _ _ _) as [[[[ls2 hs2] ms2] st2]|e] eqn:EL2;
    [|discriminate].
  inversion E1. inversion E2. subst. clear E1 E2. simpl in *.
  unfold positions in Hi.
  destruct (lookup_lt_is_Some_2 (HoParameterSet.lowQueryParam s) i) as [lo Hlo]; [lia|].
  destruct (lookup_lt_is_Some_2 (HoParameterSet.highQueryParam s) i) as [hi Hhi]; [lia|].
  destruct (trim_loop_pointwise _ _ _ _ _ _ _ _ _ _ _ EL1 i lo hi Hlo Hhi)
    as (sa & sb & lo1 & hi1 & R1 & Rl1 & Rh1).
  destruct (trim_loop_pointwise _ _ _ _ _ _ _ _ _ _ _ EL2 i lo hi Hlo Hhi)
    as (sc & sd & lo2 & hi2 & R2 & Rl2 & Rh2).
  unfold flags in *. rewrite lookup_map, Rl2 in V2. simpl in V2. injection V2 as V2.
  rewrite !lookup_map, Rl1, Rh1. simpl.
  pose proof (trim_row_Normal _ _ _ _ _ _ _ _ _ _ _ R1) as (_ & _ & _ & Vh & _).
  rewrite Vh.
  assert (V1 : HoParameter.valid lo1 = true); [|by rewrite V1].
  destruct (HoParameterSet.mitabCouples s !! i) as [g|].
  - apply trim_row_exact in R1. apply trim_row_exact in R2.
    destruct R1 as (-> & _). destruct R2 as (-> & _). simpl in *.
    by apply (position_ok_laxer mode o1 o2 lo hi g L1 L2 Em Et S I C E).
  - rewrite (trim_row_valid_None _ _ _ _ _ _ _ _ _ _ R1).
    rewrite (trim_row_valid_None _ _ _ _ _ _ _ _ _ _ R2) in V2.
    unfold threshold_ok in *. rewrite L1. rewrite L2 in V2.
    apply andb_true_iff in V2. destruct V2 as [Pl Ph].
    by rewrite (passes_laxer o1 o2 lo S I C E Pl), (passes_laxer o1 o2 hi S I C E Ph).
Qed.

Lemma laxer_thresholds_keep_witness :
  @HoParameterSet.trim example_runtime TAXON_EVERY default_options one_good_row
  = Normal (HoParameterSet.mk [HoParameter.mk good_row true]
                              [HoParameter.mk good_row true] [[]] true, [])
  /\ @HoParameterSet.trim example_runtime TAXON_EVERY
       (mkOptions 70 0 0 1 None None false false false) one_good_row
     = Normal (HoParameterSet.mk [HoParameter.mk good_row true]
                                 [HoParameter.mk good_row true] [[]] true, [])
  /\ flags [HoParameter.mk good_row true] !! 0 = Some true.
Proof.
  assert (E1 : @HoParameterSet.trim example_runtime TAXON_EVERY default_options one_good_row
               = Normal (HoParameterSet.mk [HoParameter.mk good_row true]
                                           [HoParameter.mk good_row true] [[]] true, []))
    by (vm_compute; reflexivity).
  assert (E2 : @HoParameterSet.trim example_runtime TAXON_EVERY
                 (mkOptions 70 0 0 1 None None false false false) one_good_row
               = Normal (HoParameterSet.mk [HoParameter.mk good_row true]
                                           [HoParameter.mk good_row true] [[]] true, []))
    by (vm_compute; reflexivity).
  split; [exact E1|]. split; [exact E2|].
  refine (proj1 (@laxer_thresholds_keep example_runtime TAXON_EVERY default_options
                   (mkOptions 70 0 0 1 None None false false false) one_good_row _ _ _ _ 0
                   eq_refl eq_refl eq_refl eq_refl eq_refl eq_refl
                   eq_refl eq_refl eq_refl eq_refl E1 E2 _ eq_refl)).
  unfold positions. simpl. lia.
Defined.
